(** * Quality definitions of the Sonarr plugin: model and properties

    Shallow embedding of [buildarr_sonarr/config/quality.py]:
    - [QualityDefinition] and its validator [validate_max],
    - [SonarrQualitySettingsConfig] with [_render], [from_remote] and
      [update_remote].

    Conventions of the embedding.
    - Python floats are exact rationals ([Q]); rounding is not modelled.
      Python's [==] on numbers is [Qeq_bool].  Comparisons of floats are
      exact in Python too; the one rounded operation of the source is the
      subtraction in [validate_max], and what is stated about it keeps the
      margin [rounding_margin] that rounding cannot absorb.
    - A Python [dict] is an insertion-ordered association list with unique
      keys ([dict]); [d[k]] is [getitem], [d[k] = v] is [dict_set] and
      [{**a, **b}] is [dict_merge].
    - JSON payloads are values of type [value].
    - A raised exception is [Err e]; a function with side effects returns
      its effects next to its result.
    - A pydantic [float] field takes an integer or a float; the lax
      conversions from strings and booleans are not modelled. *)

From Stdlib Require Import List Permutation String Ascii ZArith QArith Bool Lqa.
Import ListNotations.
Local Open Scope string_scope.
Local Open Scope list_scope.
Local Open Scope Q_scope.

(** ** JSON / Python values *)

#[local] Unset Elimination Schemes.
Inductive value : Type :=
| VNone
| VBool (b : bool)
| VInt (z : Z)
| VFloat (q : Q)
| VStr (s : string)
| VList (l : list value)
| VDict (d : list (string * value)).
#[local] Set Elimination Schemes.

(** ** Exceptions *)

(** One entry of a pydantic [ValidationError]. *)
Inductive field_error : Type :=
| float_type (field : string)
| string_type (field : string)
| greater_than_equal (field : string) (bound : Q)
| less_than_equal (field : string) (bound : Q)
| value_error (field : string) (quality_max quality_min : Q).

(** [ValueError] carries the two numbers its message is formatted from:
    "'max' (quality_max) not greater than 'min' (quality_min) by at least 1". *)
Inductive exn : Type :=
| KeyError (key : value)
| TypeError
| ValueError (quality_max quality_min : Q)
| AttributeError (attr : string)
| ValidationError (errors : list field_error)
| ConfigTrashIDNotFoundError (trash_id : string).

Inductive result (A : Type) : Type :=
| Ok (a : A)
| Err (e : exn).

Arguments Ok {A} a.
Arguments Err {A} e.

Definition bind {A B : Type} (r : result A) (k : A -> result B) : result B :=
  match r with
  | Ok a => k a
  | Err e => Err e
  end.

Declare Scope result_scope.
Delimit Scope result_scope with result.
Notation "x <- r ;; k" := (bind r (fun x => k))
  (at level 100, r at next level, right associativity) : result_scope.
Notation "' p <- r ;; k" := (bind r (fun p => k))
  (at level 100, p pattern, r at next level, right associativity) : result_scope.
Local Open Scope result_scope.

(** ** Python dictionaries *)

(** Keys: a decidable equality and the Python value a [KeyError] reports. *)
Class Key (K : Type) : Type :=
  { key_eqb : K -> K -> bool;
    key_eqb_spec : forall x y, reflect (x = y) (key_eqb x y);
    key_value : K -> value }.

#[export] Instance string_Key : Key string :=
  {| key_eqb := String.eqb; key_eqb_spec := String.eqb_spec; key_value := VStr |}.

#[export] Instance Z_Key : Key Z :=
  {| key_eqb := Z.eqb; key_eqb_spec := Z.eqb_spec; key_value := VInt |}.

Section Dict.
Context {K : Type} `{Key K} {V : Type}.

Definition dict := list (K * V).

Fixpoint dict_get (k : K) (d : dict) : option V :=
  match d with
  | [] => None
  | (k', v) :: d' => if key_eqb k k' then Some v else dict_get k d'
  end.

(** [d[k]] *)
Definition getitem (k : K) (d : dict) : result V :=
  match dict_get k d with
  | Some v => Ok v
  | None => Err (KeyError (key_value k))
  end.

(** [k in d] *)
Definition dict_mem (k : K) (d : dict) : bool :=
  match dict_get k d with Some _ => true | None => false end.

(** [d[k] = v]: an existing key keeps its position, a new one goes last. *)
Fixpoint dict_set (k : K) (v : V) (d : dict) : dict :=
  match d with
  | [] => [(k, v)]
  | (k', v') :: d' =>
      if key_eqb k k' then (k', v) :: d' else (k', v') :: dict_set k v d'
  end.

(** [{**a, **b}] *)
Definition dict_merge (a b : dict) : dict :=
  fold_left (fun acc kv => dict_set (fst kv) (snd kv) acc) b a.

Definition keys (d : dict) : list K := map fst d.
End Dict.

Arguments dict : clear implicits.

Definition json := dict string value.

(** ** Numbers *)

Definition Qltb (x y : Q) : bool := negb (Qle_bool y x).

(** Python's [min(a, b)]: [b] when [b < a], else [a]. *)
Definition py_min (a b : Q) : Q := if Qltb b a then b else a.

Definition QUALITYDEFINITION_MIN_MAX : Q := 1998.
Definition QUALITYDEFINITION_PREFERRED_MAX : Q := 1999.
Definition QUALITYDEFINITION_MAX : Q := 2000.

(** ** [QualityDefinition] *)

Module QualityDefinition.

Record t : Type := Build
  { title : option string;
    min : Q;
    preferred : Q;
    max : option Q }.

(** [validate_max(cls, value, info)]; [data] is [info.data] restricted to
    the numeric fields validated so far.  The difference [quality_max -
    quality_min] is exact here and rounded to the nearest float in Python:
    the two agree on the test against 1 unless the exact difference lies
    strictly between [1 - 2^-53] and 1. *)
Definition validate_max (value : option Q) (data : dict string Q) : result (option Q) :=
  quality_min <- getitem "min" data ;;
  let '(value', quality_max) :=
    match value with
    | Some v =>
        let quality_max := py_min v QUALITYDEFINITION_MAX in
        if Qle_bool QUALITYDEFINITION_MAX quality_max
        then (None, quality_max)
        else (value, quality_max)
    | None => (value, QUALITYDEFINITION_MAX)
    end in
  if Qltb (quality_max - quality_min) 1
  then Err (ValueError quality_max quality_min)
  else Ok value'.

(** pydantic's reading of a [float]: integers are converted. *)
Definition to_float (v : value) : option Q :=
  match v with
  | VInt z => Some (inject_Z z)
  | VFloat q => Some q
  | _ => None
  end.

(** The bounds of [Field(ge=..., le=...)]. *)
Definition check_range (field : string) (ge le : option Q) (q : Q)
  : field_error + Q :=
  if match ge with Some lo => Qltb q lo | None => false end
  then inl (greater_than_equal field
              (match ge with Some lo => lo | None => 0 end))
  else if match le with Some hi => Qltb hi q | None => false end
       then inl (less_than_equal field
                   (match le with Some hi => hi | None => 0 end))
       else inr q.

(** pydantic's check of a [float] field with [Field(ge=..., le=...)]. *)
Definition check_float (field : string) (ge le : option Q) (v : value)
  : field_error + Q :=
  match to_float v with
  | None => inl (float_type field)
  | Some q => check_range field ge le q
  end.

(** pydantic's check of an [Optional[str]] field. *)
Definition check_title (v : value) : field_error + option string :=
  match v with
  | VNone => inr None
  | VStr s => inr (Some s)
  | _ => inl (string_type "title")
  end.

Definition errors_of {A : Type} (r : field_error + A) : list field_error :=
  match r with inl e => [e] | inr _ => [] end.

Definition data_of (field : string) (r : field_error + Q) : dict string Q :=
  match r with inl _ => [] | inr q => [(field, q)] end.

(** Running the [max] field: the [Optional[Annotated[float, Field(ge=1,
    le=QUALITYDEFINITION_MAX)]]] check, then the field validator on what
    passed.  A [ValueError] of the validator becomes an entry of the
    validation error; any other exception leaves the constructor as it is. *)
Definition check_max (v : value) (data : dict string Q)
  : result (field_error + option Q) :=
  let inner :=
    match v with
    | VNone => inr None
    | _ =>
        match check_float "max" (Some 1) (Some QUALITYDEFINITION_MAX) v with
        | inl e => inl e
        | inr q => inr (Some q)
        end
    end in
  match inner with
  | inl e => Ok (inl e)
  | inr value =>
      match validate_max value data with
      | Ok value' => Ok (inr value')
      | Err (ValueError quality_max quality_min) =>
          Ok (inl (value_error "max" quality_max quality_min))
      | Err e => Err e
      end
  end.

(** [QualityDefinition(title=..., min=..., preferred=..., max=...)].
    Fields are validated in declaration order (title, min, preferred, max);
    the second declaration of [preferred] replaces the first, so its only
    bound is [ge=0].  Errors of all fields are collected. *)
Definition new (title_v min_v preferred_v max_v : value) : result t :=
  let r_title := check_title title_v in
  let r_min := check_float "min" (Some 0) (Some QUALITYDEFINITION_MIN_MAX) min_v in
  let r_preferred := check_float "preferred" (Some 0) None preferred_v in
  let data := data_of "min" r_min ++ data_of "preferred" r_preferred in
  r_max <- check_max max_v data ;;
  match r_title, r_min, r_preferred, r_max with
  | inr a, inr b, inr c, inr d => Ok (Build a b c d)
  | _, _, _, _ =>
      Err (ValidationError
             (errors_of r_title ++ errors_of r_min
                ++ errors_of r_preferred ++ errors_of r_max))
  end.

Definition of_title (o : option string) : value :=
  match o with Some s => VStr s | None => VNone end.

Definition of_float (o : option Q) : value :=
  match o with Some q => VFloat q | None => VNone end.

(** The constructor on already typed arguments. *)
Definition init (title_a : option string) (min_a preferred_a : Q)
    (max_a : option Q) : result t :=
  new (of_title title_a) (VFloat min_a) (VFloat preferred_a) (of_float max_a).

End QualityDefinition.

(** ** Strings *)

Definition lower_ascii (c : ascii) : ascii :=
  let n := nat_of_ascii c in
  if (65 <=? n)%nat && (n <=? 90)%nat then ascii_of_nat (n + 32) else c.

(** [str.lower()], on ASCII letters. *)
Fixpoint lower (s : string) : string :=
  match s with
  | EmptyString => EmptyString
  | String c s' => String (lower_ascii c) (lower s')
  end.

(** [repr(s)] of a string without quotes or escapes in it; it only reaches
    the [tree] label used in log lines. *)
Definition repr (s : string) : string := ("'" ++ s ++ "'")%string.

(** ** TRaSH-Guides quality-size documents

    One file of [docs/json/sonarr/quality-size], after [json.load]:
    [{"trash_id": ..., "qualities": [{"quality": ..., "min": ...,
    "preferred": ..., "max": ...}, ...]}]. *)

Module Trash.
Record definition_json : Type :=
  { quality : string;
    min : value;
    preferred : value;
    max : value }.

Record quality_json : Type :=
  { trash_id : string;
    qualities : list definition_json }.
End Trash.

(** ** Remote maps and [get_update_remote_attrs] *)

(** One entry [(attr_name, remote_attr_name, {"encoder": ...})] of a
    [remote_map]. *)
Record remote_map_entry : Type :=
  { attr_name : string;
    remote_attr_name : string;
    encoder : option (value -> value) }.

(** Python truthiness, as used by [v or definition_name]. *)
Definition truthy (v : value) : bool :=
  match v with
  | VNone => false
  | VBool b => b
  | VInt z => negb (Z.eqb z 0)
  | VFloat q => negb (Qeq_bool q 0)
  | VStr s => negb (String.eqb s "")
  | VList l => match l with [] => false | _ => true end
  | VDict d => match d with [] => false | _ => true end
  end.

Module ConfigBase.

(** Modelled from the spec: [getattr(self, attr_name)] as the base class
    uses it on a [QualityDefinition], for the attributes a remote map can
    name. *)
Definition getattr (self : QualityDefinition.t) (attr : string) : result value :=
  if String.eqb attr "title" then Ok (QualityDefinition.of_title (QualityDefinition.title self))
  else if String.eqb attr "min" then Ok (VFloat (QualityDefinition.min self))
  else if String.eqb attr "preferred" then Ok (VFloat (QualityDefinition.preferred self))
  else if String.eqb attr "max" then Ok (QualityDefinition.of_float (QualityDefinition.max self))
  else Err (AttributeError attr).

(** Modelled from the spec: the comparison of two attribute values, Python's
    [==] on what a tier attribute can hold ([None], a string or a number). *)
Definition value_eqb (a b : value) : bool :=
  match a, b with
  | VNone, VNone => true
  | VStr x, VStr y => String.eqb x y
  | VFloat x, VFloat y => Qeq_bool x y
  | VInt x, VInt y => Z.eqb x y
  | VInt x, VFloat y => Qeq_bool (inject_Z x) y
  | VFloat x, VInt y => Qeq_bool x (inject_Z y)
  | _, _ => false
  end.

(** Modelled from the spec: the encoder of a remote map entry, the identity
    when the entry has none. *)
Definition encode (e : remote_map_entry) (v : value) : value :=
  match encoder e with
  | Some f => f v
  | None => v
  end.

(** Modelled from the spec: [get_update_remote_attrs] is inherited from the
    configuration base class ([SonarrConfigBase] of [.types]), which is not
    among the sources.  Following section 4.4: every field of the remote
    map is compared between the local and the remote tier with the field's
    comparator (for the title, the quality name stands in for an unset or
    blank title before comparing); a field that differs marks the tier as
    changed and contributes its remote-shape attribute, and only the fields
    that differ are in the returned attributes. *)
Fixpoint get_update_remote_attrs_loop (self remote : QualityDefinition.t)
    (remote_map : list remote_map_entry) (updated : bool) (remote_attrs : json)
  : result (bool * json) :=
  match remote_map with
  | [] => Ok (updated, remote_attrs)
  | e :: rest =>
      local_value <- getattr self (attr_name e) ;;
      remote_value <- getattr remote (attr_name e) ;;
      if value_eqb (encode e local_value) (encode e remote_value)
      then get_update_remote_attrs_loop self remote rest updated remote_attrs
      else get_update_remote_attrs_loop self remote rest true
             (dict_set (remote_attr_name e) (encode e local_value) remote_attrs)
  end.

(** Modelled from the spec: [self.get_update_remote_attrs(tree, remote,
    remote_map)], the loop above started with nothing changed and no
    attribute; [tree] only labels log lines. *)
Definition get_update_remote_attrs (tree : string)
    (self remote : QualityDefinition.t) (remote_map : list remote_map_entry)
  : result (bool * json) :=
  get_update_remote_attrs_loop self remote remote_map false [].

End ConfigBase.

(** ** The HTTP API *)

(** A call [api_put(secrets, f"/api/v3/qualitydefinition/{definition_id}",
    body)]. *)
Record api_put : Type :=
  { put_id : Z;
    put_body : json }.

(** ** [SonarrQualitySettingsConfig] *)

Module SonarrQualitySettingsConfig.

(** The field type [TrashID] of [trash_id] is not among the sources; the
    record takes any string. *)
Record t : Type := Build
  { trash_id : option string;
    definitions : dict string QualityDefinition.t }.

(** [bool(self.trash_id)] *)
Definition uses_trash_metadata (self : t) : bool :=
  match trash_id self with
  | None => false
  | Some s => negb (String.eqb s "")
  end.

(** The inner loop of [_render] over [quality_json["qualities"]]; the
    dictionary is updated in place, so it is returned on every path. *)
Fixpoint render_qualities (qualities : list Trash.definition_json)
    (defs : dict string QualityDefinition.t)
  : dict string QualityDefinition.t * result unit :=
  match qualities with
  | [] => (defs, Ok tt)
  | definition_json :: rest =>
      let definition_name := Trash.quality definition_json in
      if dict_mem definition_name defs
      then render_qualities rest defs
      else
        match QualityDefinition.new VNone
                (Trash.min definition_json)
                (Trash.preferred definition_json)
                (Trash.max definition_json) with
        | Ok q => render_qualities rest (dict_set definition_name q defs)
        | Err e => (defs, Err e)
        end
  end.

(** The outer loop of [_render] over the files of the directory. *)
Fixpoint render_files (self_trash_id : string) (files : list Trash.quality_json)
    (defs : dict string QualityDefinition.t)
  : dict string QualityDefinition.t * result unit :=
  match files with
  | [] => (defs, Err (ConfigTrashIDNotFoundError self_trash_id))
  | quality_json :: rest =>
      if String.eqb (lower (Trash.trash_id quality_json)) self_trash_id
      then render_qualities (Trash.qualities quality_json) defs
      else render_files self_trash_id rest defs
  end.

(** [_render(self)]; [files] is the content of the quality-size directory
    in iteration order.  Returns [self] after the call and the outcome. *)
Definition _render (self : t) (files : list Trash.quality_json)
  : t * result unit :=
  match trash_id self with
  | None => (self, Ok tt)
  | Some tid =>
      if String.eqb tid "" then (self, Ok tt)
      else
        let '(defs, r) := render_files tid files (definitions self) in
        (Build (trash_id self) defs, r)
  end.

(** [definition_json["quality"]["name"]]; quality names are strings
    ([definition_ids: Dict[str, int]]). *)
Definition quality_name (definition_json : json) : result string :=
  quality <- getitem "quality" definition_json ;;
  match quality with
  | VDict q =>
      name <- getitem "name" q ;;
      match name with
      | VStr s => Ok s
      | _ => Err TypeError
      end
  | _ => Err TypeError
  end.

(** [definition_json["id"]]; ids are integers
    ([definition_ids: Dict[str, int]]). *)
Definition definition_id_of (definition_json : json) : result Z :=
  v <- getitem "id" definition_json ;;
  match v with
  | VInt z => Ok z
  | _ => Err TypeError
  end.

(** [definition_json["title"] if definition_json["title"] != name else
    None] *)
Definition title_of_json (name : string) (title_v : value) : value :=
  match title_v with
  | VStr s => if String.eqb s name then VNone else title_v
  | _ => title_v
  end.

(** [definition_json.get("maxSize", None)] *)
Definition max_of_json (definition_json : json) : value :=
  match dict_get "maxSize" definition_json with
  | Some v => v
  | None => VNone
  end.

(** One item of the dict comprehension of [from_remote]. *)
Definition definition_of_json (definition_json : json)
  : result (string * QualityDefinition.t) :=
  name <- quality_name definition_json ;;
  title_v <- getitem "title" definition_json ;;
  min_v <- getitem "minSize" definition_json ;;
  preferred_v <- getitem "preferredSize" definition_json ;;
  q <- QualityDefinition.new (title_of_json name title_v) min_v preferred_v
         (max_of_json definition_json) ;;
  Ok (name, q).

Fixpoint from_remote_definitions (api_get : list json)
    (acc : dict string QualityDefinition.t)
  : result (dict string QualityDefinition.t) :=
  match api_get with
  | [] => Ok acc
  | definition_json :: rest =>
      '(name, q) <- definition_of_json definition_json ;;
      from_remote_definitions rest (dict_set name q acc)
  end.

(** [from_remote(cls, secrets)]; [api_get] is the response of
    [GET /api/v3/qualitydefinition]. *)
Definition from_remote (api_get : list json) : result t :=
  defs <- from_remote_definitions api_get [] ;;
  Ok (Build None defs).

(** The [remote_map] literal of [update_remote]. *)
Definition remote_map (definition_name : string) : list remote_map_entry :=
  [ {| attr_name := "title"; remote_attr_name := "title";
       encoder := Some (fun v => if truthy v then v else VStr definition_name) |};
    {| attr_name := "min"; remote_attr_name := "minSize"; encoder := None |};
    {| attr_name := "preferred"; remote_attr_name := "preferredSize";
       encoder := None |};
    {| attr_name := "max"; remote_attr_name := "maxSize"; encoder := None |} ].

(** [remote_definitions_json]: the records of the response by id. *)
Fixpoint remote_definitions_json_of (api_get : list json) (acc : dict Z json)
  : result (dict Z json) :=
  match api_get with
  | [] => Ok acc
  | definition_json :: rest =>
      definition_id <- definition_id_of definition_json ;;
      remote_definitions_json_of rest (dict_set definition_id definition_json acc)
  end.

(** [definition_ids]: the id of each quality name. *)
Fixpoint definition_ids_of (items : list (Z * json)) (acc : dict string Z)
  : result (dict string Z) :=
  match items with
  | [] => Ok acc
  | (definition_id, definition_json) :: rest =>
      name <- quality_name definition_json ;;
      definition_ids_of rest (dict_set name definition_id acc)
  end.

Section UpdateRemote.

(** The inherited method, see [ConfigBase.get_update_remote_attrs]. *)
Variable get_update_remote_attrs :
  string -> QualityDefinition.t -> QualityDefinition.t ->
  list remote_map_entry -> result (bool * json).

(** The [for] loop of [update_remote] over [self.definitions.items()]:
    the calls to [api_put] made so far, in order, and the outcome. *)
Fixpoint update_definitions (tree : string) (remote : t)
    (remote_definitions_json : dict Z json) (definition_ids : dict string Z)
    (items : list (string * QualityDefinition.t)) (changed : bool)
  : list api_put * result bool :=
  match items with
  | [] => ([], Ok changed)
  | (definition_name, local_definition) :: rest =>
      match getitem definition_name (definitions remote) with
      | Err e => ([], Err e)
      | Ok remote_definition =>
          match get_update_remote_attrs
                  (tree ++ "[" ++ repr definition_name ++ "]")%string
                  local_definition remote_definition
                  (remote_map definition_name) with
          | Err e => ([], Err e)
          | Ok (updated, remote_attrs) =>
              if updated then
                match getitem definition_name definition_ids with
                | Err e => ([], Err e)
                | Ok definition_id =>
                    match getitem definition_id remote_definitions_json with
                    | Err e => ([], Err e)
                    | Ok record =>
                        let '(puts, r) :=
                          update_definitions tree remote remote_definitions_json
                            definition_ids rest true in
                        ({| put_id := definition_id;
                            put_body := dict_merge record remote_attrs |} :: puts,
                         r)
                    end
                end
              else
                update_definitions tree remote remote_definitions_json
                  definition_ids rest changed
          end
      end
  end.

(** [update_remote(self, tree, secrets, remote)]; [api_get] is the
    response of [GET /api/v3/qualitydefinition]. *)
Definition update_remote (self : t) (tree : string) (api_get : list json)
    (remote : t) : list api_put * result bool :=
  match remote_definitions_json_of api_get [] with
  | Err e => ([], Err e)
  | Ok remote_definitions_json =>
      match definition_ids_of remote_definitions_json [] with
      | Err e => ([], Err e)
      | Ok definition_ids =>
          update_definitions tree remote remote_definitions_json
            definition_ids (definitions self) false
      end
  end.

End UpdateRemote.

End SonarrQualitySettingsConfig.

(** ** The server and a synchronisation run *)

(** Modelled from the spec: the server behind the HTTP API is not part of the
    sources.  Following section 6, a [PUT] by record id stores the body sent
    as the record of that id, and a later [GET] returns the stored records. *)
Definition server_put (p : api_put) (records : list json) : list json :=
  map (fun record =>
         match SonarrQualitySettingsConfig.definition_id_of record with
         | Ok z => if Z.eqb z (put_id p) then put_body p else record
         | Err _ => record
         end) records.

(** Modelled from the spec: the server after a series of [PUT]s, applied in
    the order they were made. *)
Definition server_puts (puts : list api_put) (records : list json) : list json :=
  fold_left (fun rs p => server_put p rs) puts records.

(** Modelled from the spec: the caller of [from_remote] and [update_remote]
    is the configuration framework, which is not part of the sources.
    Following section 3, one run diffs the local profile against a freshly
    fetched remote snapshot: [records] is what the server holds, read by both
    [from_remote] and [update_remote]; the calls made and the outcome. *)
Definition run (self : SonarrQualitySettingsConfig.t) (tree : string)
    (records : list json) : list api_put * result bool :=
  match SonarrQualitySettingsConfig.from_remote records with
  | Err e => ([], Err e)
  | Ok remote =>
      SonarrQualitySettingsConfig.update_remote
        ConfigBase.get_update_remote_attrs self tree records remote
  end.


(** ** Specification-level notions *)

(** The effective ceiling of section 4.1: [max] clamped to the domain ceiling
    when present, the domain ceiling when unset. *)
Definition effective_ceiling (max_a : option Q) : Q :=
  match max_a with
  | Some m => if Qle_bool m 2000 then m else 2000
  | None => 2000
  end.

(** The per-field ranges of the source: [Field(ge=0, le=1998)] for [min],
    [Field(ge=0)] for [preferred], [Field(ge=1, le=2000)] for a present
    [max]. *)
Definition min_in_range (q : Q) : Prop := 0 <= q /\ q <= 1998.
Definition preferred_in_range (q : Q) : Prop := 0 <= q.
Definition max_in_range (o : option Q) : Prop :=
  match o with
  | Some m => 1 <= m /\ m <= 2000
  | None => True
  end.

(** The largest float below 1, [1 - 2^-53].  A difference of two floats
    that is at most this number is still below 1 after rounding, and one
    that is at least 1 is still at least 1. *)
Definition rounding_margin : Q := 1 - (1 # 9007199254740992).


(** The document [_render] selects: the first one whose profile id, lowered,
    is the configured id. *)
Definition matches (tid : string) (doc : Trash.quality_json) : bool :=
  String.eqb (lower (Trash.trash_id doc)) tid.

Definition named (name : string) (e : Trash.definition_json) : bool :=
  String.eqb (Trash.quality e) name.

(** The tier built from an entry of a document, with no title. *)
Definition default_of (e : Trash.definition_json) : result QualityDefinition.t :=
  QualityDefinition.new VNone (Trash.min e) (Trash.preferred e) (Trash.max e).

(** A record of the response that carries an integer id and a quality
    name. *)
Definition well_formed (definition_json : json) : Prop :=
  (exists id, SonarrQualitySettingsConfig.definition_id_of definition_json = Ok id)
  /\ (exists name, SonarrQualitySettingsConfig.quality_name definition_json = Ok name).

(** ** Field-by-field comparison of two tiers (section 4.4)

    The title a tier displays: the quality name stands in for an unset or
    blank title. *)
Definition display_title (name : string) (title : option string) : string :=
  match title with
  | Some s => if String.eqb s "" then name else s
  | None => name
  end.

Definition option_Qeq (a b : option Q) : Prop :=
  match a, b with
  | Some x, Some y => x == y
  | None, None => True
  | _, _ => False
  end.

Definition option_Qeq_bool (a b : option Q) : bool :=
  match a, b with
  | Some x, Some y => Qeq_bool x y
  | None, None => true
  | _, _ => false
  end.

(** Two tiers of quality [name] are equal field by field. *)
Definition tier_equal (name : string) (l r : QualityDefinition.t) : Prop :=
  display_title name (QualityDefinition.title l)
  = display_title name (QualityDefinition.title r)
  /\ QualityDefinition.min l == QualityDefinition.min r
  /\ QualityDefinition.preferred l == QualityDefinition.preferred r
  /\ option_Qeq (QualityDefinition.max l) (QualityDefinition.max r).

Definition title_differs (name : string) (l r : QualityDefinition.t) : bool :=
  negb (String.eqb (display_title name (QualityDefinition.title l))
                   (display_title name (QualityDefinition.title r))).

Definition min_differs (l r : QualityDefinition.t) : bool :=
  negb (Qeq_bool (QualityDefinition.min l) (QualityDefinition.min r)).

Definition preferred_differs (l r : QualityDefinition.t) : bool :=
  negb (Qeq_bool (QualityDefinition.preferred l) (QualityDefinition.preferred r)).

Definition max_differs (l r : QualityDefinition.t) : bool :=
  negb (option_Qeq_bool (QualityDefinition.max l) (QualityDefinition.max r)).

Definition tier_differs (name : string) (l r : QualityDefinition.t) : bool :=
  title_differs name l r || min_differs l r || preferred_differs l r
  || max_differs l r.

(** The remote-shape attributes of the fields that differ, and only those. *)
Definition changed_attrs (name : string) (l r : QualityDefinition.t) : json :=
  (if title_differs name l r
   then [("title", VStr (display_title name (QualityDefinition.title l)))]
   else [])
  ++ (if min_differs l r then [("minSize", VFloat (QualityDefinition.min l))] else [])
  ++ (if preferred_differs l r
      then [("preferredSize", VFloat (QualityDefinition.preferred l))]
      else [])
  ++ (if max_differs l r
      then [("maxSize", QualityDefinition.of_float (QualityDefinition.max l))]
      else []).

(** A local entry whose tier differs from the remote tier of the same name. *)
Definition changed_entry (remote : SonarrQualitySettingsConfig.t)
    (item : string * QualityDefinition.t) : bool :=
  match dict_get (fst item) (SonarrQualitySettingsConfig.definitions remote) with
  | Some r => tier_differs (fst item) (snd item) r
  | None => false
  end.

(** The quality name a call to [api_put] is about. *)
Definition put_name (p : api_put) : result string :=
  SonarrQualitySettingsConfig.quality_name (put_body p).

(** The call [p] is the update of the local entry [item]: it goes to the id
    of the record of the response that carries the entry's quality name, and
    its body is that record with the changed attributes merged in. *)
Definition put_for (remote : SonarrQualitySettingsConfig.t) (api_get : list json)
    (p : api_put) (item : string * QualityDefinition.t) : Prop :=
  exists r record,
    dict_get (fst item) (SonarrQualitySettingsConfig.definitions remote) = Some r
    /\ In record api_get
    /\ SonarrQualitySettingsConfig.definition_id_of record = Ok (put_id p)
    /\ SonarrQualitySettingsConfig.quality_name record = Ok (fst item)
    /\ put_body p = dict_merge record (changed_attrs (fst item) (snd item) r).

(** A tier the constructor returned. *)
Definition constructed (t : QualityDefinition.t) : Prop :=
  exists title_v min_v preferred_v max_v,
    QualityDefinition.new title_v min_v preferred_v max_v = Ok t.

(** The record of the response that speaks for a quality name: the last one
    carrying it, as later items of a dict comprehension replace earlier
    ones. *)
Fixpoint last_named (name : string) (records : list json) : option json :=
  match records with
  | [] => None
  | d :: rest =>
      match last_named name rest with
      | Some d' => Some d'
      | None =>
          match SonarrQualitySettingsConfig.quality_name d with
          | Ok n => if String.eqb n name then Some d else None
          | Err _ => None
          end
      end
  end.

(** A record of the server after a series of updates with distinct ids. *)
Definition server_after (puts : list api_put) (d : json) : json :=
  match SonarrQualitySettingsConfig.definition_id_of d with
  | Ok z =>
      match find (fun p => Z.eqb (put_id p) z) puts with
      | Some p => put_body p
      | None => d
      end
  | Err _ => d
  end.

(** [put_for], naming the record: it is the one that speaks for the quality
    name, and the remote tier compared is the tier read from it. *)
Definition put_for_last (remote : SonarrQualitySettingsConfig.t) (records : list json)
    (p : api_put) (item : string * QualityDefinition.t) : Prop :=
  exists r d,
    dict_get (fst item) (SonarrQualitySettingsConfig.definitions remote) = Some r
    /\ last_named (fst item) records = Some d
    /\ SonarrQualitySettingsConfig.definition_id_of d = Ok (put_id p)
    /\ SonarrQualitySettingsConfig.definition_of_json d = Ok (fst item, r)
    /\ put_body p = dict_merge d (changed_attrs (fst item) (snd item) r).

(** A local entry [get_update_remote_attrs] reports as updated against the
    remote tier of its name. *)
Definition updated_entry
    (get_update_remote_attrs :
       string -> QualityDefinition.t -> QualityDefinition.t ->
       list remote_map_entry -> result (bool * json))
    (tree : string) (remote : SonarrQualitySettingsConfig.t)
    (item : string * QualityDefinition.t) : bool :=
  match dict_get (fst item) (SonarrQualitySettingsConfig.definitions remote) with
  | Some rd =>
      match get_update_remote_attrs (tree ++ "[" ++ repr (fst item) ++ "]")%string
              (snd item) rd (SonarrQualitySettingsConfig.remote_map (fst item)) with
      | Ok (true, _) => true
      | _ => false
      end
  | None => false
  end.

(** The call [p] is the one made for the local entry [item]: it goes to the
    id of the record of the response that carries the entry's quality name,
    with that record and the attributes returned for the entry as body. *)
Definition put_of
    (get_update_remote_attrs :
       string -> QualityDefinition.t -> QualityDefinition.t ->
       list remote_map_entry -> result (bool * json))
    (tree : string) (remote : SonarrQualitySettingsConfig.t) (api_get : list json)
    (p : api_put) (item : string * QualityDefinition.t) : Prop :=
  exists rd attrs record,
    dict_get (fst item) (SonarrQualitySettingsConfig.definitions remote) = Some rd
    /\ get_update_remote_attrs (tree ++ "[" ++ repr (fst item) ++ "]")%string
         (snd item) rd (SonarrQualitySettingsConfig.remote_map (fst item))
       = Ok (true, attrs)
    /\ In record api_get
    /\ SonarrQualitySettingsConfig.definition_id_of record = Ok (put_id p)
    /\ SonarrQualitySettingsConfig.quality_name record = Ok (fst item)
    /\ put_body p = dict_merge record attrs.

(** ** A running example

    A server with two quality definitions and a local profile that manages
    the first one and asks for another [minSize]. *)

Definition example_X : json :=
  [("id", VInt 7); ("quality", VDict [("id", VInt 3); ("name", VStr "X")]);
   ("title", VStr "X"); ("weight", VInt 2);
   ("minSize", VInt 1); ("preferredSize", VInt 5); ("maxSize", VInt 100)].

Definition example_Y : json :=
  [("id", VInt 8); ("quality", VDict [("id", VInt 4); ("name", VStr "Y")]);
   ("title", VStr "Why"); ("weight", VInt 3);
   ("minSize", VInt 1); ("preferredSize", VInt 5)].

Definition example_server : list json := [example_X; example_Y].

Definition example_local : SonarrQualitySettingsConfig.t :=
  SonarrQualitySettingsConfig.Build None
    [("X", QualityDefinition.Build None 2 5 (Some 100))].

Definition example_remote : SonarrQualitySettingsConfig.t :=
  SonarrQualitySettingsConfig.Build None
    [("X", QualityDefinition.Build None 1 5 (Some 100));
     ("Y", QualityDefinition.Build (Some "Why") 1 5 None)].

Definition example_put : api_put :=
  {| put_id := 7;
     put_body :=
       [("id", VInt 7); ("quality", VDict [("id", VInt 3); ("name", VStr "X")]);
        ("title", VStr "X"); ("weight", VInt 2);
        ("minSize", VFloat 2); ("preferredSize", VInt 5); ("maxSize", VInt 100)] |}.

(** A local profile with a quality the server does not have. *)
Definition example_unknown : SonarrQualitySettingsConfig.t :=
  SonarrQualitySettingsConfig.Build None
    [("X", QualityDefinition.Build None 2 5 (Some 100));
     ("Z", QualityDefinition.Build None 2 5 (Some 100))].

(** A local profile that renames the second quality and bounds it. *)
Definition example_rename : SonarrQualitySettingsConfig.t :=
  SonarrQualitySettingsConfig.Build None
    [("Y", QualityDefinition.Build (Some "") 1 5 (Some 300))].

(** A profile that loads defaults, and the directory it loads them from. *)
Definition example_override : QualityDefinition.t :=
  QualityDefinition.Build (Some "Mine") 2 5 (Some 100).

Definition example_profile : SonarrQualitySettingsConfig.t :=
  SonarrQualitySettingsConfig.Build (Some "abc") [("A", example_override)].

Definition example_document : Trash.quality_json :=
  {| Trash.trash_id := "ABC";
     Trash.qualities :=
       [ {| Trash.quality := "A"; Trash.min := VInt 1; Trash.preferred := VInt 2;
            Trash.max := VInt 3 |};
         {| Trash.quality := "B"; Trash.min := VInt 1; Trash.preferred := VInt 2;
            Trash.max := VFloat (7 # 2) |} ] |}.

Definition example_rendered : SonarrQualitySettingsConfig.t :=
  SonarrQualitySettingsConfig.Build (Some "abc")
    [("A", example_override);
     ("B", QualityDefinition.Build None 1 2 (Some (7 # 2)))].

(** A profile whose reference matches no document. *)
Definition example_unmatched : SonarrQualitySettingsConfig.t :=
  SonarrQualitySettingsConfig.Build (Some "0ff") [("A", example_override)].

(** * Properties *)

(** ** The model at work *)

Example init_ok :
  QualityDefinition.init None 2 5 (Some 100)
  = Ok (QualityDefinition.Build None 2 5 (Some 100)).
Proof. reflexivity. Qed.

Example init_ceiling :
  QualityDefinition.init None 2 5 (Some 2000)
  = Ok (QualityDefinition.Build None 2 5 None).
Proof. reflexivity. Qed.

Example init_min_400 :
  QualityDefinition.init None 400 5 None
  = Ok (QualityDefinition.Build None 400 5 None).
Proof. reflexivity. Qed.

Example init_gap :
  QualityDefinition.init None (3#2) 5 (Some 2)
  = Err (ValidationError [value_error "max" 2 (3#2)]).
Proof. reflexivity. Qed.

Example init_min_low :
  QualityDefinition.init None (-1) 5 None = Err (KeyError (VStr "min")).
Proof. reflexivity. Qed.

Example init_min_low_max_low :
  QualityDefinition.init None (-1) 5 (Some (1#2))
  = Err (ValidationError [greater_than_equal "min" 0; greater_than_equal "max" 1]).
Proof. reflexivity. Qed.

Example from_remote_example :
  SonarrQualitySettingsConfig.from_remote example_server = Ok example_remote.
Proof. reflexivity. Qed.

Example run_example :
  run example_local "quality" example_server = ([example_put], Ok true).
Proof. reflexivity. Qed.

Example render_example :
  SonarrQualitySettingsConfig._render example_profile [example_document]
  = (example_rendered, Ok tt).
Proof. reflexivity. Qed.

Example run_unknown_example :
  run example_unknown "quality" example_server
  = ([example_put], Err (KeyError (VStr "Z"))).
Proof. reflexivity. Qed.

Example run_rename_example :
  run example_rename "quality" example_server
  = ([ {| put_id := 8;
          put_body :=
            [("id", VInt 8); ("quality", VDict [("id", VInt 4); ("name", VStr "Y")]);
             ("title", VStr "Y"); ("weight", VInt 3);
             ("minSize", VInt 1); ("preferredSize", VInt 5);
             ("maxSize", VFloat 300)] |} ],
     Ok true).
Proof. reflexivity. Qed.

Example run_rename_twice_example :
  run example_rename "quality"
    (server_puts (fst (run example_rename "quality" example_server)) example_server)
  = ([], Ok false).
Proof. reflexivity. Qed.

(** ** Comparisons *)

Lemma Qltb_true (x y : Q) : Qltb x y = true <-> x < y.
Proof.
  unfold Qltb. destruct (Qle_bool y x) eqn:E; simpl.
  - apply Qle_bool_iff in E. split; [discriminate | intro; lra].
  - split; [intros _ | reflexivity].
    apply Qnot_le_lt. intro Hle. apply Qle_bool_iff in Hle. congruence.
Qed.

Lemma Qltb_false (x y : Q) : Qltb x y = false <-> y <= x.
Proof.
  unfold Qltb. destruct (Qle_bool y x) eqn:E; simpl.
  - apply Qle_bool_iff in E. tauto.
  - split; [discriminate | intro Hle]. apply Qle_bool_iff in Hle. congruence.
Qed.

Lemma Qle_bool_false (x y : Q) : Qle_bool x y = false <-> y < x.
Proof.
  split; intro Hxy.
  - apply Qnot_le_lt. intro Hle. apply Qle_bool_iff in Hle. congruence.
  - destruct (Qle_bool x y) eqn:E; [| reflexivity].
    apply Qle_bool_iff in E. lra.
Qed.

Ltac qbool :=
  repeat match goal with
    | H : Qltb _ _ = true |- _ => apply Qltb_true in H
    | H : Qltb _ _ = false |- _ => apply Qltb_false in H
    | H : Qle_bool _ _ = true |- _ => apply Qle_bool_iff in H
    | H : Qle_bool _ _ = false |- _ => apply Qle_bool_false in H
    end.

Lemma py_min_ceiling (v : Q) :
  py_min v 2000 = effective_ceiling (Some v).
Proof.
  unfold py_min, effective_ceiling.
  destruct (Qltb 2000 v) eqn:E1, (Qle_bool v 2000) eqn:E2;
    try reflexivity; qbool; lra.
Qed.

(** ** The validator *)

(** [validate_max] on a validated [min]: it raises its [ValueError] exactly
    when the gap between the effective ceiling and [min] is below 1. *)
Lemma validate_max_spec (value : option Q) (data : dict string Q) (quality_min : Q) :
  dict_get "min" data = Some quality_min ->
  (effective_ceiling value - quality_min < 1 ->
   QualityDefinition.validate_max value data = Err (ValueError (effective_ceiling value) quality_min))
  /\ (1 <= effective_ceiling value - quality_min ->
      QualityDefinition.validate_max value data
      = Ok (match value with
            | Some v => if Qle_bool 2000 v then None else Some v
            | None => None
            end)).
Proof.
  intros Hmin. unfold QualityDefinition.validate_max, getitem. rewrite Hmin. simpl.
  destruct value as [v |].
  - unfold QUALITYDEFINITION_MAX. rewrite py_min_ceiling.
    unfold effective_ceiling.
    destruct (Qle_bool v 2000) eqn:Ev.
    + destruct (Qle_bool 2000 v) eqn:Ev'; split; intros Hgap;
        destruct (Qltb (v - quality_min) 1) eqn:Eg; qbool;
        try reflexivity; lra.
    + assert (Qle_bool 2000 2000 = true) as -> by reflexivity.
      assert (Qle_bool 2000 v = true) as ->
          by (apply Qle_bool_iff; qbool; lra).
      split; intros Hgap;
        destruct (Qltb (2000 - quality_min) 1) eqn:Eg; qbool;
        try reflexivity; lra.
  - unfold effective_ceiling, QUALITYDEFINITION_MAX.
    split; intros Hgap;
      destruct (Qltb (2000 - quality_min) 1) eqn:Eg; qbool;
      try reflexivity; lra.
Qed.

Lemma check_float_in (field : string) (lo hi q : Q) :
  lo <= q -> q <= hi ->
  QualityDefinition.check_float field (Some lo) (Some hi) (VFloat q) = inr q.
Proof.
  intros Hlo Hhi. unfold QualityDefinition.check_float, QualityDefinition.check_range.
  cbn [QualityDefinition.to_float].
  destruct (Qltb q lo) eqn:E1; qbool; [lra |].
  destruct (Qltb hi q) eqn:E2; qbool; [lra | reflexivity].
Qed.

Lemma check_float_ge (field : string) (lo q : Q) :
  lo <= q ->
  QualityDefinition.check_float field (Some lo) None (VFloat q) = inr q.
Proof.
  intros Hlo. unfold QualityDefinition.check_float, QualityDefinition.check_range.
  cbn [QualityDefinition.to_float].
  destruct (Qltb q lo) eqn:E1; qbool; [lra | reflexivity].
Qed.

Lemma check_float_out (field : string) (lo : Q) (hi : option Q) (q : Q) :
  q < lo \/ (exists h, hi = Some h /\ h < q) ->
  exists e, QualityDefinition.check_float field (Some lo) hi (VFloat q) = inl e.
Proof.
  intros Hout. unfold QualityDefinition.check_float, QualityDefinition.check_range.
  cbn [QualityDefinition.to_float].
  destruct (Qltb q lo) eqn:E1; [eauto |].
  destruct Hout as [Hlt | (h & -> & Hgt)]; qbool; [lra |].
  destruct (Qltb h q) eqn:E2; [eauto |]. qbool. lra.
Qed.

(** On arguments inside the field ranges the constructor is the validator:
    its [ValueError] is the only possible failure. *)
Lemma init_in_range (title_a : option string) (min_a preferred_a : Q) (max_a : option Q) :
  min_in_range min_a -> preferred_in_range preferred_a -> max_in_range max_a ->
  QualityDefinition.init title_a min_a preferred_a max_a
  = match QualityDefinition.validate_max max_a
            [("min", min_a); ("preferred", preferred_a)] with
    | Ok v => Ok (QualityDefinition.Build title_a min_a preferred_a v)
    | Err (ValueError a b) => Err (ValidationError [value_error "max" a b])
    | Err e => Err e
    end.
Proof.
  intros [Hm0 Hm1] Hp Hmax.
  unfold QualityDefinition.init, QualityDefinition.new.
  unfold QUALITYDEFINITION_MIN_MAX.
  rewrite (check_float_in "min" _ _ _ Hm0 Hm1), (check_float_ge "preferred" _ _ Hp).
  assert (QualityDefinition.check_title (QualityDefinition.of_title title_a)
          = inr title_a) as -> by (destruct title_a; reflexivity).
  cbn [QualityDefinition.data_of app].
  unfold QualityDefinition.check_max.
  destruct max_a as [m |]; cbn [QualityDefinition.of_float QualityDefinition.to_float].
  - destruct Hmax as [H1 H2]. unfold QUALITYDEFINITION_MAX.
    rewrite (check_float_in "max" _ _ _ H1 H2).
    destruct (QualityDefinition.validate_max (Some m) _) as [v | []];
      reflexivity.
  - destruct (QualityDefinition.validate_max None _) as [v | []];
      reflexivity.
Qed.

Lemma init_not_in_range (title_a : option string) (min_a preferred_a : Q) (max_a : option Q) :
  ~ (min_in_range min_a /\ preferred_in_range preferred_a /\ max_in_range max_a) ->
  (exists es, es <> [] /\
     QualityDefinition.init title_a min_a preferred_a max_a = Err (ValidationError es))
  \/ QualityDefinition.init title_a min_a preferred_a max_a = Err (KeyError (VStr "min")).
Proof.
  intros Hout.
  unfold QualityDefinition.init, QualityDefinition.new, QualityDefinition.check_max,
    QualityDefinition.validate_max, QualityDefinition.check_float,
    QualityDefinition.check_range, getitem,
    QUALITYDEFINITION_MIN_MAX, QUALITYDEFINITION_MAX.
  cbn [QualityDefinition.to_float].
  assert (QualityDefinition.check_title (QualityDefinition.of_title title_a)
          = inr title_a) as -> by (destruct title_a; reflexivity).
  destruct (Qltb min_a 0) eqn:E1; [| destruct (Qltb 1998 min_a) eqn:E2];
    (destruct (Qltb preferred_a 0) eqn:E3);
    (destruct max_a as [m |]; cbn [QualityDefinition.of_float QualityDefinition.to_float];
     [destruct (Qltb m 1) eqn:E4; [| destruct (Qltb 2000 m) eqn:E5] |]);
    cbn;
    try (right; reflexivity);
    try (left; eexists; split; [| reflexivity]; discriminate).
  all: try (destruct (Qle_bool 2000 (py_min m 2000));
            destruct (Qltb (py_min m 2000 - min_a) 1); cbn;
            try (right; reflexivity);
            try (left; eexists; split; [| reflexivity]; discriminate)).
  all: try (destruct (Qltb (2000 - min_a) 1); cbn;
            try (left; eexists; split; [| reflexivity]; discriminate)).
  all: exfalso; apply Hout; unfold min_in_range, preferred_in_range, max_in_range;
    qbool; repeat split; try lra.
Qed.





(** C6.  A tier constructed with [max] equal to the domain ceiling 2000 has
    [max] unset; a present [max] strictly below the ceiling, on otherwise
    valid arguments, is kept as given. *)
Theorem max_ceiling_normalized (title_a : option string) (min_a preferred_a m : Q) :
  min_in_range min_a -> preferred_in_range preferred_a ->
  (m == 2000 ->
   QualityDefinition.init title_a min_a preferred_a (Some m)
   = Ok (QualityDefinition.Build title_a min_a preferred_a None))
  /\ (1 <= m -> m < 2000 -> 1 <= m - min_a ->
      QualityDefinition.init title_a min_a preferred_a (Some m)
      = Ok (QualityDefinition.Build title_a min_a preferred_a (Some m))).
Proof.
  intros Hmin Hpref. split.
  - intros Hm.
    assert (max_in_range (Some m)) as Hmax by (cbn; lra).
    rewrite (init_in_range title_a _ _ _ Hmin Hpref Hmax).
    destruct (validate_max_spec (Some m) [("min", min_a); ("preferred", preferred_a)]
                min_a eq_refl) as [_ Hok].
    rewrite Hok.
    + assert (Qle_bool 2000 m = true) as -> by (apply Qle_bool_iff; lra).
      reflexivity.
    + destruct Hmin. cbn. destruct (Qle_bool m 2000); lra.
  - intros H1 H2 Hgap.
    assert (max_in_range (Some m)) as Hmax by (cbn; lra).
    rewrite (init_in_range title_a _ _ _ Hmin Hpref Hmax).
    destruct (validate_max_spec (Some m) [("min", min_a); ("preferred", preferred_a)]
                min_a eq_refl) as [_ Hok].
    rewrite Hok.
    + assert (Qle_bool 2000 m = false) as -> by (apply Qle_bool_false; lra).
      reflexivity.
    + cbn. destruct (Qle_bool m 2000) eqn:E; qbool; lra.
Qed.

Lemma max_ceiling_normalized_witness :
  QualityDefinition.init (Some "HD") 2 5 (Some 2000)
  = Ok (QualityDefinition.Build (Some "HD") 2 5 None)
  /\ QualityDefinition.init (Some "HD") 2 5 (Some 100)
     = Ok (QualityDefinition.Build (Some "HD") 2 5 (Some 100)).
Proof.
  split.
  - apply (max_ceiling_normalized (Some "HD") 2 5 2000).
    + unfold min_in_range. lra.
    + unfold preferred_in_range. lra.
    + reflexivity.
  - apply (max_ceiling_normalized (Some "HD") 2 5 100).
    + unfold min_in_range. lra.
    + unfold preferred_in_range. lra.
    + lra.
    + lra.
    + lra.
Defined.

(** C7.  The claim keeps [min] within [0, 399], as the docstring of [min]
    does; the code bounds it by [QUALITYDEFINITION_MIN_MAX = 1998] and accepts
    a [min] of 400. *)
Lemma min_above_399_accepted :
  ~ (0 <= 400 /\ 400 <= 399)
  /\ QualityDefinition.init None 400 5 None
     = Ok (QualityDefinition.Build None 400 5 None).
Proof.
  split; [lra | reflexivity].
Qed.

(** ** Dictionaries *)

Section DictFacts.
Context {K : Type} `{Key K} {V : Type}.

Lemma key_eqb_refl (k : K) : key_eqb k k = true.
Proof. destruct (key_eqb_spec k k); congruence. Qed.

Lemma key_eqb_neq (k k' : K) : k <> k' -> key_eqb k k' = false.
Proof. intros Hne. destruct (key_eqb_spec k k'); congruence. Qed.

Lemma key_eq_dec (k k' : K) : {k = k'} + {k <> k'}.
Proof. destruct (key_eqb_spec k k'); auto. Qed.

Lemma dict_get_set_eq (k : K) (v : V) (d : dict K V) :
  dict_get k (dict_set k v d) = Some v.
Proof.
  induction d as [| [k' v'] d IH]; cbn.
  - now rewrite key_eqb_refl.
  - destruct (key_eqb_spec k k') as [-> | Hne]; cbn.
    + now rewrite key_eqb_refl.
    + now rewrite (key_eqb_neq _ _ Hne).
Qed.

Lemma dict_get_set_neq (k k' : K) (v : V) (d : dict K V) :
  k <> k' -> dict_get k' (dict_set k v d) = dict_get k' d.
Proof.
  intros Hne. induction d as [| [k0 v0] d IH]; cbn.
  - rewrite key_eqb_neq; congruence.
  - destruct (key_eqb_spec k k0) as [-> | Hne0]; cbn.
    + rewrite (key_eqb_neq k' k0); congruence.
    + now rewrite IH.
Qed.

Lemma dict_get_In (k : K) (v : V) (d : dict K V) :
  dict_get k d = Some v -> In (k, v) d.
Proof.
  induction d as [| [k' v'] d IH]; cbn; [discriminate |].
  destruct (key_eqb_spec k k') as [-> | Hne].
  - intros [= ->]. now left.
  - intros Hget. right. now apply IH.
Qed.

Lemma dict_get_None (k : K) (d : dict K V) :
  dict_get k d = None <-> ~ In k (keys d).
Proof.
  induction d as [| [k' v'] d IH]; cbn; [tauto |].
  destruct (key_eqb_spec k k') as [-> | Hne].
  - split; [discriminate | intros Hn; exfalso; auto].
  - rewrite IH. cbn. split; [intros Hn [Heq | Hin]; [congruence | tauto] | tauto].
Qed.

Lemma dict_get_Some_keys (k : K) (v : V) (d : dict K V) :
  dict_get k d = Some v -> In k (keys d).
Proof.
  intros Hget. apply dict_get_In in Hget. now apply (in_map fst) in Hget.
Qed.

Lemma In_dict_get (k : K) (v : V) (d : dict K V) :
  NoDup (keys d) -> In (k, v) d -> dict_get k d = Some v.
Proof.
  induction d as [| [k' v'] d IH]; cbn; [tauto |].
  intros Hnd [[= -> ->] | Hin].
  - now rewrite key_eqb_refl.
  - inversion Hnd as [| ? ? Hnotin Hnd']; subst.
    destruct (key_eqb_spec k k') as [-> | Hne].
    + exfalso. apply Hnotin. now apply (in_map fst) in Hin.
    + now apply IH.
Qed.

Lemma keys_dict_set (k : K) (v : V) (d : dict K V) :
  keys (dict_set k v d)
  = if dict_mem k d then keys d else keys d ++ [k].
Proof.
  unfold dict_mem, keys. induction d as [| [k' v'] d IH]; cbn; [reflexivity |].
  destruct (key_eqb_spec k k') as [-> | Hne]; cbn; [reflexivity |].
  rewrite IH. now destruct (dict_get k d).
Qed.

Lemma NoDup_dict_set (k : K) (v : V) (d : dict K V) :
  NoDup (keys d) -> NoDup (keys (dict_set k v d)).
Proof.
  intros Hnd. rewrite keys_dict_set. unfold dict_mem.
  destruct (dict_get k d) eqn:E; [exact Hnd |].
  apply dict_get_None in E.
  apply (Permutation_NoDup (l := k :: keys d)).
  - apply Permutation_cons_append.
  - now constructor.
Qed.

Lemma dict_merge_get_None (k : K) (a b : dict K V) :
  dict_get k b = None -> dict_get k (dict_merge a b) = dict_get k a.
Proof.
  unfold dict_merge. revert a.
  induction b as [| [k' v'] b IH]; intros a; cbn; [reflexivity |].
  destruct (key_eqb_spec k k') as [-> | Hne]; [discriminate |].
  intros Hget. rewrite (IH _ Hget). apply dict_get_set_neq. congruence.
Qed.

Lemma dict_merge_get_Some (k : K) (v : V) (a b : dict K V) :
  NoDup (keys b) -> dict_get k b = Some v ->
  dict_get k (dict_merge a b) = Some v.
Proof.
  unfold dict_merge. revert a.
  induction b as [| [k' v'] b IH]; intros a; cbn; [discriminate |].
  intros Hnd. inversion Hnd as [| ? ? Hnotin Hnd']; subst.
  destruct (key_eqb_spec k k') as [-> | Hne].
  - intros [= ->].
    change (dict_get k' (dict_merge (dict_set k' v a) b) = Some v).
    rewrite dict_merge_get_None; [apply dict_get_set_eq |].
    now apply dict_get_None.
  - intros Hget. now apply IH.
Qed.
End DictFacts.

(** ** Loading defaults: [_render] *)

Lemma render_qualities_spec (qualities : list Trash.definition_json) :
  forall defs defs',
    SonarrQualitySettingsConfig.render_qualities qualities defs = (defs', Ok tt) ->
    (forall name q, dict_get name defs = Some q -> dict_get name defs' = Some q)
    /\ (forall name, dict_get name defs = None ->
        match find (named name) qualities with
        | Some e => exists q, default_of e = Ok q /\ dict_get name defs' = Some q
        | None => dict_get name defs' = None
        end).
Proof.
  induction qualities as [| e rest IH]; intros defs defs'; cbn.
  - intros [= <-]. split; [auto | intros name Hn; exact Hn].
  - unfold dict_mem, named.
    destruct (dict_get (Trash.quality e) defs) as [q0 |] eqn:Emem.
    + intros Hrun. destruct (IH _ _ Hrun) as [Hkeep Hnew]. split; [exact Hkeep |].
      intros name Hn.
      destruct (String.eqb_spec (Trash.quality e) name) as [Heq | Hne];
        [congruence | now apply Hnew].
    + fold (default_of e). destruct (default_of e) as [q | err] eqn:Enew;
        [| discriminate].
      intros Hrun. destruct (IH _ _ Hrun) as [Hkeep Hnew]. split.
      * intros name q' Hget. apply Hkeep.
        rewrite dict_get_set_neq; [exact Hget | congruence].
      * intros name Hn.
        destruct (String.eqb_spec (Trash.quality e) name) as [Heq | Hne].
        -- subst name. exists q. split; [exact Enew |].
           apply Hkeep, dict_get_set_eq.
        -- apply Hnew. rewrite dict_get_set_neq; assumption.
Qed.

Lemma render_qualities_keeps (qualities : list Trash.definition_json) :
  forall defs defs' r,
    SonarrQualitySettingsConfig.render_qualities qualities defs = (defs', r) ->
    forall name q, dict_get name defs = Some q -> dict_get name defs' = Some q.
Proof.
  induction qualities as [| e rest IH]; intros defs defs' r; cbn.
  - now intros [= <- <-].
  - unfold dict_mem.
    destruct (dict_get (Trash.quality e) defs) as [q0 |] eqn:Emem; [apply IH |].
    destruct (QualityDefinition.new VNone _ _ _) as [q |]; [| now intros [= <- <-]].
    intros Hrun name q' Hget. apply (IH _ _ _ Hrun).
    rewrite dict_get_set_neq; [exact Hget | congruence].
Qed.

Lemma render_files_keeps (tid : string) (files : list Trash.quality_json) :
  forall defs defs' r,
    SonarrQualitySettingsConfig.render_files tid files defs = (defs', r) ->
    forall name q, dict_get name defs = Some q -> dict_get name defs' = Some q.
Proof.
  induction files as [| f rest IH]; intros defs defs' r; cbn.
  - now intros [= <- <-].
  - destruct (String.eqb (lower (Trash.trash_id f)) tid); [| apply IH].
    apply render_qualities_keeps.
Qed.

Lemma render_qualities_total (qualities : list Trash.definition_json) :
  Forall (fun e => exists q, default_of e = Ok q) qualities ->
  forall defs, exists defs',
    SonarrQualitySettingsConfig.render_qualities qualities defs = (defs', Ok tt).
Proof.
  induction 1 as [| e rest (q & Hq) _ IH]; intros defs; cbn.
  - eauto.
  - destruct (dict_mem (Trash.quality e) defs); [apply IH |].
    fold (default_of e). rewrite Hq. apply IH.
Qed.

Lemma render_files_found (tid : string) (files : list Trash.quality_json)
    (doc : Trash.quality_json) (defs : dict string QualityDefinition.t) :
  find (matches tid) files = Some doc ->
  SonarrQualitySettingsConfig.render_files tid files defs
  = SonarrQualitySettingsConfig.render_qualities (Trash.qualities doc) defs.
Proof.
  induction files as [| f rest IH]; cbn; [discriminate |].
  unfold matches at 1. destruct (String.eqb (lower (Trash.trash_id f)) tid).
  - now intros [= ->].
  - exact IH.
Qed.

Lemma render_files_not_found (tid : string) (files : list Trash.quality_json)
    (defs : dict string QualityDefinition.t) :
  find (matches tid) files = None ->
  SonarrQualitySettingsConfig.render_files tid files defs
  = (defs, Err (ConfigTrashIDNotFoundError tid)).
Proof.
  induction files as [| f rest IH]; cbn; [reflexivity |].
  unfold matches at 1. destruct (String.eqb (lower (Trash.trash_id f)) tid).
  - discriminate.
  - exact IH.
Qed.

Lemma lower_ascii_idem (c : ascii) : lower_ascii (lower_ascii c) = lower_ascii c.
Proof.
  destruct c as [[|] [|] [|] [|] [|] [|] [|] [|]]; reflexivity.
Qed.

Lemma lower_idem (s : string) : lower (lower s) = lower s.
Proof.
  induction s as [| c s IH]; cbn; [reflexivity |].
  now rewrite lower_ascii_idem, IH.
Qed.

Lemma default_of_title (e : Trash.definition_json) (q : QualityDefinition.t) :
  default_of e = Ok q -> QualityDefinition.title q = None.
Proof.
  unfold default_of, QualityDefinition.new. cbn [QualityDefinition.check_title].
  destruct (QualityDefinition.check_max _ _) as [r_max | err]; cbn; [| discriminate].
  destruct (QualityDefinition.check_float "min" _ _ _);
    destruct (QualityDefinition.check_float "preferred" _ _ _);
    destruct r_max; try discriminate.
  now intros [= <-].
Qed.

(** C8.  Loading defaults never replaces a local entry.  When [_render]
    returns, every quality name already in [definitions] still maps to the
    tier it had, and every name that only the selected document has maps to
    the tier built from the document's [min], [preferred] and [max] with no
    title; names in neither are still absent.  It does return whenever a
    document is selected and its entries are valid tiers. *)
Theorem render_keeps_local (self : SonarrQualitySettingsConfig.t)
    (files : list Trash.quality_json) :
  (forall self',
      SonarrQualitySettingsConfig._render self files = (self', Ok tt) ->
      SonarrQualitySettingsConfig.trash_id self'
      = SonarrQualitySettingsConfig.trash_id self
      /\ (forall name q,
             dict_get name (SonarrQualitySettingsConfig.definitions self) = Some q ->
             dict_get name (SonarrQualitySettingsConfig.definitions self') = Some q)
      /\ (forall tid doc,
             SonarrQualitySettingsConfig.trash_id self = Some tid -> tid <> "" ->
             find (matches tid) files = Some doc ->
             forall name,
               dict_get name (SonarrQualitySettingsConfig.definitions self) = None ->
               match find (named name) (Trash.qualities doc) with
               | Some e =>
                   exists q, default_of e = Ok q
                             /\ QualityDefinition.title q = None
                             /\ dict_get name (SonarrQualitySettingsConfig.definitions self')
                                = Some q
               | None =>
                   dict_get name (SonarrQualitySettingsConfig.definitions self') = None
               end))
  /\ (forall tid doc,
         SonarrQualitySettingsConfig.trash_id self = Some tid -> tid <> "" ->
         find (matches tid) files = Some doc ->
         Forall (fun e => exists q, default_of e = Ok q) (Trash.qualities doc) ->
         exists self', SonarrQualitySettingsConfig._render self files = (self', Ok tt))
  /\ (forall self' r,
         SonarrQualitySettingsConfig._render self files = (self', r) ->
         forall name q,
           dict_get name (SonarrQualitySettingsConfig.definitions self) = Some q ->
           dict_get name (SonarrQualitySettingsConfig.definitions self') = Some q).
Proof.
  destruct self as [trash defs]. unfold SonarrQualitySettingsConfig._render. cbn.
  split; [| split].
  - intros self'. destruct trash as [tid |].
    + destruct (String.eqb_spec tid "") as [-> | Hne].
      * intros [= <-]. cbn. repeat split; [auto |].
        intros tid doc [= <-] Hnot. now contradiction Hnot.
      * destruct (SonarrQualitySettingsConfig.render_files tid files defs)
          as [defs' r] eqn:Erun.
        intros [= <- ->]. cbn. split; [reflexivity |].
        destruct (find (matches tid) files) as [doc |] eqn:Efind.
        -- rewrite (render_files_found _ _ _ _ Efind) in Erun.
           destruct (render_qualities_spec _ _ _ Erun) as [Hkeep Hnew].
           split; [exact Hkeep |].
           intros tid' doc' [= <-] _ Hfind name Hn.
           rewrite Efind in Hfind. injection Hfind as <-.
           specialize (Hnew name Hn).
           destruct (find (named name) (Trash.qualities doc)) as [e |];
             [| exact Hnew].
           destruct Hnew as (q & Hq & Hget). exists q.
           repeat split; [exact Hq | exact (default_of_title _ _ Hq) | exact Hget].
        -- rewrite (render_files_not_found _ _ _ Efind) in Erun. discriminate.
    + intros [= <-]. cbn. repeat split; [auto | discriminate].
  - intros tid doc [= ->] Hne Hfind Hvalid.
    destruct (String.eqb_spec tid "") as [-> | _]; [now contradiction Hne |].
    rewrite (render_files_found _ _ _ _ Hfind).
    destruct (render_qualities_total _ Hvalid defs) as [defs' ->]. eauto.
  - intros self' r. destruct trash as [tid |]; [| now intros [= <- <-]].
    destruct (String.eqb tid ""); [now intros [= <- <-] |].
    destruct (SonarrQualitySettingsConfig.render_files tid files defs)
      as [defs' r'] eqn:Erun.
    intros [= <- <-]. cbn. exact (render_files_keeps _ _ _ _ _ Erun).
Qed.

Lemma render_keeps_local_witness :
  dict_get "A" (SonarrQualitySettingsConfig.definitions example_rendered)
  = Some example_override
  /\ (exists q, default_of {| Trash.quality := "B"; Trash.min := VInt 1;
                              Trash.preferred := VInt 2;
                              Trash.max := VFloat (7 # 2) |} = Ok q
                /\ QualityDefinition.title q = None
                /\ dict_get "B" (SonarrQualitySettingsConfig.definitions example_rendered)
                   = Some q)
  /\ exists self',
      SonarrQualitySettingsConfig._render example_profile [example_document]
      = (self', Ok tt).
Proof.
  destruct (render_keeps_local example_profile [example_document])
    as (Hret & Htotal & _).
  destruct (Hret example_rendered eq_refl) as (_ & Hkeep & Hnew).
  split; [| split].
  - apply Hkeep. reflexivity.
  - apply (Hnew "abc" example_document eq_refl ltac:(discriminate) eq_refl "B" eq_refl).
  - apply (Htotal "abc" example_document eq_refl ltac:(discriminate) eq_refl).
    repeat constructor; eexists; reflexivity.
Defined.

(** C9.  A configured reference id that matches no document, compared
    without regard to case, makes [_render] fail with
    [ConfigTrashIDNotFoundError] naming the id, the definitions being left as
    they were; with no reference id configured [_render] returns at once and
    changes nothing. *)
Theorem render_unmatched_reference (self : SonarrQualitySettingsConfig.t)
    (files : list Trash.quality_json) :
  (forall tid,
      SonarrQualitySettingsConfig.trash_id self = Some tid -> tid <> "" ->
      (forall doc, In doc files -> lower (Trash.trash_id doc) <> lower tid) ->
      SonarrQualitySettingsConfig._render self files
      = (self, Err (ConfigTrashIDNotFoundError tid)))
  /\ (SonarrQualitySettingsConfig.trash_id self = None
      \/ SonarrQualitySettingsConfig.trash_id self = Some "" ->
      SonarrQualitySettingsConfig._render self files = (self, Ok tt)).
Proof.
  destruct self as [trash defs]. unfold SonarrQualitySettingsConfig._render. cbn.
  split.
  - intros tid -> Hne Hnone.
    destruct (String.eqb_spec tid "") as [-> | _]; [now contradiction Hne |].
    rewrite render_files_not_found; [reflexivity |].
    destruct (find (matches tid) files) as [doc |] eqn:Efind; [| reflexivity].
    exfalso. apply find_some in Efind. destruct Efind as [Hin Hm].
    apply (Hnone doc Hin). unfold matches in Hm.
    apply String.eqb_eq in Hm. rewrite <- Hm. now rewrite lower_idem.
  - intros [-> | ->]; reflexivity.
Qed.

Lemma render_unmatched_reference_witness :
  SonarrQualitySettingsConfig._render example_unmatched [example_document]
  = (example_unmatched, Err (ConfigTrashIDNotFoundError "0ff"))
  /\ SonarrQualitySettingsConfig._render example_local [example_document]
     = (example_local, Ok tt).
Proof.
  split.
  - apply (proj1 (render_unmatched_reference example_unmatched [example_document])).
    + reflexivity.
    + discriminate.
    + intros doc [<- | []]. cbn. discriminate.
  - apply (proj2 (render_unmatched_reference example_local [example_document])).
    left. reflexivity.
Defined.

(** ** The indexes of [update_remote] *)

Lemma remote_definitions_json_of_spec (api_get : list json) :
  forall acc rdj,
    SonarrQualitySettingsConfig.remote_definitions_json_of api_get acc = Ok rdj ->
    (NoDup (keys acc) -> NoDup (keys rdj))
    /\ (forall id record,
           dict_get id rdj = Some record ->
           dict_get id acc = Some record
           \/ (In record api_get
               /\ SonarrQualitySettingsConfig.definition_id_of record = Ok id)).
Proof.
  induction api_get as [| d rest IH]; intros acc rdj; cbn.
  - intros [= <-]. auto.
  - destruct (SonarrQualitySettingsConfig.definition_id_of d) as [z | e] eqn:Eid;
      cbn; [| discriminate].
    intros Hrun. destruct (IH _ _ Hrun) as [Hnd Hget]. split.
    + intros Hacc. apply Hnd. now apply NoDup_dict_set.
    + intros id record Hrec. destruct (Hget id record Hrec) as [Hacc | [Hin Hid]].
      * destruct (Z.eq_dec z id) as [-> | Hne].
        -- rewrite dict_get_set_eq in Hacc. injection Hacc as <-. right. auto.
        -- rewrite dict_get_set_neq in Hacc by exact Hne. now left.
      * right. auto.
Qed.

Lemma definition_ids_of_spec (items : list (Z * json)) :
  forall acc ids,
    SonarrQualitySettingsConfig.definition_ids_of items acc = Ok ids ->
    forall name id,
      dict_get name ids = Some id ->
      dict_get name acc = Some id
      \/ exists record,
          In (id, record) items
          /\ SonarrQualitySettingsConfig.quality_name record = Ok name.
Proof.
  induction items as [| [z d] rest IH]; intros acc ids; cbn.
  - intros [= <-]. auto.
  - destruct (SonarrQualitySettingsConfig.quality_name d) as [n | e] eqn:En;
      cbn; [| discriminate].
    intros Hrun name id Hget.
    destruct (IH _ _ Hrun name id Hget) as [Hacc | (record & Hin & Hname)].
    + destruct (String.eqb_spec n name) as [-> | Hne].
      * rewrite dict_get_set_eq in Hacc. injection Hacc as <-. right. eauto.
      * rewrite dict_get_set_neq in Hacc by exact Hne. now left.
    + right. eauto.
Qed.

(** What the two indexes say together: the id found for a quality name is
    the id of a record of the response that carries this name, and this
    record is the one stored under the id. *)
Lemma indexes_spec (api_get : list json) (rdj : dict Z json) (ids : dict string Z) :
  SonarrQualitySettingsConfig.remote_definitions_json_of api_get [] = Ok rdj ->
  SonarrQualitySettingsConfig.definition_ids_of rdj [] = Ok ids ->
  forall name id,
    dict_get name ids = Some id ->
    exists record,
      dict_get id rdj = Some record
      /\ In record api_get
      /\ SonarrQualitySettingsConfig.definition_id_of record = Ok id
      /\ SonarrQualitySettingsConfig.quality_name record = Ok name.
Proof.
  intros Hrdj Hids name id Hget.
  destruct (remote_definitions_json_of_spec _ _ _ Hrdj) as [Hnd Hrec].
  destruct (definition_ids_of_spec _ _ _ Hids name id Hget)
    as [Hacc | (record & Hin & Hname)]; [discriminate |].
  assert (dict_get id rdj = Some record) as Hlook
      by (apply In_dict_get; [apply Hnd; constructor | exact Hin]).
  exists record. destruct (Hrec id record Hlook) as [Hacc | [Hin' Hid]];
    [discriminate | auto].
Qed.

(** ** The loop of [update_remote], for any [get_update_remote_attrs] *)

Section UpdateRemoteFacts.
Variable get_update_remote_attrs :
  string -> QualityDefinition.t -> QualityDefinition.t ->
  list remote_map_entry -> result (bool * json).

Let update_definitions :=
  SonarrQualitySettingsConfig.update_definitions get_update_remote_attrs.

(** Every call to [api_put] comes from one local entry that
    [get_update_remote_attrs] reported as updated. *)
Lemma update_definitions_puts (tree : string) (remote : SonarrQualitySettingsConfig.t)
    (rdj : dict Z json) (ids : dict string Z)
    (items : list (string * QualityDefinition.t)) :
  forall changed puts r,
    update_definitions tree remote rdj ids items changed = (puts, r) ->
    forall p, In p puts ->
      exists name local_definition remote_definition remote_attrs record,
        In (name, local_definition) items
        /\ dict_get name (SonarrQualitySettingsConfig.definitions remote)
           = Some remote_definition
        /\ get_update_remote_attrs (tree ++ "[" ++ repr name ++ "]")%string
             local_definition remote_definition
             (SonarrQualitySettingsConfig.remote_map name)
           = Ok (true, remote_attrs)
        /\ dict_get name ids = Some (put_id p)
        /\ dict_get (put_id p) rdj = Some record
        /\ put_body p = dict_merge record remote_attrs.
Proof.
  subst update_definitions.
  induction items as [| [name local_definition] rest IH];
    intros changed puts r; cbn.
  - intros [= <- <-] p [].
  - unfold getitem.
    destruct (dict_get name (SonarrQualitySettingsConfig.definitions remote))
      as [remote_definition |] eqn:Eremote; [| intros [= <- <-] p []].
    destruct (get_update_remote_attrs _ local_definition remote_definition _)
      as [[updated remote_attrs] | e] eqn:Eattrs; [| intros [= <- <-] p []].
    destruct updated.
    + destruct (dict_get name ids) as [id |] eqn:Eid; [| intros [= <- <-] p []].
      destruct (dict_get id rdj) as [record |] eqn:Erec;
        [| intros [= <- <-] p []].
      destruct (SonarrQualitySettingsConfig.update_definitions _ tree remote rdj
                  ids rest true) as [puts' r'] eqn:Erest.
      intros [= <- <-] p [<- | Hin].
      * exists name, local_definition, remote_definition, remote_attrs, record.
        cbn. repeat split; auto.
      * destruct (IH _ _ _ Erest p Hin)
          as (n & l & rd & ra & rc & Hi & H1 & H2 & H3 & H4 & H5).
        exists n, l, rd, ra, rc. cbn. repeat split; auto.
    + intros Hrun p Hin.
      destruct (IH _ _ _ Hrun p Hin)
        as (n & l & rd & ra & rc & Hi & H1 & H2 & H3 & H4 & H5).
      exists n, l, rd, ra, rc. cbn. repeat split; auto.
Qed.
End UpdateRemoteFacts.

Lemma Forall_dict_set {K V : Type} `{Key K} (P : V -> Prop) (k : K) (v : V)
    (d : dict K V) :
  P v -> Forall (fun kv => P (snd kv)) d ->
  Forall (fun kv => P (snd kv)) (dict_set k v d).
Proof.
  intros Hv. induction 1 as [| [k' v'] d Hkv Hd IH]; cbn.
  - now repeat constructor.
  - destruct (key_eqb k k'); constructor; auto.
Qed.

Lemma remote_definitions_json_of_total (api_get : list json) :
  Forall well_formed api_get ->
  forall acc, Forall (fun kv => well_formed (snd kv)) acc ->
    exists rdj,
      SonarrQualitySettingsConfig.remote_definitions_json_of api_get acc = Ok rdj
      /\ Forall (fun kv => well_formed (snd kv)) rdj.
Proof.
  induction 1 as [| d rest Hd _ IH]; intros acc Hacc; cbn.
  - eauto.
  - destruct Hd as [[id Hid] Hname]. rewrite Hid. cbn.
    apply IH. apply Forall_dict_set; [split; eauto | exact Hacc].
Qed.

Lemma definition_ids_of_total (items : list (Z * json)) :
  Forall (fun kv => well_formed (snd kv)) items ->
  forall acc, exists ids,
    SonarrQualitySettingsConfig.definition_ids_of items acc = Ok ids.
Proof.
  induction 1 as [| [z d] rest Hd _ IH]; intros acc; cbn.
  - eauto.
  - destruct Hd as [_ [name Hname]]. cbn in Hname. rewrite Hname. cbn. apply IH.
Qed.

Lemma NoDup_map_eq {A B : Type} (f : A -> B) (l : list A) (x y : A) :
  NoDup (map f l) -> In x l -> In y l -> f x = f y -> x = y.
Proof.
  induction l as [| a l IH]; cbn; [tauto |].
  intros Hnd. inversion Hnd as [| ? ? Hnotin Hnd']; subst.
  intros [-> | Hx] [-> | Hy] Heq; auto.
  - exfalso. apply Hnotin. rewrite Heq. now apply in_map.
  - exfalso. apply Hnotin. rewrite <- Heq. now apply in_map.
Qed.

Section UpdateRemoteClaims.
Variable get_update_remote_attrs :
  string -> QualityDefinition.t -> QualityDefinition.t ->
  list remote_map_entry -> result (bool * json).

Let update_definitions :=
  SonarrQualitySettingsConfig.update_definitions get_update_remote_attrs.
Let update_remote :=
  SonarrQualitySettingsConfig.update_remote get_update_remote_attrs.

(** The loop fails as soon as it meets a local name the remote lacks. *)
Lemma update_definitions_missing (tree : string)
    (remote : SonarrQualitySettingsConfig.t) (rdj : dict Z json)
    (ids : dict string Z) (items : list (string * QualityDefinition.t))
    (name : string) :
  In name (keys items) ->
  dict_get name (SonarrQualitySettingsConfig.definitions remote) = None ->
  forall changed, exists puts e,
    update_definitions tree remote rdj ids items changed = (puts, Err e)
    /\ ((forall t l r n, exists res,
            get_update_remote_attrs t l r (SonarrQualitySettingsConfig.remote_map n)
            = Ok res) ->
        (forall n id, dict_get n ids = Some id -> exists record,
              dict_get id rdj = Some record) ->
        exists k, e = KeyError (VStr k) /\ In k (keys items)).
Proof.
  subst update_definitions update_remote. intros Hin Hnone.
  induction items as [| [n local_definition] rest IH]; intros changed;
    [destruct Hin |].
  cbn. unfold getitem.
  destruct (dict_get n (SonarrQualitySettingsConfig.definitions remote))
    as [remote_definition |] eqn:Eremote.
  2:{ do 2 eexists. split; [reflexivity |]. intros _ _. exists n. cbn. auto. }
  assert (In name (keys rest)) as Hrest.
  { destruct Hin as [Heq | Hin]; [| exact Hin]. cbn in Heq. congruence. }
  specialize (IH Hrest).
  destruct (get_update_remote_attrs _ local_definition remote_definition _)
    as [[updated remote_attrs] | e] eqn:Eattrs.
  2:{ do 2 eexists. split; [reflexivity |]. intros Htotal _.
      destruct (Htotal (tree ++ "[" ++ repr n ++ "]")%string local_definition
                  remote_definition n) as [res Hres].
      assert (Ok res = Err e) as Habs by (rewrite <- Hres; exact Eattrs).
      discriminate Habs. }
  destruct updated.
  - destruct (dict_get n ids) as [id |] eqn:Eid.
    2:{ do 2 eexists. split; [reflexivity |]. intros _ _. exists n. cbn. auto. }
    destruct (dict_get id rdj) as [record |] eqn:Erec.
    2:{ do 2 eexists. split; [reflexivity |]. intros _ Hidx.
        destruct (Hidx n id Eid) as [record Hrec]. congruence. }
    destruct (IH true) as (puts & e & -> & Hkey).
    do 2 eexists. split; [reflexivity |]. intros Htotal Hidx.
    destruct (Hkey Htotal Hidx) as (k & -> & Hk). exists k. cbn. auto.
  - destruct (IH changed) as (puts & e & -> & Hkey).
    do 2 eexists. split; [reflexivity |]. intros Htotal Hidx.
    destruct (Hkey Htotal Hidx) as (k & -> & Hk). exists k. cbn. auto.
Qed.
End UpdateRemoteClaims.

(** Every call to [api_put] of [update_remote] goes to the id of a record of
    the response whose quality name is a local one. *)
Lemma update_remote_puts_target
    (get_update_remote_attrs :
       string -> QualityDefinition.t -> QualityDefinition.t ->
       list remote_map_entry -> result (bool * json))
    (self : SonarrQualitySettingsConfig.t) (tree : string) (api_get : list json)
    (remote : SonarrQualitySettingsConfig.t) (puts : list api_put)
    (r : result bool) :
  SonarrQualitySettingsConfig.update_remote get_update_remote_attrs self tree
    api_get remote = (puts, r) ->
  forall p, In p puts ->
     exists name record,
       In name (keys (SonarrQualitySettingsConfig.definitions self))
       /\ In record api_get
       /\ SonarrQualitySettingsConfig.definition_id_of record = Ok (put_id p)
       /\ SonarrQualitySettingsConfig.quality_name record = Ok name.
Proof.
  intros Hrun.
  unfold SonarrQualitySettingsConfig.update_remote in Hrun.
  destruct (SonarrQualitySettingsConfig.remote_definitions_json_of api_get [])
    as [rdj | e] eqn:Erdj; [| injection Hrun as <- <-; intros p []].
  destruct (SonarrQualitySettingsConfig.definition_ids_of rdj [])
    as [ids | e] eqn:Eids; [| injection Hrun as <- <-; intros p []].
  intros p Hp.
  destruct (update_definitions_puts _ _ _ _ _ _ _ _ _ Hrun p Hp)
    as (name & l & rd & ra & rc & Hin & _ & _ & Hid & Hrec & _).
  destruct (indexes_spec _ _ _ Erdj Eids name (put_id p) Hid)
    as (record & _ & Hrin & Hrid & Hrname).
  exists name, record. repeat split; auto.
  now apply (in_map fst) in Hin.
Qed.

(** C3.  Quality names that only the remote has are never written.  Every
    call to [api_put] goes to the id of a record of the response whose
    quality name is a key of the local [definitions]; so, ids being unique,
    the record of a name absent from the local mapping is never the target
    of a write.  [api_put] is the only call that changes the server: nothing
    is deleted. *)
Theorem remote_only_never_written
    (get_update_remote_attrs :
       string -> QualityDefinition.t -> QualityDefinition.t ->
       list remote_map_entry -> result (bool * json))
    (self : SonarrQualitySettingsConfig.t) (tree : string) (api_get : list json)
    (remote : SonarrQualitySettingsConfig.t) (puts : list api_put)
    (r : result bool) :
  SonarrQualitySettingsConfig.update_remote get_update_remote_attrs self tree
    api_get remote = (puts, r) ->
  (forall p, In p puts ->
     exists name record,
       In name (keys (SonarrQualitySettingsConfig.definitions self))
       /\ In record api_get
       /\ SonarrQualitySettingsConfig.definition_id_of record = Ok (put_id p)
       /\ SonarrQualitySettingsConfig.quality_name record = Ok name)
  /\ (NoDup (map SonarrQualitySettingsConfig.definition_id_of api_get) ->
      forall record name,
        In record api_get ->
        SonarrQualitySettingsConfig.quality_name record = Ok name ->
        ~ In name (keys (SonarrQualitySettingsConfig.definitions self)) ->
        forall p, In p puts ->
          SonarrQualitySettingsConfig.definition_id_of record <> Ok (put_id p)).
Proof.
  intros Hrun.
  pose proof (update_remote_puts_target get_update_remote_attrs _ _ _ _ _ _ Hrun)
    as Hputs.
  split; [exact Hputs |].
  intros Hnd record name Hin Hname Hlocal p Hp Hid.
  destruct (Hputs p Hp) as (name' & record' & Hin' & Hrin' & Hrid' & Hrname').
  assert (record = record') as <-
      by (apply (NoDup_map_eq _ _ _ _ Hnd Hin Hrin'); congruence).
  congruence.
Qed.

Lemma remote_only_never_written_witness :
  SonarrQualitySettingsConfig.definition_id_of example_Y <> Ok (put_id example_put).
Proof.
  destruct (remote_only_never_written ConfigBase.get_update_remote_attrs
              example_local "quality" example_server example_remote
              [example_put] (Ok true) eq_refl) as [_ Hremote].
  apply (Hremote ltac:(repeat constructor; cbn; intuition discriminate)
           example_Y "Y").
  - right. left. reflexivity.
  - reflexivity.
  - cbn. intuition discriminate.
  - left. reflexivity.
Defined.

(** C10.  [update_remote] needs every local quality name to be in the remote
    snapshot.  With a local name absent from [remote.definitions] it always
    ends in an exception; when the response is well formed and
    [get_update_remote_attrs] itself does not raise, the exception is the
    [KeyError] of a local quality name.  Nothing is added to the server on
    the way: the calls made before the exception are updates of records the
    response already has. *)
Theorem update_remote_requires_remote
    (get_update_remote_attrs :
       string -> QualityDefinition.t -> QualityDefinition.t ->
       list remote_map_entry -> result (bool * json))
    (self : SonarrQualitySettingsConfig.t) (tree : string) (api_get : list json)
    (remote : SonarrQualitySettingsConfig.t) (name : string) :
  In name (keys (SonarrQualitySettingsConfig.definitions self)) ->
  dict_get name (SonarrQualitySettingsConfig.definitions remote) = None ->
  exists puts e,
    SonarrQualitySettingsConfig.update_remote get_update_remote_attrs self tree
      api_get remote = (puts, Err e)
    /\ (forall p, In p puts -> exists record,
          In record api_get
          /\ SonarrQualitySettingsConfig.definition_id_of record = Ok (put_id p))
    /\ ((forall t l r n, exists res,
            get_update_remote_attrs t l r (SonarrQualitySettingsConfig.remote_map n)
            = Ok res) ->
        Forall well_formed api_get ->
        exists k, e = KeyError (VStr k)
                  /\ In k (keys (SonarrQualitySettingsConfig.definitions self))).
Proof.
  intros Hin Hnone.
  assert (exists puts e,
    SonarrQualitySettingsConfig.update_remote get_update_remote_attrs self tree
      api_get remote = (puts, Err e)
    /\ ((forall t l r n, exists res,
            get_update_remote_attrs t l r (SonarrQualitySettingsConfig.remote_map n)
            = Ok res) ->
        Forall well_formed api_get ->
        exists k, e = KeyError (VStr k)
                  /\ In k (keys (SonarrQualitySettingsConfig.definitions self))))
    as (puts & e & Hrun & Hkey).
  { unfold SonarrQualitySettingsConfig.update_remote.
    destruct (SonarrQualitySettingsConfig.remote_definitions_json_of api_get [])
      as [rdj | e] eqn:Erdj.
    2:{ do 2 eexists. split; [reflexivity |]. intros _ Hwf.
        destruct (remote_definitions_json_of_total _ Hwf [] (Forall_nil _))
          as (rdj & Hrdj & _).
        congruence. }
    destruct (SonarrQualitySettingsConfig.definition_ids_of rdj [])
      as [ids | e] eqn:Eids.
    2:{ do 2 eexists. split; [reflexivity |]. intros _ Hwf.
        destruct (remote_definitions_json_of_total _ Hwf [] (Forall_nil _))
          as (rdj' & Hrdj & Hall).
        assert (rdj' = rdj) as -> by congruence.
        destruct (definition_ids_of_total _ Hall []) as [ids Hids]. congruence. }
    destruct (update_definitions_missing get_update_remote_attrs tree remote rdj
                ids _ name Hin Hnone false) as (puts & e & Hrun & Hkey).
    exists puts, e. split; [exact Hrun |]. intros Htotal _.
    apply Hkey; [exact Htotal |].
    intros n id Hid.
    destruct (indexes_spec _ _ _ Erdj Eids n id Hid) as (record & Hrec & _).
    eauto. }
  exists puts, e. split; [exact Hrun |]. split; [| exact Hkey].
  intros p Hp.
  destruct (update_remote_puts_target get_update_remote_attrs _ _ _ _ _ _ Hrun p Hp)
    as (n & record & _ & Hrin & Hrid & _).
  eauto.
Qed.

(** ** [get_update_remote_attrs] on the remote map of [update_remote] *)

Lemma encode_title (name : string) (title : option string) :
  (if truthy (QualityDefinition.of_title title)
   then QualityDefinition.of_title title
   else VStr name)
  = VStr (display_title name title).
Proof.
  destruct title as [s |]; cbn; [| reflexivity].
  now destruct (String.eqb s "").
Qed.

Lemma value_eqb_of_float (a b : option Q) :
  ConfigBase.value_eqb (QualityDefinition.of_float a) (QualityDefinition.of_float b)
  = option_Qeq_bool a b.
Proof. destruct a, b; reflexivity. Qed.

Lemma get_update_remote_attrs_spec (tree name : string) (l r : QualityDefinition.t) :
  ConfigBase.get_update_remote_attrs tree l r
    (SonarrQualitySettingsConfig.remote_map name)
  = Ok (tier_differs name l r, changed_attrs name l r).
Proof.
  unfold ConfigBase.get_update_remote_attrs, SonarrQualitySettingsConfig.remote_map.
  cbn -[truthy display_title QualityDefinition.of_title QualityDefinition.of_float
        ConfigBase.value_eqb].
  rewrite !encode_title, value_eqb_of_float.
  unfold tier_differs, changed_attrs, title_differs, min_differs,
    preferred_differs, max_differs.
  cbn [ConfigBase.value_eqb].
  destruct (String.eqb (display_title name (QualityDefinition.title l))
              (display_title name (QualityDefinition.title r)));
    destruct (Qeq_bool (QualityDefinition.min l) (QualityDefinition.min r));
    destruct (Qeq_bool (QualityDefinition.preferred l) (QualityDefinition.preferred r));
    destruct (option_Qeq_bool (QualityDefinition.max l) (QualityDefinition.max r));
    reflexivity.
Qed.

Lemma option_Qeq_bool_iff (a b : option Q) :
  option_Qeq_bool a b = true <-> option_Qeq a b.
Proof.
  destruct a, b; cbn; try apply Qeq_bool_iff; intuition discriminate.
Qed.

Lemma tier_differs_false (name : string) (l r : QualityDefinition.t) :
  tier_differs name l r = false <-> tier_equal name l r.
Proof.
  unfold tier_differs, tier_equal, title_differs, min_differs, preferred_differs,
    max_differs.
  rewrite !orb_false_iff, !negb_false_iff, String.eqb_eq, !Qeq_bool_iff,
    option_Qeq_bool_iff.
  tauto.
Qed.

Lemma tier_differs_true (name : string) (l r : QualityDefinition.t) :
  tier_differs name l r = true <-> ~ tier_equal name l r.
Proof.
  rewrite <- tier_differs_false. destruct (tier_differs name l r); intuition congruence.
Qed.

Lemma update_remote_requires_remote_witness :
  exists puts k,
    SonarrQualitySettingsConfig.update_remote ConfigBase.get_update_remote_attrs
      example_unknown "quality" example_server example_remote
    = (puts, Err (KeyError (VStr k))).
Proof.
  destruct (update_remote_requires_remote ConfigBase.get_update_remote_attrs
              example_unknown "quality" example_server example_remote "Z")
    as (puts & e & Hrun & _ & Hkey).
  - right. left. reflexivity.
  - reflexivity.
  - destruct Hkey as (k & -> & _).
    + intros t l r n. eexists. apply get_update_remote_attrs_spec.
    + repeat constructor; eexists; reflexivity.
    + exists puts, k. exact Hrun.
Defined.

Lemma changed_attrs_keys (name : string) (l r : QualityDefinition.t) :
  NoDup (keys (changed_attrs name l r))
  /\ incl (keys (changed_attrs name l r))
          ["title"; "minSize"; "preferredSize"; "maxSize"].
Proof.
  unfold changed_attrs.
  destruct (title_differs name l r), (min_differs l r), (preferred_differs l r),
    (max_differs l r); cbn; split;
    try (repeat constructor; cbn; intuition discriminate);
    intros k Hk; cbn in *; intuition.
Qed.

(** ** The loop of [update_remote] with the modelled [get_update_remote_attrs] *)

Lemma update_definitions_spec (tree : string) (remote : SonarrQualitySettingsConfig.t)
    (rdj : dict Z json) (ids : dict string Z)
    (items : list (string * QualityDefinition.t)) :
  forall changed puts b,
    SonarrQualitySettingsConfig.update_definitions ConfigBase.get_update_remote_attrs
      tree remote rdj ids items changed = (puts, Ok b) ->
    Forall2
      (fun p item =>
         exists r record,
           dict_get (fst item) (SonarrQualitySettingsConfig.definitions remote) = Some r
           /\ dict_get (fst item) ids = Some (put_id p)
           /\ dict_get (put_id p) rdj = Some record
           /\ put_body p = dict_merge record (changed_attrs (fst item) (snd item) r))
      puts (filter (changed_entry remote) items)
    /\ b = changed || existsb (changed_entry remote) items.
Proof.
  induction items as [| [name l] rest IH]; intros changed puts b;
    cbn [SonarrQualitySettingsConfig.update_definitions filter existsb].
  - intros [= <- <-]. split; [constructor | now rewrite orb_false_r].
  - assert (changed_entry remote (name, l)
            = match dict_get name (SonarrQualitySettingsConfig.definitions remote) with
              | Some r => tier_differs name l r
              | None => false
              end) as -> by reflexivity.
    unfold getitem.
    destruct (dict_get name (SonarrQualitySettingsConfig.definitions remote))
      as [r |] eqn:Eremote; [| discriminate].
    rewrite get_update_remote_attrs_spec.
    destruct (tier_differs name l r) eqn:Ediff.
    + destruct (dict_get name ids) as [id |] eqn:Eid; [| discriminate].
      destruct (dict_get id rdj) as [record |] eqn:Erec; [| discriminate].
      destruct (SonarrQualitySettingsConfig.update_definitions _ tree remote rdj
                  ids rest true) as [puts' r'] eqn:Erest.
      intros [= <- ->]. destruct (IH _ _ _ Erest) as [Hputs ->]. split.
      * constructor; [| exact Hputs]. exists r, record. cbn. auto.
      * cbn. now rewrite orb_true_r.
    + intros Hrun. destruct (IH _ _ _ Hrun) as [Hputs ->]. auto.
Qed.

Lemma update_definitions_in_sync (tree : string) (remote : SonarrQualitySettingsConfig.t)
    (rdj : dict Z json) (ids : dict string Z)
    (items : list (string * QualityDefinition.t)) :
  Forall (fun item =>
            exists r,
              dict_get (fst item) (SonarrQualitySettingsConfig.definitions remote)
              = Some r
              /\ tier_equal (fst item) (snd item) r) items ->
  forall changed,
    SonarrQualitySettingsConfig.update_definitions ConfigBase.get_update_remote_attrs
      tree remote rdj ids items changed = ([], Ok changed).
Proof.
  induction 1 as [| [name l] rest (r & Hr & Heq) _ IH]; intros changed;
    cbn [SonarrQualitySettingsConfig.update_definitions];
    [reflexivity |].
  cbn in Hr, Heq. unfold getitem. rewrite Hr, get_update_remote_attrs_spec.
  apply tier_differs_false in Heq. rewrite Heq. apply IH.
Qed.

Lemma update_remote_spec (self : SonarrQualitySettingsConfig.t) (tree : string)
    (api_get : list json) (remote : SonarrQualitySettingsConfig.t)
    (puts : list api_put) (b : bool) :
  SonarrQualitySettingsConfig.update_remote ConfigBase.get_update_remote_attrs
    self tree api_get remote = (puts, Ok b) ->
  Forall2 (put_for remote api_get) puts
    (filter (changed_entry remote) (SonarrQualitySettingsConfig.definitions self))
  /\ b = existsb (changed_entry remote) (SonarrQualitySettingsConfig.definitions self).
Proof.
  unfold SonarrQualitySettingsConfig.update_remote.
  destruct (SonarrQualitySettingsConfig.remote_definitions_json_of api_get [])
    as [rdj | e] eqn:Erdj; [| discriminate].
  destruct (SonarrQualitySettingsConfig.definition_ids_of rdj [])
    as [ids | e] eqn:Eids; [| discriminate].
  intros Hrun. destruct (update_definitions_spec _ _ _ _ _ _ _ _ Hrun) as [Hputs ->].
  split; [| reflexivity].
  eapply Forall2_impl; [| exact Hputs].
  intros p item (r & record & Hr & Hid & Hrec & Hbody).
  destruct (indexes_spec _ _ _ Erdj Eids _ _ Hid)
    as (record' & Hrec' & Hin & Hrid & Hname).
  assert (record' = record) as -> by congruence.
  exists r, record. auto.
Qed.

Lemma quality_name_merge (record attrs : json) :
  dict_get "quality" attrs = None ->
  SonarrQualitySettingsConfig.quality_name (dict_merge record attrs)
  = SonarrQualitySettingsConfig.quality_name record.
Proof.
  intros Hq. unfold SonarrQualitySettingsConfig.quality_name, getitem.
  now rewrite (dict_merge_get_None _ _ _ Hq).
Qed.

Lemma definition_id_of_merge (record attrs : json) :
  dict_get "id" attrs = None ->
  SonarrQualitySettingsConfig.definition_id_of (dict_merge record attrs)
  = SonarrQualitySettingsConfig.definition_id_of record.
Proof.
  intros Hq. unfold SonarrQualitySettingsConfig.definition_id_of, getitem.
  now rewrite (dict_merge_get_None _ _ _ Hq).
Qed.

Lemma changed_attrs_other (name : string) (l r : QualityDefinition.t) (k : string) :
  ~ In k ["title"; "minSize"; "preferredSize"; "maxSize"] ->
  dict_get k (changed_attrs name l r) = None.
Proof.
  intros Hk. apply dict_get_None. intros Hin. apply Hk.
  now apply (proj2 (changed_attrs_keys name l r)).
Qed.

Lemma put_for_name (remote : SonarrQualitySettingsConfig.t) (api_get : list json)
    (p : api_put) (item : string * QualityDefinition.t) :
  put_for remote api_get p item ->
  put_name p = Ok (fst item)
  /\ SonarrQualitySettingsConfig.definition_id_of (put_body p) = Ok (put_id p).
Proof.
  intros (r & record & Hr & Hin & Hid & Hname & Hbody).
  unfold put_name. rewrite Hbody. split.
  - rewrite quality_name_merge; [exact Hname |].
    apply changed_attrs_other. cbn. intuition discriminate.
  - rewrite definition_id_of_merge; [exact Hid |].
    apply changed_attrs_other. cbn. intuition discriminate.
Qed.

Lemma Forall2_In_l {A B : Type} (R : A -> B -> Prop) (xs : list A) (ys : list B) :
  Forall2 R xs ys -> forall x, In x xs -> exists y, In y ys /\ R x y.
Proof.
  induction 1 as [| x0 y0 xs ys Hxy _ IH]; intros x; cbn; [tauto |].
  intros [<- | Hin]; [eauto |].
  destruct (IH x Hin) as (y & Hy & Hr). eauto.
Qed.

Lemma existsb_filter {A : Type} (f : A -> bool) (l : list A) :
  existsb f l = true <-> filter f l <> [].
Proof.
  induction l as [| a l IH]; cbn.
  - split; [discriminate | congruence].
  - destruct (f a); cbn; [| exact IH]. split; [discriminate | reflexivity].
Qed.

Lemma put_names (remote : SonarrQualitySettingsConfig.t) (api_get : list json)
    (puts : list api_put) (items : list (string * QualityDefinition.t)) :
  Forall2 (put_for remote api_get) puts items ->
  map put_name puts = map (fun item => Ok (fst item)) items.
Proof.
  induction 1 as [| p item puts items Hp _ IH]; cbn; [reflexivity |].
  now rewrite IH, (proj1 (put_for_name _ _ _ _ Hp)).
Qed.

(** Whatever the outcome, a call made by [update_remote] is about a local
    quality whose tier differs from the remote one. *)
Lemma update_remote_puts_differ (self : SonarrQualitySettingsConfig.t)
    (tree : string) (api_get : list json) (remote : SonarrQualitySettingsConfig.t)
    (puts : list api_put) (r : result bool) :
  SonarrQualitySettingsConfig.update_remote ConfigBase.get_update_remote_attrs
    self tree api_get remote = (puts, r) ->
  forall p, In p puts ->
    exists name l rm,
      In (name, l) (SonarrQualitySettingsConfig.definitions self)
      /\ dict_get name (SonarrQualitySettingsConfig.definitions remote) = Some rm
      /\ put_name p = Ok name
      /\ ~ tier_equal name l rm.
Proof.
  unfold SonarrQualitySettingsConfig.update_remote.
  destruct (SonarrQualitySettingsConfig.remote_definitions_json_of api_get [])
    as [rdj | e] eqn:Erdj; [| intros [= <- <-] p []].
  destruct (SonarrQualitySettingsConfig.definition_ids_of rdj [])
    as [ids | e] eqn:Eids; [| intros [= <- <-] p []].
  intros Hrun p Hp.
  destruct (update_definitions_puts _ _ _ _ _ _ _ _ _ Hrun p Hp)
    as (name & l & rm & ra & rc & Hin & Hrm & Hattrs & Hid & Hrec & Hbody).
  rewrite get_update_remote_attrs_spec in Hattrs.
  injection Hattrs as Hdiff <-.
  destruct (indexes_spec _ _ _ Erdj Eids _ _ Hid) as (rc' & Hrec' & _ & _ & Hname).
  assert (rc' = rc) as -> by congruence.
  exists name, l, rm. repeat split; auto.
  - unfold put_name. rewrite Hbody, quality_name_merge; [exact Hname |].
    apply changed_attrs_other. cbn. intuition discriminate.
  - now apply tier_differs_true.
Qed.

(** C1.  [update_remote] writes exactly the local entries whose tier differs
    from the remote tier of the same name in one of the compared fields
    (title, min, preferred, max).  Whatever the outcome, every call to
    [api_put] is about a local quality whose tier is not equal to the remote
    one, and a quality whose local and remote tiers are equal field by field
    is the subject of no call.  When [update_remote] returns, the calls are, in
    order, those of the differing entries, and the value returned is the
    disjunction of the per-entry results, true iff a call was made. *)
Theorem update_remote_writes_differing (self : SonarrQualitySettingsConfig.t)
    (tree : string) (api_get : list json) (remote : SonarrQualitySettingsConfig.t)
    (puts : list api_put) (r : result bool) :
  SonarrQualitySettingsConfig.update_remote ConfigBase.get_update_remote_attrs
    self tree api_get remote = (puts, r) ->
  (forall p, In p puts ->
     exists name l rm,
       In (name, l) (SonarrQualitySettingsConfig.definitions self)
       /\ dict_get name (SonarrQualitySettingsConfig.definitions remote) = Some rm
       /\ put_name p = Ok name
       /\ ~ tier_equal name l rm)
  /\ (NoDup (keys (SonarrQualitySettingsConfig.definitions self)) ->
      forall name l rm,
        In (name, l) (SonarrQualitySettingsConfig.definitions self) ->
        dict_get name (SonarrQualitySettingsConfig.definitions remote) = Some rm ->
        tier_equal name l rm ->
        forall p, In p puts -> put_name p <> Ok name)
  /\ (forall b, r = Ok b ->
      map put_name puts
      = map (fun item => Ok (fst item))
          (filter (changed_entry remote)
             (SonarrQualitySettingsConfig.definitions self))
      /\ b = existsb (changed_entry remote)
               (SonarrQualitySettingsConfig.definitions self)
      /\ (b = true <-> puts <> [])).
Proof.
  intros Hrun. pose proof (update_remote_puts_differ _ _ _ _ _ _ Hrun) as Hdiff.
  split; [exact Hdiff | split].
  - intros Hnd name l rm Hin Hrm Heq p Hp Hname.
    destruct (Hdiff p Hp) as (name' & l' & rm' & Hin' & Hrm' & Hname' & Hneq).
    assert (name' = name) as -> by congruence.
    assert (rm' = rm) as -> by congruence.
    assert (l' = l) as ->.
    { apply (In_dict_get _ _ _ Hnd) in Hin, Hin'. congruence. }
    contradiction.
  - intros b ->. destruct (update_remote_spec _ _ _ _ _ _ Hrun) as [Hputs Hb].
    repeat split.
    + now apply put_names with (remote := remote) (api_get := api_get).
    + exact Hb.
    + rewrite Hb, existsb_filter. intros Hne ->. inversion Hputs as [Hnil |].
      congruence.
    + intros Hne. rewrite Hb. apply existsb_filter. intros Hnil.
      rewrite Hnil in Hputs. inversion Hputs. congruence.
Qed.

Lemma update_remote_writes_differing_witness :
  map put_name [example_put]
  = map (fun item => Ok (fst item))
      (filter (changed_entry example_remote)
         (SonarrQualitySettingsConfig.definitions example_local))
  /\ (true = true <-> [example_put] <> []).
Proof.
  destruct (update_remote_writes_differing example_local "quality" example_server
              example_remote [example_put] (Ok true) eq_refl)
    as (_ & _ & Hret).
  destruct (Hret true eq_refl) as (Hnames & _ & Hany).
  split; assumption.
Defined.

(** C4.  For every changed tier there is exactly one call to [api_put], in
    the order of the local entries.  It goes to the id the name has in the
    response, and its body is the full record of that id with the changed
    attributes merged in: the attributes of differing fields take the local
    values, every other key of the record is kept.  When only [min] differs
    the body is the record with [minSize] replaced. *)
Theorem update_remote_merges_changed (self : SonarrQualitySettingsConfig.t)
    (tree : string) (api_get : list json) (remote : SonarrQualitySettingsConfig.t)
    (puts : list api_put) (b : bool) :
  SonarrQualitySettingsConfig.update_remote ConfigBase.get_update_remote_attrs
    self tree api_get remote = (puts, Ok b) ->
  Forall2
    (fun p item =>
       exists r record,
         dict_get (fst item) (SonarrQualitySettingsConfig.definitions remote) = Some r
         /\ In record api_get
         /\ SonarrQualitySettingsConfig.definition_id_of record = Ok (put_id p)
         /\ SonarrQualitySettingsConfig.quality_name record = Ok (fst item)
         /\ put_body p = dict_merge record (changed_attrs (fst item) (snd item) r)
         /\ (forall k v, dict_get k (changed_attrs (fst item) (snd item) r) = Some v ->
                         dict_get k (put_body p) = Some v)
         /\ (forall k, dict_get k (changed_attrs (fst item) (snd item) r) = None ->
                       dict_get k (put_body p) = dict_get k record)
         /\ (forall k, ~ In k ["title"; "minSize"; "preferredSize"; "maxSize"] ->
                       dict_get k (put_body p) = dict_get k record)
         /\ (title_differs (fst item) (snd item) r = false ->
             min_differs (snd item) r = true ->
             preferred_differs (snd item) r = false ->
             max_differs (snd item) r = false ->
             put_body p
             = dict_set "minSize" (VFloat (QualityDefinition.min (snd item))) record))
    puts
    (filter (changed_entry remote) (SonarrQualitySettingsConfig.definitions self)).
Proof.
  intros Hrun. destruct (update_remote_spec _ _ _ _ _ _ Hrun) as [Hputs _].
  eapply Forall2_impl; [| exact Hputs].
  intros p [name l] (r & record & Hr & Hin & Hid & Hname & Hbody). cbn [fst snd] in *.
  exists r, record. repeat split; auto.
  - intros k v Hk. rewrite Hbody.
    apply dict_merge_get_Some; [apply changed_attrs_keys | exact Hk].
  - intros k Hk. rewrite Hbody. now apply dict_merge_get_None.
  - intros k Hk. rewrite Hbody.
    apply dict_merge_get_None. now apply changed_attrs_other.
  - intros Ht Hm Hp Hx. rewrite Hbody. unfold changed_attrs.
    rewrite Ht, Hm, Hp, Hx. reflexivity.
Qed.

Lemma update_remote_merges_changed_witness :
  put_body example_put = dict_set "minSize" (VFloat 2) example_X.
Proof.
  pose proof (update_remote_merges_changed example_local "quality" example_server
                example_remote [example_put] true eq_refl) as Hputs.
  inversion Hputs as [| p item ps items Hp Hrest Hp_eq Hitem_eq].
  destruct Hp as (r & record & Hr & Hin & Hid & _ & _ & _ & _ & _ & Hmin).
  injection Hr as <-.
  destruct Hin as [<- | [<- | []]]; [| discriminate Hid].
  apply Hmin; reflexivity.
Defined.

(** ** The constructor, field by field *)

Lemma new_Ok_iff (title_v min_v preferred_v max_v : value) (t : QualityDefinition.t) :
  QualityDefinition.new title_v min_v preferred_v max_v = Ok t <->
  QualityDefinition.check_title title_v = inr (QualityDefinition.title t)
  /\ QualityDefinition.check_float "min" (Some 0) (Some QUALITYDEFINITION_MIN_MAX) min_v
     = inr (QualityDefinition.min t)
  /\ QualityDefinition.check_float "preferred" (Some 0) None preferred_v
     = inr (QualityDefinition.preferred t)
  /\ QualityDefinition.check_max max_v
       [("min", QualityDefinition.min t); ("preferred", QualityDefinition.preferred t)]
     = Ok (inr (QualityDefinition.max t)).
Proof.
  unfold QualityDefinition.new.
  destruct (QualityDefinition.check_title title_v) as [e1 | a];
    destruct (QualityDefinition.check_float "min" _ _ min_v) as [e2 | b];
    destruct (QualityDefinition.check_float "preferred" _ _ preferred_v) as [e3 | c];
    cbn [QualityDefinition.data_of app].
  all: destruct (QualityDefinition.check_max max_v _) as [[e4 | d] | err] eqn:Emax;
    cbn [bind].
  all: split;
    [ intros Hnew; try discriminate Hnew
    | intros (H1 & H2 & H3 & H4); try discriminate H1; try discriminate H2;
      try discriminate H3 ].
  all: try (injection H1 as H1; injection H2 as H2; injection H3 as H3;
            destruct t as [ta tb tc td]; cbn in *; subst;
            rewrite Emax in H4; congruence).
  injection Hnew as <-. cbn. auto.
Qed.

Lemma Qltb_compat (a b a' b' : Q) : a == a' -> b == b' -> Qltb a b = Qltb a' b'.
Proof.
  intros Ha Hb. destruct (Qltb a b) eqn:E1, (Qltb a' b') eqn:E2;
    try reflexivity; qbool; lra.
Qed.

(** The outcome of the [max] field depends on the validated [min] only up to
    equality of numbers. *)
Lemma check_max_min_compat (max_v : value) (mn mn' pf pf' : Q) (mx : option Q) :
  mn == mn' ->
  QualityDefinition.check_max max_v [("min", mn); ("preferred", pf)] = Ok (inr mx) ->
  QualityDefinition.check_max max_v [("min", mn'); ("preferred", pf')] = Ok (inr mx).
Proof.
  intros Hmn. unfold QualityDefinition.check_max.
  match goal with
  | |- context [match ?inner with inl _ => _ | inr _ => _ end] =>
      destruct inner as [e | v]
  end; [discriminate |].
  unfold QualityDefinition.validate_max, getitem. cbn [dict_get key_eqb string_Key].
  cbn [String.eqb Ascii.eqb Bool.eqb bind].
  destruct v as [m |].
  - destruct (Qle_bool QUALITYDEFINITION_MAX (py_min m QUALITYDEFINITION_MAX));
      rewrite (Qltb_compat (py_min m QUALITYDEFINITION_MAX - mn') 1
                 (py_min m QUALITYDEFINITION_MAX - mn) 1) by lra;
      destruct (Qltb (py_min m QUALITYDEFINITION_MAX - mn) 1); auto; discriminate.
  - rewrite (Qltb_compat (QUALITYDEFINITION_MAX - mn') 1
               (QUALITYDEFINITION_MAX - mn) 1) by lra.
    destruct (Qltb (QUALITYDEFINITION_MAX - mn) 1); auto; discriminate.
Qed.

Lemma check_range_inr (field : string) (lo hi : option Q) (q q' : Q) :
  QualityDefinition.check_range field lo hi q = inr q' -> q' = q.
Proof.
  unfold QualityDefinition.check_range.
  destruct (match lo with Some l => Qltb q l | None => false end);
    [discriminate |].
  destruct (match hi with Some h => Qltb h q | None => false end);
    [discriminate |].
  now intros [= <-].
Qed.

Lemma check_float_again (field : string) (lo hi : option Q) (v : value) (q : Q) :
  QualityDefinition.check_float field lo hi v = inr q ->
  QualityDefinition.check_float field lo hi (VFloat q) = inr q.
Proof.
  unfold QualityDefinition.check_float. cbn [QualityDefinition.to_float].
  destruct (QualityDefinition.to_float v) as [q0 |]; [| discriminate].
  intros Hq. pose proof (check_range_inr _ _ _ _ _ Hq) as ->. exact Hq.
Qed.

Lemma effective_ceiling_compat (a b : option Q) :
  option_Qeq a b -> effective_ceiling a == effective_ceiling b.
Proof.
  destruct a as [x |], b as [y |]; cbn; try tauto; [| reflexivity].
  intros Hxy. destruct (Qle_bool x 2000) eqn:E1, (Qle_bool y 2000) eqn:E2;
    qbool; lra.
Qed.

(** The [max] field passes exactly when the gap to [min] is at least 1, and
    what it returns does not depend on [min] otherwise. *)
Lemma check_max_gap (max_v : value) (mn pf : Q) (mx : option Q) :
  QualityDefinition.check_max max_v [("min", mn); ("preferred", pf)] = Ok (inr mx) ->
  1 <= effective_ceiling mx - mn
  /\ (forall mn' pf', 1 <= effective_ceiling mx - mn' ->
      QualityDefinition.check_max max_v [("min", mn'); ("preferred", pf')]
      = Ok (inr mx)).
Proof.
  unfold QualityDefinition.check_max.
  match goal with
  | |- context [match ?inner with inl _ => _ | inr _ => _ end] =>
      destruct inner as [e | v]
  end; [discriminate |].
  intros Hrun.
  destruct (Qlt_le_dec (effective_ceiling v - mn) 1) as [Hlt | Hge].
  { destruct (validate_max_spec v [("min", mn); ("preferred", pf)] mn eq_refl)
      as [Hraise _].
    rewrite (Hraise Hlt) in Hrun. discriminate. }
  destruct (validate_max_spec v [("min", mn); ("preferred", pf)] mn eq_refl)
    as [_ Hok].
  rewrite (Hok Hge) in Hrun. injection Hrun as <-.
  assert (effective_ceiling
            match v with
            | Some v0 => if Qle_bool 2000 v0 then None else Some v0
            | None => None
            end == effective_ceiling v) as Hceil.
  { destruct v as [m |]; cbn; [| reflexivity].
    destruct (Qle_bool 2000 m) eqn:E1; cbn;
      destruct (Qle_bool m 2000) eqn:E2; qbool; lra. }
  split; [lra |].
  intros mn' pf' Hgap.
  destruct (validate_max_spec v [("min", mn'); ("preferred", pf')] mn' eq_refl)
    as [_ Hok'].
  rewrite Hok'; [reflexivity | lra].
Qed.

(** Validating a validated [max] again returns it. *)
Lemma check_max_again (max_v : value) (mn pf : Q) (mx : option Q) :
  QualityDefinition.check_max max_v [("min", mn); ("preferred", pf)] = Ok (inr mx) ->
  QualityDefinition.check_max (QualityDefinition.of_float mx)
    [("min", mn); ("preferred", pf)] = Ok (inr mx).
Proof.
  intros Hrun. destruct (check_max_gap _ _ _ _ Hrun) as [Hgap _].
  revert Hrun. unfold QualityDefinition.check_max.
  destruct mx as [m |]; cbn [QualityDefinition.of_float].
  - match goal with
    | |- context [match ?inner with inl _ => _ | inr _ => _ end] =>
        destruct inner as [e | v] eqn:Einner
    end; [discriminate |].
    intros Hrun.
    assert (v = Some m /\ Qle_bool 2000 m = false) as [-> Hm].
    { destruct (Qlt_le_dec (effective_ceiling v - mn) 1) as [Hlt | Hge].
      - destruct (validate_max_spec v [("min", mn); ("preferred", pf)] mn eq_refl)
          as [Hraise _].
        rewrite (Hraise Hlt) in Hrun. discriminate.
      - destruct (validate_max_spec v [("min", mn); ("preferred", pf)] mn eq_refl)
          as [_ Hok].
        rewrite (Hok Hge) in Hrun. destruct v as [v0 |]; [| discriminate].
        destruct (Qle_bool 2000 v0) eqn:E; [discriminate |].
        injection Hrun as <-. auto. }
    assert (QualityDefinition.check_float "max" (Some 1) (Some QUALITYDEFINITION_MAX)
              (VFloat m) = inr m) as ->.
    { destruct max_v; try discriminate;
        match type of Einner with
        | match ?c with inl _ => _ | inr _ => _ end = _ =>
            destruct c as [e' | q'] eqn:Ec; [discriminate |];
            injection Einner as ->; exact (check_float_again _ _ _ _ _ Ec)
        end. }
    exact Hrun.
  - intros _. cbn in Hgap.
    destruct (validate_max_spec None [("min", mn); ("preferred", pf)] mn eq_refl)
      as [_ Hok].
    rewrite Hok; [reflexivity | exact Hgap].
Qed.

Lemma display_title_round (name : string) (title : option string) :
  display_title name
    (if String.eqb (display_title name title) name
     then None
     else Some (display_title name title))
  = display_title name title.
Proof.
  destruct (String.eqb_spec (display_title name title) name) as [Heq | Hne];
    cbn; [congruence |].
  destruct (String.eqb_spec (display_title name title) "") as [Hempty | _];
    [| reflexivity].
  exfalso. apply Hne. revert Hempty. unfold display_title.
  destruct title as [s |]; [| auto].
  destruct (String.eqb_spec s ""); congruence.
Qed.

(** The four compared keys in the changed attributes. *)
Lemma changed_attrs_get (name : string) (l r : QualityDefinition.t) :
  dict_get "title" (changed_attrs name l r)
  = (if title_differs name l r
     then Some (VStr (display_title name (QualityDefinition.title l)))
     else None)
  /\ dict_get "minSize" (changed_attrs name l r)
     = (if min_differs l r then Some (VFloat (QualityDefinition.min l)) else None)
  /\ dict_get "preferredSize" (changed_attrs name l r)
     = (if preferred_differs l r
        then Some (VFloat (QualityDefinition.preferred l))
        else None)
  /\ dict_get "maxSize" (changed_attrs name l r)
     = (if max_differs l r
        then Some (QualityDefinition.of_float (QualityDefinition.max l))
        else None).
Proof.
  unfold changed_attrs.
  destruct (title_differs name l r), (min_differs l r), (preferred_differs l r),
    (max_differs l r); cbn; auto.
Qed.

Lemma dict_merge_changed_get (name : string) (l r : QualityDefinition.t)
    (record : json) (k : string) :
  dict_get k (dict_merge record (changed_attrs name l r))
  = match dict_get k (changed_attrs name l r) with
    | Some v => Some v
    | None => dict_get k record
    end.
Proof.
  destruct (dict_get k (changed_attrs name l r)) as [v |] eqn:E.
  - apply dict_merge_get_Some; [apply changed_attrs_keys | exact E].
  - now apply dict_merge_get_None.
Qed.

(** ** Reading a record: [from_remote] *)

Lemma definition_of_json_Ok_iff (d : json) (name : string) (t : QualityDefinition.t) :
  SonarrQualitySettingsConfig.definition_of_json d = Ok (name, t) <->
  SonarrQualitySettingsConfig.quality_name d = Ok name
  /\ exists title_v min_v preferred_v,
      dict_get "title" d = Some title_v
      /\ dict_get "minSize" d = Some min_v
      /\ dict_get "preferredSize" d = Some preferred_v
      /\ QualityDefinition.new
           (SonarrQualitySettingsConfig.title_of_json name title_v) min_v preferred_v
           (SonarrQualitySettingsConfig.max_of_json d) = Ok t.
Proof.
  unfold SonarrQualitySettingsConfig.definition_of_json, getitem.
  destruct (SonarrQualitySettingsConfig.quality_name d) as [n |] eqn:En; cbn [bind].
  2:{ split; [discriminate | intros [[=] _]]. }
  destruct (dict_get "title" d) as [title_v |]; cbn [bind].
  2:{ split; [discriminate | intros (_ & ? & ? & ? & [=] & _)]. }
  destruct (dict_get "minSize" d) as [min_v |]; cbn [bind].
  2:{ split; [discriminate | intros (_ & ? & ? & ? & _ & [=] & _)]. }
  destruct (dict_get "preferredSize" d) as [preferred_v |]; cbn [bind].
  2:{ split; [discriminate | intros (_ & ? & ? & ? & _ & _ & [=] & _)]. }
  split.
  - destruct (QualityDefinition.new _ min_v preferred_v _) as [q |] eqn:Enew;
      cbn [bind]; [| discriminate].
    intros [= -> ->]. split; [reflexivity |]. eauto 8.
  - intros ([= ->] & tv & mv & pv & [= <-] & [= <-] & [= <-] & Hnew).
    now rewrite Hnew.
Qed.

(** After the update of a changed tier the record reads as a tier equal,
    field by field, to the local one. *)
Lemma definition_of_json_merged (name : string) (l r : QualityDefinition.t)
    (record : json) :
  constructed l ->
  SonarrQualitySettingsConfig.definition_of_json record = Ok (name, r) ->
  exists t',
    SonarrQualitySettingsConfig.definition_of_json
      (dict_merge record (changed_attrs name l r)) = Ok (name, t')
    /\ tier_equal name l t'.
Proof.
  intros (a & b & c & d & Hl) Hr.
  apply new_Ok_iff in Hl. destruct Hl as (_ & Hlmin & Hlpref & Hlmax).
  apply definition_of_json_Ok_iff in Hr.
  destruct Hr as (Hname & tv & mv & pv & Htv & Hmv & Hpv & Hnew).
  apply new_Ok_iff in Hnew. destruct Hnew as (Hrt & Hrmin & Hrpref & Hrmax).
  destruct (changed_attrs_get name l r) as (Gt & Gm & Gp & Gx).
  pose (t' := QualityDefinition.Build
                (if title_differs name l r
                 then (if String.eqb (display_title name (QualityDefinition.title l)) name
                       then None
                       else Some (display_title name (QualityDefinition.title l)))
                 else QualityDefinition.title r)
                (if min_differs l r then QualityDefinition.min l
                 else QualityDefinition.min r)
                (if preferred_differs l r then QualityDefinition.preferred l
                 else QualityDefinition.preferred r)
                (if max_differs l r then QualityDefinition.max l
                 else QualityDefinition.max r)).
  assert (tier_equal name l t') as Heq.
  { unfold tier_equal, t'. cbn.
    unfold title_differs, min_differs, preferred_differs, max_differs.
    repeat split.
    - destruct (String.eqb_spec (display_title name (QualityDefinition.title l))
                  (display_title name (QualityDefinition.title r))) as [E | E]; cbn.
      + exact E.
      + symmetry. apply display_title_round.
    - destruct (Qeq_bool (QualityDefinition.min l) (QualityDefinition.min r)) eqn:E;
        cbn; [now apply Qeq_bool_iff | reflexivity].
    - destruct (Qeq_bool (QualityDefinition.preferred l) (QualityDefinition.preferred r))
        eqn:E; cbn; [now apply Qeq_bool_iff | reflexivity].
    - destruct (option_Qeq_bool (QualityDefinition.max l) (QualityDefinition.max r))
        eqn:E; cbn; [now apply option_Qeq_bool_iff |].
      destruct (QualityDefinition.max l); cbn; [reflexivity | exact I]. }
  exists t'. split; [| exact Heq].
  apply definition_of_json_Ok_iff. split.
  { rewrite quality_name_merge; [exact Hname |].
    apply changed_attrs_other. cbn. intuition discriminate. }
  exists (if title_differs name l r
          then VStr (display_title name (QualityDefinition.title l)) else tv),
    (if min_differs l r then VFloat (QualityDefinition.min l) else mv),
    (if preferred_differs l r then VFloat (QualityDefinition.preferred l) else pv).
  rewrite !dict_merge_changed_get, Gt, Gm, Gp, Htv, Hmv, Hpv.
  repeat split.
  - now destruct (title_differs name l r).
  - now destruct (min_differs l r).
  - now destruct (preferred_differs l r).
  - apply new_Ok_iff. unfold t'. cbn. repeat split.
    + destruct (title_differs name l r); [| exact Hrt]. cbn.
      now destruct (String.eqb (display_title name (QualityDefinition.title l)) name).
    + destruct (min_differs l r); [| exact Hrmin].
      exact (check_float_again _ _ _ _ _ Hlmin).
    + destruct (preferred_differs l r); [| exact Hrpref].
      exact (check_float_again _ _ _ _ _ Hlpref).
    + destruct Heq as (_ & Hmin & _ & Hmax). unfold t' in Hmin, Hmax. cbn in Hmin, Hmax.
      destruct (check_max_gap _ _ _ _ Hlmax) as [Hlgap Hlany].
      pose proof (effective_ceiling_compat _ _ Hmax) as Hceil.
      unfold SonarrQualitySettingsConfig.max_of_json.
      rewrite dict_merge_changed_get, Gx.
      destruct (max_differs l r).
      * destruct (check_max_gap _ _ _ _ (check_max_again _ _ _ _ Hlmax)) as [_ Hany].
        apply Hany. lra.
      * destruct (check_max_gap _ _ _ _ Hrmax) as [_ Hany].
        apply Hany. lra.
Qed.

Lemma last_named_In (name : string) (records : list json) (d : json) :
  last_named name records = Some d ->
  In d records /\ SonarrQualitySettingsConfig.quality_name d = Ok name.
Proof.
  induction records as [| d0 rest IH]; cbn; [discriminate |].
  destruct (last_named name rest) as [d' |].
  - intros [= ->]. destruct (IH eq_refl). auto.
  - destruct (SonarrQualitySettingsConfig.quality_name d0) as [n |] eqn:En;
      [| discriminate].
    destruct (String.eqb_spec n name) as [-> | _]; [| discriminate].
    intros [= <-]. auto.
Qed.

Lemma last_named_map (f : json -> json) (name : string) (records : list json) :
  (forall d, In d records ->
             SonarrQualitySettingsConfig.quality_name (f d)
             = SonarrQualitySettingsConfig.quality_name d) ->
  last_named name (map f records) = option_map f (last_named name records).
Proof.
  induction records as [| d rest IH]; cbn; [reflexivity |].
  intros Hf. rewrite IH by auto.
  destruct (last_named name rest); cbn; [reflexivity |].
  rewrite Hf by auto.
  destruct (SonarrQualitySettingsConfig.quality_name d) as [n |]; [| reflexivity].
  now destruct (String.eqb n name).
Qed.

Lemma from_remote_definitions_spec (records : list json) :
  forall acc defs,
    SonarrQualitySettingsConfig.from_remote_definitions records acc = Ok defs ->
    Forall (fun d => exists n t,
                SonarrQualitySettingsConfig.definition_of_json d = Ok (n, t)) records
    /\ forall name,
        match last_named name records with
        | Some d =>
            exists t,
              SonarrQualitySettingsConfig.definition_of_json d = Ok (name, t)
              /\ dict_get name defs = Some t
        | None => dict_get name defs = dict_get name acc
        end.
Proof.
  induction records as [| d rest IH]; intros acc defs; cbn.
  - intros [= <-]. split; [constructor | reflexivity].
  - destruct (SonarrQualitySettingsConfig.definition_of_json d) as [[n t] |] eqn:Ed;
      cbn [bind]; [| discriminate].
    intros Hrun. destruct (IH _ _ Hrun) as [Hall Hget]. split; [eauto |].
    intros name. specialize (Hget name).
    destruct (last_named name rest) as [d' |]; [exact Hget |].
    assert (SonarrQualitySettingsConfig.quality_name d = Ok n) as ->
        by (apply definition_of_json_Ok_iff in Ed; tauto).
    destruct (String.eqb_spec n name) as [-> | Hne].
    + exists t. split; [exact Ed |]. rewrite Hget. apply dict_get_set_eq.
    + rewrite Hget. now apply dict_get_set_neq.
Qed.

Lemma from_remote_definitions_total (records : list json) :
  Forall (fun d => exists n t,
              SonarrQualitySettingsConfig.definition_of_json d = Ok (n, t)) records ->
  forall acc, exists defs,
    SonarrQualitySettingsConfig.from_remote_definitions records acc = Ok defs.
Proof.
  induction 1 as [| d rest (n & t & Hd) _ IH]; intros acc; cbn; [eauto |].
  rewrite Hd. cbn. apply IH.
Qed.

Lemma dict_set_new {K V : Type} `{Key K} (k : K) (v : V) (d : dict K V) :
  ~ In k (keys d) -> dict_set k v d = d ++ [(k, v)].
Proof.
  induction d as [| [k' v'] d IH]; cbn; [reflexivity |].
  intros Hn. destruct (key_eqb_spec k k') as [-> | Hne]; [tauto |].
  rewrite IH; [reflexivity | tauto].
Qed.

(** With unique ids, [remote_definitions_json] lists the records of the
    response in order. *)
Lemma remote_definitions_json_of_order (records : list json) :
  forall acc rdj,
    SonarrQualitySettingsConfig.remote_definitions_json_of records acc = Ok rdj ->
    NoDup (map SonarrQualitySettingsConfig.definition_id_of records) ->
    (forall d, In d records ->
       forall z, SonarrQualitySettingsConfig.definition_id_of d = Ok z ->
                 ~ In z (keys acc)) ->
    exists zs,
      map SonarrQualitySettingsConfig.definition_id_of records = map Ok zs
      /\ rdj = acc ++ combine zs records.
Proof.
  induction records as [| d rest IH]; intros acc rdj; cbn.
  - intros [= <-] _ _. exists []. now rewrite app_nil_r.
  - destruct (SonarrQualitySettingsConfig.definition_id_of d) as [z |] eqn:Ed;
      cbn [bind]; [| discriminate].
    intros Hrun Hnd Hfresh. inversion Hnd as [| ? ? Hnotin Hnd']; subst.
    rewrite dict_set_new in Hrun by (apply (Hfresh d); auto).
    destruct (IH _ _ Hrun Hnd') as (zs & Hzs & ->).
    + intros d' Hd' z' Hz'. unfold keys. rewrite map_app, in_app_iff. cbn.
      intros [Hin | [<- | []]].
      * apply (Hfresh d' (or_intror Hd') z' Hz' Hin).
      * apply Hnotin. rewrite <- Hz'. now apply in_map.
    + exists (z :: zs). cbn. rewrite Hzs, <- app_assoc. auto.
Qed.

Lemma definition_ids_of_last (zs : list Z) (records : list json) :
  List.length zs = List.length records ->
  forall acc ids,
    SonarrQualitySettingsConfig.definition_ids_of (combine zs records) acc = Ok ids ->
    forall name,
      match last_named name records with
      | Some d => exists z, In (z, d) (combine zs records)
                            /\ dict_get name ids = Some z
      | None => dict_get name ids = dict_get name acc
      end.
Proof.
  revert zs. induction records as [| d rest IH]; intros [| z zs]; cbn;
    try discriminate.
  - intros _ acc ids [= <-] name. reflexivity.
  - intros [= Hlen] acc ids.
    destruct (SonarrQualitySettingsConfig.quality_name d) as [n |] eqn:En;
      cbn [bind]; [| discriminate].
    intros Hrun name. specialize (IH zs Hlen _ _ Hrun name).
    destruct (last_named name rest) as [d' |].
    + destruct IH as (z' & Hin & Hget). eauto.
    + destruct (String.eqb_spec n name) as [-> | Hne].
      * exists z. split; [auto |]. rewrite IH. apply dict_get_set_eq.
      * rewrite IH. now apply dict_get_set_neq.
Qed.

Lemma combine_map_In {A B : Type} (f : A -> result B) (zs : list B) (xs : list A)
    (z : B) (x : A) :
  map f xs = map Ok zs -> In (z, x) (combine zs xs) -> f x = Ok z.
Proof.
  revert zs. induction xs as [| x0 xs IH]; intros [| z0 zs]; cbn;
    try discriminate; try tauto.
  intros [= H0 Hrest] [[= <- <-] | Hin]; [exact H0 | eauto].
Qed.

(** With unique ids, the id found for a quality name is the id of the record
    that speaks for it. *)
Lemma definition_ids_target (records : list json) (rdj : dict Z json)
    (ids : dict string Z) (name : string) (id : Z) :
  NoDup (map SonarrQualitySettingsConfig.definition_id_of records) ->
  SonarrQualitySettingsConfig.remote_definitions_json_of records [] = Ok rdj ->
  SonarrQualitySettingsConfig.definition_ids_of rdj [] = Ok ids ->
  dict_get name ids = Some id ->
  exists d, last_named name records = Some d
            /\ SonarrQualitySettingsConfig.definition_id_of d = Ok id.
Proof.
  intros Hnd Hrdj Hids Hget.
  destruct (remote_definitions_json_of_order _ _ _ Hrdj Hnd) as (zs & Hzs & ->);
    [intros d _ z _ [] |].
  cbn in Hids.
  assert (List.length zs = List.length records) as Hlen.
  { apply (f_equal (@List.length _)) in Hzs. now rewrite !length_map in Hzs. }
  pose proof (definition_ids_of_last zs records Hlen _ _ Hids name) as Hlast.
  destruct (last_named name records) as [d |].
  - destruct Hlast as (z & Hin & Hz). exists d. split; [reflexivity |].
    assert (z = id) as <- by congruence.
    exact (combine_map_In _ _ _ _ _ Hzs Hin).
  - cbn in Hlast. congruence.
Qed.

Lemma update_remote_spec_last (self : SonarrQualitySettingsConfig.t) (tree : string)
    (records : list json) (remote : SonarrQualitySettingsConfig.t)
    (puts : list api_put) (b : bool) :
  NoDup (map SonarrQualitySettingsConfig.definition_id_of records) ->
  SonarrQualitySettingsConfig.from_remote records = Ok remote ->
  SonarrQualitySettingsConfig.update_remote ConfigBase.get_update_remote_attrs
    self tree records remote = (puts, Ok b) ->
  Forall2 (put_for_last remote records) puts
    (filter (changed_entry remote) (SonarrQualitySettingsConfig.definitions self)).
Proof.
  intros Hnd Hremote.
  unfold SonarrQualitySettingsConfig.from_remote in Hremote.
  destruct (SonarrQualitySettingsConfig.from_remote_definitions records [])
    as [defs |] eqn:Edefs; [| discriminate].
  cbn in Hremote. injection Hremote as <-.
  destruct (from_remote_definitions_spec _ _ _ Edefs) as [_ Hlast].
  unfold SonarrQualitySettingsConfig.update_remote.
  destruct (SonarrQualitySettingsConfig.remote_definitions_json_of records [])
    as [rdj | e] eqn:Erdj; [| discriminate].
  destruct (SonarrQualitySettingsConfig.definition_ids_of rdj [])
    as [ids | e] eqn:Eids; [| discriminate].
  intros Hrun. destruct (update_definitions_spec _ _ _ _ _ _ _ _ Hrun) as [Hputs _].
  eapply Forall2_impl; [| exact Hputs].
  intros p [name l] (r & record & Hr & Hid & Hrec & Hbody). cbn [fst snd] in *.
  destruct (definition_ids_target _ _ _ _ _ Hnd Erdj Eids Hid) as (d & Hd & Hdid).
  destruct (indexes_spec _ _ _ Erdj Eids _ _ Hid)
    as (record' & Hrec' & Hin & Hrid & Hname).
  assert (record' = record) as -> by congruence.
  assert (d = record) as ->.
  { apply (NoDup_map_eq _ _ _ _ Hnd); [| exact Hin | congruence].
    now apply last_named_In in Hd. }
  specialize (Hlast name). rewrite Hd in Hlast. destruct Hlast as (t & Ht & Hget).
  cbn in Hr. assert (t = r) as -> by congruence.
  exists r, record. cbn [fst snd]. auto.
Qed.

Lemma server_puts_map (puts : list api_put) :
  NoDup (map put_id puts) ->
  (forall p, In p puts ->
             SonarrQualitySettingsConfig.definition_id_of (put_body p)
             = Ok (put_id p)) ->
  forall records,
    server_puts puts records = map (server_after puts) records.
Proof.
  unfold server_puts.
  induction puts as [| p puts IH]; intros Hnd Hid records; cbn [fold_left].
  - unfold server_after. cbn. induction records as [| d rest IHr]; cbn;
      [reflexivity |].
    rewrite <- IHr.
    now destruct (SonarrQualitySettingsConfig.definition_id_of d).
  - inversion Hnd as [| ? ? Hnotin Hnd']; subst.
    rewrite IH by (auto; intros; apply Hid; now right).
    unfold server_put. rewrite map_map. apply map_ext. intros d.
    unfold server_after at 2. cbn [find].
    destruct (SonarrQualitySettingsConfig.definition_id_of d) as [z |] eqn:Ed.
    + rewrite (Z.eqb_sym (put_id p) z).
      destruct (Z.eqb_spec z (put_id p)) as [-> | Hne].
      * unfold server_after. rewrite (Hid p (or_introl eq_refl)).
        destruct (find (fun p0 => Z.eqb (put_id p0) (put_id p)) puts) as [p' |] eqn:Ef;
          [| reflexivity].
        exfalso. apply find_some in Ef. destruct Ef as [Hin Heq].
        apply Z.eqb_eq in Heq. apply Hnotin. rewrite <- Heq. now apply in_map.
      * unfold server_after. now rewrite Ed.
    + unfold server_after. now rewrite Ed.
Qed.

Lemma Forall2_In_r {A B : Type} (R : A -> B -> Prop) (xs : list A) (ys : list B) :
  Forall2 R xs ys -> forall y, In y ys -> exists x, In x xs /\ R x y.
Proof.
  induction 1 as [| x0 y0 xs ys Hxy _ IH]; intros y; cbn; [tauto |].
  intros [<- | Hin]; [eauto |].
  destruct (IH y Hin) as (x & Hx & Hr). eauto.
Qed.

Lemma NoDup_map_filter {A B : Type} (f : A -> B) (g : A -> bool) (l : list A) :
  NoDup (map f l) -> NoDup (map f (filter g l)).
Proof.
  induction l as [| a l IH]; cbn; [auto |].
  intros Hnd. inversion Hnd as [| ? ? Hnotin Hnd']; subst.
  destruct (g a); cbn; [| auto].
  constructor; [| auto].
  intros Hin. apply Hnotin. apply in_map_iff in Hin.
  destruct Hin as (x & Hfx & Hx). apply filter_In in Hx.
  rewrite <- Hfx. apply in_map. tauto.
Qed.

(** ** A second run after the first *)

Section SecondRun.
Variables (self remote : SonarrQualitySettingsConfig.t) (tree : string)
  (records : list json) (puts : list api_put) (b : bool).

Hypothesis local_keys : NoDup (keys (SonarrQualitySettingsConfig.definitions self)).
Hypothesis local_constructed :
  Forall (fun item => constructed (snd item))
    (SonarrQualitySettingsConfig.definitions self).
Hypothesis unique_ids :
  NoDup (map SonarrQualitySettingsConfig.definition_id_of records).
Hypothesis first_read : SonarrQualitySettingsConfig.from_remote records = Ok remote.
Hypothesis first_run :
  SonarrQualitySettingsConfig.update_remote ConfigBase.get_update_remote_attrs
    self tree records remote = (puts, Ok b).

Let changed_items :=
  filter (changed_entry remote) (SonarrQualitySettingsConfig.definitions self).

Lemma first_puts : Forall2 (put_for_last remote records) puts changed_items.
Proof. exact (update_remote_spec_last _ _ _ _ _ _ unique_ids first_read first_run). Qed.

Lemma put_for_last_id (p : api_put) (item : string * QualityDefinition.t) :
  put_for_last remote records p item ->
  SonarrQualitySettingsConfig.definition_id_of (put_body p) = Ok (put_id p).
Proof.
  intros (r & d & _ & _ & Hid & _ & Hbody). rewrite Hbody.
  rewrite definition_id_of_merge; [exact Hid |].
  apply changed_attrs_other. cbn. intuition discriminate.
Qed.

(** Two calls never go to the same id. *)
Lemma put_ids_distinct (ps : list api_put)
    (items : list (string * QualityDefinition.t)) :
  Forall2 (put_for_last remote records) ps items ->
  NoDup (map fst items) -> NoDup (map put_id ps).
Proof.
  induction 1 as [| p item ps items Hp Hrest IH]; cbn; [constructor |].
  intros Hnd. inversion Hnd as [| ? ? Hnotin Hnd']; subst.
  constructor; [| auto].
  intros Hin. apply in_map_iff in Hin. destruct Hin as (p' & Heq & Hp').
  destruct (Forall2_In_l _ _ _ Hrest p' Hp') as (item' & Hitem' & Hfor').
  apply Hnotin.
  destruct Hp as (r & d & _ & Hd & Hid & _).
  destruct Hfor' as (r' & d' & _ & Hd' & Hid' & _).
  apply last_named_In in Hd, Hd'.
  assert (d = d') as <-
      by (apply (NoDup_map_eq _ _ _ _ unique_ids); [tauto | tauto | congruence]).
  assert (fst item = fst item') as -> by (destruct Hd, Hd'; congruence).
  now apply in_map.
Qed.

Lemma first_put_ids : NoDup (map put_id puts).
Proof.
  apply (put_ids_distinct _ _ first_puts).
  apply NoDup_map_filter. exact local_keys.
Qed.

Lemma server_after_first :
  server_puts puts records = map (server_after puts) records.
Proof.
  apply server_puts_map; [exact first_put_ids |].
  intros p Hp. destruct (Forall2_In_l _ _ _ first_puts p Hp) as (item & _ & Hfor).
  exact (put_for_last_id _ _ Hfor).
Qed.

Lemma first_read_spec :
  Forall (fun d => exists n t,
              SonarrQualitySettingsConfig.definition_of_json d = Ok (n, t)) records
  /\ forall name,
      match last_named name records with
      | Some d =>
          exists t,
            SonarrQualitySettingsConfig.definition_of_json d = Ok (name, t)
            /\ dict_get name (SonarrQualitySettingsConfig.definitions remote) = Some t
      | None =>
          dict_get name (SonarrQualitySettingsConfig.definitions remote) = None
      end.
Proof.
  unfold SonarrQualitySettingsConfig.from_remote in first_read.
  destruct (SonarrQualitySettingsConfig.from_remote_definitions records [])
    as [defs |] eqn:Edefs; [| discriminate].
  cbn in first_read. injection first_read as <-.
  exact (from_remote_definitions_spec _ _ _ Edefs).
Qed.

(** Every record of the server reads, after the first run, as a tier of the
    same quality, under the same id. *)
Lemma server_after_reads (d : json) :
  In d records ->
  exists n t t',
    SonarrQualitySettingsConfig.definition_of_json d = Ok (n, t)
    /\ SonarrQualitySettingsConfig.definition_of_json (server_after puts d)
       = Ok (n, t')
    /\ SonarrQualitySettingsConfig.definition_id_of (server_after puts d)
       = SonarrQualitySettingsConfig.definition_id_of d.
Proof.
  intros Hd. destruct first_read_spec as [Hall _].
  rewrite Forall_forall in Hall. destruct (Hall d Hd) as (n & t & Ht).
  unfold server_after.
  destruct (SonarrQualitySettingsConfig.definition_id_of d) as [z |] eqn:Ez;
    [| exists n, t, t; auto].
  destruct (find (fun p => Z.eqb (put_id p) z) puts) as [p |] eqn:Ef;
    [| exists n, t, t; auto].
  apply find_some in Ef. destruct Ef as [Hp Hz]. apply Z.eqb_eq in Hz.
  destruct (Forall2_In_l _ _ _ first_puts p Hp) as ([name l] & Hitem & Hfor).
  pose proof (put_for_last_id _ _ Hfor) as Hid.
  destruct Hfor as (r & d0 & Hr & Hd0 & Hid0 & Hjson & Hbody). cbn [fst snd] in *.
  assert (d0 = d) as ->.
  { apply (NoDup_map_eq _ _ _ _ unique_ids); [| exact Hd | congruence].
    now apply last_named_In in Hd0. }
  assert (n = name /\ t = r) as [-> ->] by (split; congruence).
  assert (constructed l) as Hl.
  { apply filter_In in Hitem. destruct Hitem as [Hitem _].
    rewrite Forall_forall in local_constructed.
    exact (local_constructed _ Hitem). }
  destruct (definition_of_json_merged name l r d Hl Hjson) as (t' & Ht' & _).
  exists name, r, t'. rewrite Hbody. repeat split; auto.
  rewrite <- Hbody, Hid. congruence.
Qed.

Lemma server_after_name (d : json) :
  In d records ->
  SonarrQualitySettingsConfig.quality_name (server_after puts d)
  = SonarrQualitySettingsConfig.quality_name d.
Proof.
  intros Hd. destruct (server_after_reads d Hd) as (n & t & t' & H1 & H2 & _).
  apply definition_of_json_Ok_iff in H1, H2. destruct H1, H2. congruence.
Qed.

(** The first run found every local quality name in the remote. *)
Lemma first_run_found (item : string * QualityDefinition.t) :
  In item (SonarrQualitySettingsConfig.definitions self) ->
  exists r d,
    dict_get (fst item) (SonarrQualitySettingsConfig.definitions remote) = Some r
    /\ last_named (fst item) records = Some d
    /\ SonarrQualitySettingsConfig.definition_of_json d = Ok (fst item, r).
Proof.
  intros Hitem. destruct first_read_spec as [_ Hlast].
  specialize (Hlast (fst item)).
  destruct (last_named (fst item) records) as [d |].
  - destruct Hlast as (t & Ht & Hget). eauto.
  - exfalso. revert first_run.
    unfold SonarrQualitySettingsConfig.update_remote.
    destruct (SonarrQualitySettingsConfig.remote_definitions_json_of records [])
      as [rdj | e]; [| discriminate].
    destruct (SonarrQualitySettingsConfig.definition_ids_of rdj [])
      as [ids | e]; [| discriminate].
    destruct (update_definitions_missing ConfigBase.get_update_remote_attrs tree
                remote rdj ids (SonarrQualitySettingsConfig.definitions self)
                (fst item) (in_map fst _ _ Hitem) Hlast false)
      as (ps & e & -> & _).
    discriminate.
Qed.

(** After the first run every local tier equals, field by field, the tier
    read from the record that speaks for its name. *)
Lemma server_after_in_sync (item : string * QualityDefinition.t) :
  In item (SonarrQualitySettingsConfig.definitions self) ->
  exists d t',
    last_named (fst item) records = Some d
    /\ SonarrQualitySettingsConfig.definition_of_json (server_after puts d)
       = Ok (fst item, t')
    /\ tier_equal (fst item) (snd item) t'.
Proof.
  intros Hitem. destruct (first_run_found item Hitem) as (r & d & Hr & Hd & Hjson).
  exists d. destruct (last_named_In _ _ _ Hd) as [Hin Hname].
  destruct (changed_entry remote item) eqn:Echanged.
  - assert (In item changed_items) as Hc by (apply filter_In; auto).
    destruct (Forall2_In_r _ _ _ first_puts item Hc) as (p & Hp & Hfor).
    pose proof Hfor as (r0 & d0 & Hr0 & Hd0 & Hid0 & _ & Hbody).
    assert (d0 = d) as -> by congruence.
    assert (r0 = r) as -> by congruence.
    assert (server_after puts d = put_body p) as ->.
    { unfold server_after. rewrite Hid0.
      destruct (find (fun p0 => Z.eqb (put_id p0) (put_id p)) puts) as [p' |] eqn:Ef.
      - apply find_some in Ef. destruct Ef as [Hp' Heq]. apply Z.eqb_eq in Heq.
        now rewrite (NoDup_map_eq _ _ _ _ first_put_ids Hp' Hp Heq).
      - exfalso. apply (find_none _ _ Ef) in Hp. now rewrite Z.eqb_refl in Hp. }
    rewrite Hbody. destruct item as [name l]. cbn [fst snd] in *.
    assert (constructed l) as Hl.
    { rewrite Forall_forall in local_constructed.
      exact (local_constructed _ Hitem). }
    destruct (definition_of_json_merged name l r d Hl Hjson) as (t' & Ht' & Heq).
    eauto.
  - assert (tier_equal (fst item) (snd item) r) as Heq.
    { unfold changed_entry in Echanged. rewrite Hr in Echanged.
      now apply tier_differs_false. }
    assert (server_after puts d = d) as ->; [| eauto].
    unfold server_after.
    destruct (SonarrQualitySettingsConfig.definition_id_of d) as [z |] eqn:Ez;
      [| reflexivity].
    destruct (find (fun p => Z.eqb (put_id p) z) puts) as [p |] eqn:Ef;
      [| reflexivity].
    exfalso. apply find_some in Ef. destruct Ef as [Hp Hz]. apply Z.eqb_eq in Hz.
    destruct (Forall2_In_l _ _ _ first_puts p Hp) as (item' & Hitem' & Hfor).
    destruct Hfor as (r' & d' & _ & Hd' & Hid' & _).
    destruct (last_named_In _ _ _ Hd') as [Hin' Hname'].
    assert (d' = d) as ->
        by (apply (NoDup_map_eq _ _ _ _ unique_ids); [tauto | tauto | congruence]).
    assert (fst item' = fst item) as Hfst by congruence.
    apply filter_In in Hitem'. destruct Hitem' as [Hitem' Hchanged'].
    assert (item' = item) as ->.
    { destruct item as [n l], item' as [n' l']. cbn in Hfst. subst n'.
      f_equal.
      apply (In_dict_get _ _ _ local_keys) in Hitem, Hitem'. congruence. }
    congruence.
Qed.
End SecondRun.

Lemma remote_definitions_json_of_ids (records : list json) :
  forall acc rdj,
    SonarrQualitySettingsConfig.remote_definitions_json_of records acc = Ok rdj ->
    Forall (fun d => exists z,
                SonarrQualitySettingsConfig.definition_id_of d = Ok z) records.
Proof.
  induction records as [| d rest IH]; intros acc rdj; cbn; [constructor |].
  destruct (SonarrQualitySettingsConfig.definition_id_of d) as [z |] eqn:Ed;
    cbn [bind]; [| discriminate].
  intros Hrun. constructor; [eauto | exact (IH _ _ Hrun)].
Qed.

(** C2.  Reconciliation is idempotent.  Take a local profile of constructed
    tiers and a server whose records have distinct ids; when a run (read the
    remote state, then [update_remote]) completes, a second run against the
    records the first run left on the server calls [api_put] not once and
    returns [False]. *)
Theorem reconcile_idempotent (self : SonarrQualitySettingsConfig.t) (tree : string)
    (records : list json) (puts : list api_put) (b : bool) :
  NoDup (keys (SonarrQualitySettingsConfig.definitions self)) ->
  Forall (fun item => constructed (snd item))
    (SonarrQualitySettingsConfig.definitions self) ->
  NoDup (map SonarrQualitySettingsConfig.definition_id_of records) ->
  run self tree records = (puts, Ok b) ->
  run self tree (server_puts puts records) = ([], Ok false).
Proof.
  intros Hkeys Hcons Hids Hrun. unfold run in Hrun.
  destruct (SonarrQualitySettingsConfig.from_remote records) as [remote |] eqn:Eremote;
    [| discriminate].
  rewrite (server_after_first self remote tree records puts b Hkeys Hids Eremote Hrun).
  assert (Forall (fun d => exists z,
                      SonarrQualitySettingsConfig.definition_id_of d = Ok z) records)
    as Hidok.
  { revert Hrun. unfold SonarrQualitySettingsConfig.update_remote.
    destruct (SonarrQualitySettingsConfig.remote_definitions_json_of records [])
      as [rdj | e] eqn:Erdj; [| discriminate].
    intros _. exact (remote_definitions_json_of_ids _ _ _ Erdj). }
  assert (forall d, In d records ->
            exists n t t',
              SonarrQualitySettingsConfig.definition_of_json d = Ok (n, t)
              /\ SonarrQualitySettingsConfig.definition_of_json (server_after puts d)
                 = Ok (n, t')
              /\ SonarrQualitySettingsConfig.definition_id_of (server_after puts d)
                 = SonarrQualitySettingsConfig.definition_id_of d) as Hreads.
  { intros d Hd.
    eapply server_after_reads; eassumption. }
  assert (Forall (fun d => exists n t,
                      SonarrQualitySettingsConfig.definition_of_json d = Ok (n, t))
            (map (server_after puts) records)) as Hall.
  { apply Forall_forall. intros d' Hd'. apply in_map_iff in Hd'.
    destruct Hd' as (d & <- & Hd).
    destruct (Hreads d Hd) as (n & t & t' & _ & Ht' & _). eauto. }
  assert (Forall well_formed (map (server_after puts) records)) as Hwf.
  { apply Forall_forall. intros d' Hd'. apply in_map_iff in Hd'.
    destruct Hd' as (d & <- & Hd).
    destruct (Hreads d Hd) as (n & t & t' & _ & Ht' & Hid).
    rewrite Forall_forall in Hidok. destruct (Hidok d Hd) as [z Hz].
    split.
    - exists z. congruence.
    - exists n. apply definition_of_json_Ok_iff in Ht'. tauto. }
  destruct (from_remote_definitions_total _ Hall []) as [defs' Edefs'].
  destruct (remote_definitions_json_of_total _ Hwf [] (Forall_nil _))
    as (rdj' & Erdj' & Hrdj').
  destruct (definition_ids_of_total _ Hrdj' []) as [ids' Eids'].
  unfold run, SonarrQualitySettingsConfig.from_remote. rewrite Edefs'. cbn [bind].
  unfold SonarrQualitySettingsConfig.update_remote. rewrite Erdj', Eids'.
  apply update_definitions_in_sync.
  apply Forall_forall. intros item Hitem. cbn.
  destruct (server_after_in_sync self remote tree records puts b Hkeys Hcons Hids
              Eremote Hrun item Hitem) as (d & t' & Hd & Ht' & Heq).
  exists t'. split; [| exact Heq].
  destruct (from_remote_definitions_spec _ _ _ Edefs') as [_ Hlast].
  specialize (Hlast (fst item)).
  rewrite last_named_map, Hd in Hlast.
  - cbn in Hlast. destruct Hlast as (t & Ht & Hget). congruence.
  - intros d0 Hd0.
    eapply server_after_name; eassumption.
Qed.

Lemma reconcile_idempotent_witness :
  run example_local "quality" (server_puts [example_put] example_server)
  = ([], Ok false).
Proof.
  apply (reconcile_idempotent example_local "quality" example_server
           [example_put] true).
  - repeat constructor. cbn. tauto.
  - repeat constructor. exists VNone, (VInt 2), (VInt 5), (VInt 100). reflexivity.
  - repeat constructor; cbn; intuition discriminate.
  - reflexivity.
Defined.

(** * Further properties of the code *)

(** ** The constructor *)

Lemma check_float_bounds (field : string) (lo hi : option Q) (v : value) (q : Q) :
  QualityDefinition.check_float field lo hi v = inr q ->
  (forall l, lo = Some l -> l <= q) /\ (forall h, hi = Some h -> q <= h).
Proof.
  unfold QualityDefinition.check_float.
  destruct (QualityDefinition.to_float v) as [q0 |]; [| discriminate].
  unfold QualityDefinition.check_range.
  destruct lo as [l |], hi as [h |].
  - destruct (Qltb q0 l) eqn:E1; [discriminate |].
    destruct (Qltb h q0) eqn:E2; [discriminate |].
    intros [= <-]. qbool. split; intros x [= <-]; assumption.
  - destruct (Qltb q0 l) eqn:E1; [discriminate |].
    intros [= <-]. qbool. split; [intros x [= <-]; assumption | discriminate].
  - destruct (Qltb h q0) eqn:E2; [discriminate |].
    intros [= <-]. qbool. split; [discriminate | intros x [= <-]; assumption].
  - intros [= <-]. split; discriminate.
Qed.

Lemma check_max_Some (max_v : value) (mn pf m : Q) :
  QualityDefinition.check_max max_v [("min", mn); ("preferred", pf)]
  = Ok (inr (Some m)) ->
  1 <= m /\ m < 2000.
Proof.
  intros Hrun. apply check_max_again in Hrun. revert Hrun.
  unfold QualityDefinition.check_max. cbn [QualityDefinition.of_float].
  destruct (QualityDefinition.check_float "max" (Some 1) (Some QUALITYDEFINITION_MAX)
              (VFloat m)) as [e | q] eqn:Ec; [discriminate |].
  destruct (check_float_bounds _ _ _ _ _ Ec) as [Hlo _].
  pose proof (check_float_again _ _ _ _ _ Ec) as Hq.
  unfold QualityDefinition.check_float in Ec. cbn [QualityDefinition.to_float] in Ec.
  pose proof (check_range_inr _ _ _ _ _ Ec) as ->.
  specialize (Hlo 1 eq_refl).
  unfold QualityDefinition.validate_max, getitem. cbn [dict_get key_eqb string_Key].
  cbn [String.eqb Ascii.eqb Bool.eqb bind]. unfold QUALITYDEFINITION_MAX.
  rewrite py_min_ceiling.
  destruct (Qle_bool 2000 (effective_ceiling (Some m))) eqn:E.
  - destruct (Qltb (effective_ceiling (Some m) - mn) 1); discriminate.
  - intros _. split; [exact Hlo |]. cbn in E.
    destruct (Qle_bool m 2000) eqn:E'; qbool; lra.
Qed.

(** X1.  Every tier the constructor returns satisfies the domain invariant:
    [min] is in [0, 1998], [preferred] is not negative, a present [max] is in
    [1, 2000) (the ceiling itself having become [None]), and the effective
    ceiling exceeds [min] by more than [1 - 2^-53], so by 1 up to the
    rounding of the subtraction in [validate_max]. *)
Theorem new_invariant (title_v min_v preferred_v max_v : value)
    (t : QualityDefinition.t) :
  QualityDefinition.new title_v min_v preferred_v max_v = Ok t ->
  min_in_range (QualityDefinition.min t)
  /\ preferred_in_range (QualityDefinition.preferred t)
  /\ match QualityDefinition.max t with
     | Some m => 1 <= m /\ m < 2000
     | None => True
     end
  /\ rounding_margin
     < effective_ceiling (QualityDefinition.max t) - QualityDefinition.min t.
Proof.
  intros Hnew. apply new_Ok_iff in Hnew. destruct Hnew as (_ & Hmin & Hpref & Hmax).
  destruct (check_float_bounds _ _ _ _ _ Hmin) as [Hlo Hhi].
  destruct (check_float_bounds _ _ _ _ _ Hpref) as [Hplo _].
  destruct (check_max_gap _ _ _ _ Hmax) as [Hgap _].
  repeat split.
  - exact (Hlo 0 eq_refl).
  - exact (Hhi _ eq_refl).
  - exact (Hplo 0 eq_refl).
  - destruct (QualityDefinition.max t) as [m |] eqn:Em; [| exact I].
    exact (check_max_Some _ _ _ _ Hmax).
  - unfold rounding_margin. lra.
Qed.

Lemma new_invariant_witness :
  rounding_margin < effective_ceiling (Some 100) - 2.
Proof.
  exact (proj2 (proj2 (proj2
           (new_invariant VNone (VInt 2) (VInt 5) (VInt 100)
              (QualityDefinition.Build None 2 5 (Some 100)) eq_refl)))).
Defined.

(** X2.  Constructing a tier again from the fields of a constructed tier
    returns the same tier: validation, with its normalisation of [max], is
    idempotent. *)
Theorem init_again (t : QualityDefinition.t) :
  constructed t ->
  QualityDefinition.init (QualityDefinition.title t) (QualityDefinition.min t)
    (QualityDefinition.preferred t) (QualityDefinition.max t) = Ok t.
Proof.
  intros (a & b & c & d & Hnew). apply new_Ok_iff in Hnew.
  destruct Hnew as (_ & Hmin & Hpref & Hmax).
  apply new_Ok_iff. repeat split.
  - now destruct (QualityDefinition.title t).
  - exact (check_float_again _ _ _ _ _ Hmin).
  - exact (check_float_again _ _ _ _ _ Hpref).
  - exact (check_max_again _ _ _ _ Hmax).
Qed.

Lemma init_again_witness :
  QualityDefinition.init (Some "HD") 2 5 None
  = Ok (QualityDefinition.Build (Some "HD") 2 5 None).
Proof.
  apply (init_again (QualityDefinition.Build (Some "HD") 2 5 None)).
  exists (VStr "HD"), (VInt 2), (VInt 5), (VInt 2000). reflexivity.
Defined.

(** X3.  [preferred] has no upper bound and is compared with neither [min]
    nor [max]: where a construction succeeds, it succeeds with any other
    [preferred] that is not negative, and gives the same tier but for that
    field. *)
Theorem preferred_unbounded (title_a : option string) (min_a preferred_a : Q)
    (max_a : option Q) (t : QualityDefinition.t) (preferred_b : Q) :
  QualityDefinition.init title_a min_a preferred_a max_a = Ok t ->
  0 <= preferred_b ->
  QualityDefinition.init title_a min_a preferred_b max_a
  = Ok (QualityDefinition.Build (QualityDefinition.title t) (QualityDefinition.min t)
          preferred_b (QualityDefinition.max t)).
Proof.
  unfold QualityDefinition.init. intros Hnew Hb.
  apply new_Ok_iff in Hnew. destruct Hnew as (Ht & Hmin & _ & Hmax).
  apply new_Ok_iff.
  cbn [QualityDefinition.title QualityDefinition.min QualityDefinition.preferred
       QualityDefinition.max].
  split; [exact Ht | split; [exact Hmin | split]].
  - now apply check_float_ge.
  - destruct (check_max_gap _ _ _ _ Hmax) as [Hgap Hany]. now apply Hany.
Qed.

Lemma preferred_unbounded_witness :
  QualityDefinition.init None 2 5000 (Some 100)
  = Ok (QualityDefinition.Build None 2 5000 (Some 100)).
Proof.
  apply (preferred_unbounded None 2 5 (Some 100)
           (QualityDefinition.Build None 2 5 (Some 100)) 5000).
  - reflexivity.
  - lra.
Defined.

(** X4.  The constructor leaves with the bare [KeyError] of
    [info.data["min"]], instead of a validation error, exactly when [min] is
    rejected by its own range check while [max] passes its own: the
    validator of [max] then runs without a validated [min]. *)
Theorem init_key_error (title_a : option string) (min_a preferred_a : Q)
    (max_a : option Q) :
  QualityDefinition.init title_a min_a preferred_a max_a = Err (KeyError (VStr "min"))
  <-> ~ min_in_range min_a /\ max_in_range max_a.
Proof.
  unfold QualityDefinition.init, QualityDefinition.new, QualityDefinition.check_max,
    QualityDefinition.validate_max, QualityDefinition.check_float,
    QualityDefinition.check_range, getitem,
    QUALITYDEFINITION_MIN_MAX, QUALITYDEFINITION_MAX.
  cbn [QualityDefinition.to_float].
  assert (QualityDefinition.check_title (QualityDefinition.of_title title_a)
          = inr title_a) as -> by (destruct title_a; reflexivity).
  unfold min_in_range, max_in_range.
  destruct (Qltb min_a 0) eqn:E1; [| destruct (Qltb 1998 min_a) eqn:E2];
    (destruct (Qltb preferred_a 0) eqn:E3);
    (destruct max_a as [m |];
     cbn [QualityDefinition.of_float QualityDefinition.to_float];
     [destruct (Qltb m 1) eqn:E4; [| destruct (Qltb 2000 m) eqn:E5] |]);
    cbn;
    try (destruct (Qle_bool 2000 (py_min m 2000));
         destruct (Qltb (py_min m 2000 - min_a) 1); cbn);
    try (destruct (Qltb (2000 - min_a) 1); cbn);
    qbool;
    (split;
     [ intros Hk;
       first [ discriminate Hk
             | split; [intros [? ?]; lra | first [exact I | lra]] ]
     | intros [Hn Hm];
       first [ reflexivity | exfalso; lra | exfalso; apply Hn; lra ] ]).
Qed.

Lemma init_key_error_witness :
  QualityDefinition.init None (-1) 5 (Some 100) = Err (KeyError (VStr "min")).
Proof.
  apply (proj2 (init_key_error None (-1) 5 (Some 100))).
  split.
  - unfold min_in_range. lra.
  - unfold max_in_range. lra.
Defined.

(** ** Loading defaults *)

(** X5.  [_render] leaves the profile alone, whatever the directory holds,
    exactly when [uses_trash_metadata] is false. *)
Theorem render_noop_iff (self : SonarrQualitySettingsConfig.t) :
  SonarrQualitySettingsConfig.uses_trash_metadata self = false
  <-> forall files, SonarrQualitySettingsConfig._render self files = (self, Ok tt).
Proof.
  destruct self as [trash defs].
  unfold SonarrQualitySettingsConfig.uses_trash_metadata,
    SonarrQualitySettingsConfig._render. cbn.
  destruct trash as [tid |]; [| split; auto].
  destruct (String.eqb tid "") eqn:E; cbn; [split; auto |].
  split; [discriminate |].
  intros Hall. specialize (Hall []). cbn in Hall. discriminate.
Qed.

Lemma render_qualities_present (qualities : list Trash.definition_json)
    (defs : dict string QualityDefinition.t) :
  (forall e, In e qualities -> dict_mem (Trash.quality e) defs = true) ->
  SonarrQualitySettingsConfig.render_qualities qualities defs = (defs, Ok tt).
Proof.
  induction qualities as [| e rest IH]; cbn; [reflexivity |].
  intros Hall. rewrite (Hall e (or_introl eq_refl)). apply IH. auto.
Qed.

(** X7.  Loading defaults is idempotent: when [_render] returns, a second
    [_render] over the same directory returns too and changes nothing. *)
Theorem render_idempotent (self self' : SonarrQualitySettingsConfig.t)
    (files : list Trash.quality_json) :
  SonarrQualitySettingsConfig._render self files = (self', Ok tt) ->
  SonarrQualitySettingsConfig._render self' files = (self', Ok tt).
Proof.
  destruct self as [trash defs]. unfold SonarrQualitySettingsConfig._render. cbn.
  destruct trash as [tid |]; [| now intros [= <-]].
  destruct (String.eqb tid "") eqn:Etid; [intros [= <-]; cbn; now rewrite Etid |].
  destruct (SonarrQualitySettingsConfig.render_files tid files defs)
    as [defs' r] eqn:Erun.
  intros [= <- ->]. cbn. rewrite Etid.
  destruct (find (matches tid) files) as [doc |] eqn:Efind.
  2:{ rewrite (render_files_not_found _ _ _ Efind) in Erun. discriminate. }
  rewrite (render_files_found _ _ _ _ Efind) in Erun.
  rewrite (render_files_found _ _ _ _ Efind).
  rewrite render_qualities_present; [reflexivity |].
  intros e He. unfold dict_mem.
  destruct (render_qualities_spec _ _ _ Erun) as [Hkeep Hnew].
  destruct (dict_get (Trash.quality e) defs) as [q |] eqn:Eq.
  - now rewrite (Hkeep _ _ Eq).
  - specialize (Hnew _ Eq).
    destruct (find (named (Trash.quality e)) (Trash.qualities doc)) as [e' |] eqn:Ef.
    + destruct Hnew as (q & _ & ->). reflexivity.
    + exfalso. apply (find_none _ _ Ef) in He. unfold named in He.
      now rewrite String.eqb_refl in He.
Qed.

Lemma render_idempotent_witness :
  SonarrQualitySettingsConfig._render example_rendered [example_document]
  = (example_rendered, Ok tt).
Proof.
  exact (render_idempotent example_profile example_rendered [example_document]
           eq_refl).
Defined.

(** X8.  [_render] uses the first document whose lowered id is the
    configured id and nothing else of the directory: the documents before
    it and after it have no influence on the outcome. *)
Theorem render_first_match (self : SonarrQualitySettingsConfig.t) (tid : string)
    (before after : list Trash.quality_json) (doc : Trash.quality_json) :
  SonarrQualitySettingsConfig.trash_id self = Some tid ->
  Forall (fun d => matches tid d = false) before ->
  matches tid doc = true ->
  SonarrQualitySettingsConfig._render self (before ++ doc :: after)
  = SonarrQualitySettingsConfig._render self [doc].
Proof.
  destruct self as [trash defs]. cbn. intros -> Hbefore Hdoc.
  unfold SonarrQualitySettingsConfig._render. cbn.
  destruct (String.eqb tid ""); [reflexivity |].
  assert (find (matches tid) (before ++ doc :: after) = Some doc) as Hfind.
  { induction Hbefore as [| d rest Hd _ IH]; cbn; [now rewrite Hdoc |].
    now rewrite Hd. }
  rewrite (render_files_found _ _ _ _ Hfind).
  unfold matches in Hdoc. now rewrite Hdoc.
Qed.

Lemma render_first_match_witness :
  SonarrQualitySettingsConfig._render example_profile
    ([ {| Trash.trash_id := "0123"; Trash.qualities := [] |} ]
       ++ example_document
       :: [ {| Trash.trash_id := "abc"; Trash.qualities := [] |} ])
  = SonarrQualitySettingsConfig._render example_profile [example_document].
Proof.
  apply (render_first_match example_profile "abc").
  - reflexivity.
  - repeat constructor.
  - reflexivity.
Defined.

Lemma render_qualities_appends (qualities : list Trash.definition_json) :
  forall defs defs' r,
    SonarrQualitySettingsConfig.render_qualities qualities defs = (defs', r) ->
    exists added,
      defs' = defs ++ added
      /\ (forall item, In item added ->
            exists e, In e qualities /\ Trash.quality e = fst item
                      /\ default_of e = Ok (snd item))
      /\ (NoDup (keys defs) -> NoDup (keys defs')).
Proof.
  induction qualities as [| e rest IH]; intros defs defs' r; cbn.
  - intros [= <- <-]. exists []. rewrite app_nil_r. repeat split; auto.
    intros item [].
  - unfold dict_mem.
    destruct (dict_get (Trash.quality e) defs) as [q0 |] eqn:Emem.
    + intros Hrun. destruct (IH _ _ _ Hrun) as (added & -> & Hfrom & Hnd).
      exists added. repeat split; auto.
      intros item Hitem. destruct (Hfrom item Hitem) as (e' & He' & Hrest). eauto.
    + fold (default_of e). destruct (default_of e) as [q |] eqn:Enew.
      2:{ intros [= <- <-]. exists []. rewrite app_nil_r. repeat split; auto.
          intros item []. }
      intros Hrun. destruct (IH _ _ _ Hrun) as (added & -> & Hfrom & Hnd).
      apply dict_get_None in Emem.
      rewrite (dict_set_new _ _ _ Emem), <- app_assoc in *.
      exists ((Trash.quality e, q) :: added). cbn. repeat split.
      * intros item [<- | Hitem]; [exists e; auto |].
        destruct (Hfrom item Hitem) as (e' & He' & Hrest). eauto.
      * intros Hdefs. apply Hnd.
        rewrite <- (dict_set_new _ _ _ Emem). now apply NoDup_dict_set.
Qed.

(** X9.  However [_render] ends, it has only appended to [definitions]: the
    entries that were there keep their place and value, each new entry is
    the default tier of an entry of a document, and keys that were unique
    stay unique. *)
Theorem render_appends (self self' : SonarrQualitySettingsConfig.t)
    (files : list Trash.quality_json) (r : result unit) :
  SonarrQualitySettingsConfig._render self files = (self', r) ->
  exists added,
    SonarrQualitySettingsConfig.definitions self'
    = SonarrQualitySettingsConfig.definitions self ++ added
    /\ (forall item, In item added ->
          exists doc e, In doc files /\ In e (Trash.qualities doc)
                        /\ Trash.quality e = fst item
                        /\ default_of e = Ok (snd item))
    /\ (NoDup (keys (SonarrQualitySettingsConfig.definitions self)) ->
        NoDup (keys (SonarrQualitySettingsConfig.definitions self'))).
Proof.
  destruct self as [trash defs]. unfold SonarrQualitySettingsConfig._render. cbn.
  assert (forall x : dict string QualityDefinition.t,
             exists added : dict string QualityDefinition.t,
               x = x ++ added
               /\ (forall item, In item added ->
                     exists doc e, In doc files /\ In e (Trash.qualities doc)
                                   /\ Trash.quality e = fst item
                                   /\ default_of e = Ok (snd item))
               /\ (NoDup (keys x) -> NoDup (keys x))) as Hnil.
  { intros x. exists []. rewrite app_nil_r. repeat split; auto. intros item []. }
  destruct trash as [tid |]; [| intros [= <- <-]; apply Hnil].
  destruct (String.eqb tid ""); [intros [= <- <-]; apply Hnil |].
  destruct (SonarrQualitySettingsConfig.render_files tid files defs)
    as [defs' r'] eqn:Erun.
  intros [= <- <-]. cbn.
  destruct (find (matches tid) files) as [doc |] eqn:Efind.
  - rewrite (render_files_found _ _ _ _ Efind) in Erun.
    destruct (render_qualities_appends _ _ _ _ Erun) as (added & -> & Hfrom & Hnd).
    exists added. repeat split; auto.
    intros item Hitem. destruct (Hfrom item Hitem) as (e & He & Hrest).
    exists doc, e. apply find_some in Efind. tauto.
  - rewrite (render_files_not_found _ _ _ Efind) in Erun.
    injection Erun as <- <-. apply Hnil.
Qed.

Lemma render_appends_witness :
  exists added,
    SonarrQualitySettingsConfig.definitions example_rendered
    = SonarrQualitySettingsConfig.definitions example_profile ++ added.
Proof.
  destruct (render_appends example_profile example_rendered [example_document]
              (Ok tt) eq_refl) as (added & Heq & _).
  exists added. exact Heq.
Defined.

(** ** Reading the remote state *)

Lemma last_named_None (name : string) (records : list json) :
  last_named name records = None <->
  forall d, In d records -> SonarrQualitySettingsConfig.quality_name d <> Ok name.
Proof.
  induction records as [| d0 rest IH]; cbn; [tauto |].
  destruct (last_named name rest) as [d' |].
  - split; [discriminate |]. intros Hall.
    assert (Some d' = None) as Habs; [| discriminate].
    apply IH. auto.
  - destruct (SonarrQualitySettingsConfig.quality_name d0) as [n |] eqn:En.
    + destruct (String.eqb_spec n name) as [-> | Hne].
      * split; [discriminate |]. intros Hall. exfalso.
        exact (Hall d0 (or_introl eq_refl) En).
      * split; [| reflexivity]. intros _ d [<- | Hd]; [congruence |].
        now apply (proj1 IH eq_refl).
    + split; [| reflexivity]. intros _ d [<- | Hd]; [congruence |].
      now apply (proj1 IH eq_refl).
Qed.

Lemma last_named_app (name : string) (before after : list json) (d : json) :
  SonarrQualitySettingsConfig.quality_name d = Ok name ->
  (forall d', In d' after -> SonarrQualitySettingsConfig.quality_name d' <> Ok name) ->
  last_named name (before ++ d :: after) = Some d.
Proof.
  intros Hd Hafter. apply last_named_None in Hafter.
  induction before as [| d0 rest IH]; cbn.
  - rewrite Hafter, Hd. now rewrite String.eqb_refl.
  - now rewrite IH.
Qed.

Lemma from_remote_definitions_keeps (records : list json) :
  forall acc defs,
    SonarrQualitySettingsConfig.from_remote_definitions records acc = Ok defs ->
    (NoDup (keys acc) -> NoDup (keys defs))
    /\ (Forall (fun item => constructed (snd item)) acc ->
        Forall (fun item => constructed (snd item)) defs).
Proof.
  induction records as [| d rest IH]; intros acc defs; cbn.
  - intros [= <-]. auto.
  - destruct (SonarrQualitySettingsConfig.definition_of_json d) as [[n t] |] eqn:Ed;
      cbn [bind]; [| discriminate].
    intros Hrun. destruct (IH _ _ Hrun) as [Hnd Hall]. split.
    + intros Hacc. apply Hnd. now apply NoDup_dict_set.
    + intros Hacc. apply Hall.
      apply (Forall_dict_set constructed); [| exact Hacc].
      apply definition_of_json_Ok_iff in Ed.
      destruct Ed as (_ & tv & mv & pv & _ & _ & _ & Hnew).
      red. eauto.
Qed.

Lemma from_remote_Ok (records : list json) (remote : SonarrQualitySettingsConfig.t) :
  SonarrQualitySettingsConfig.from_remote records = Ok remote ->
  SonarrQualitySettingsConfig.trash_id remote = None
  /\ SonarrQualitySettingsConfig.from_remote_definitions records []
     = Ok (SonarrQualitySettingsConfig.definitions remote).
Proof.
  unfold SonarrQualitySettingsConfig.from_remote.
  destruct (SonarrQualitySettingsConfig.from_remote_definitions records [])
    as [defs |]; [| discriminate].
  cbn. intros [= <-]. auto.
Qed.

(** X10.  A tier read from the server never carries its own quality name as
    title: a title equal to the name is read as no title. *)
Theorem from_remote_title (records : list json)
    (remote : SonarrQualitySettingsConfig.t) (name : string)
    (t : QualityDefinition.t) :
  SonarrQualitySettingsConfig.from_remote records = Ok remote ->
  dict_get name (SonarrQualitySettingsConfig.definitions remote) = Some t ->
  QualityDefinition.title t <> Some name.
Proof.
  intros Hremote Hget. destruct (from_remote_Ok _ _ Hremote) as [_ Hdefs].
  destruct (from_remote_definitions_spec _ _ _ Hdefs) as [_ Hlast].
  specialize (Hlast name).
  destruct (last_named name records) as [d |]; [| cbn in Hlast; congruence].
  destruct Hlast as (t' & Ht' & Hget'). assert (t' = t) as -> by congruence.
  apply definition_of_json_Ok_iff in Ht'.
  destruct Ht' as (_ & tv & mv & pv & _ & _ & _ & Hnew).
  apply new_Ok_iff in Hnew. destruct Hnew as (Htitle & _).
  intros Heq. rewrite Heq in Htitle.
  destruct tv; cbn in Htitle; try discriminate.
  destruct (String.eqb_spec s name) as [-> | Hne]; cbn in Htitle; [discriminate |].
  congruence.
Qed.

Lemma from_remote_title_witness :
  QualityDefinition.title (QualityDefinition.Build None 1 5 (Some 100)) <> Some "X".
Proof.
  exact (from_remote_title example_server example_remote "X"
           (QualityDefinition.Build None 1 5 (Some 100)) eq_refl eq_refl).
Defined.

(** X11.  The profile read from the server has no external reference id, one
    entry for each quality name of the response and no other, under unique
    keys, and every tier in it is a constructed one. *)
Theorem from_remote_definitions_shape (records : list json)
    (remote : SonarrQualitySettingsConfig.t) :
  SonarrQualitySettingsConfig.from_remote records = Ok remote ->
  SonarrQualitySettingsConfig.trash_id remote = None
  /\ NoDup (keys (SonarrQualitySettingsConfig.definitions remote))
  /\ (forall name,
         In name (keys (SonarrQualitySettingsConfig.definitions remote))
         <-> exists d, In d records
                       /\ SonarrQualitySettingsConfig.quality_name d = Ok name)
  /\ Forall (fun item => constructed (snd item))
       (SonarrQualitySettingsConfig.definitions remote).
Proof.
  intros Hremote. destruct (from_remote_Ok _ _ Hremote) as [Htrash Hdefs].
  destruct (from_remote_definitions_keeps _ _ _ Hdefs) as [Hnd Hall].
  destruct (from_remote_definitions_spec _ _ _ Hdefs) as [_ Hlast].
  repeat split.
  - exact Htrash.
  - apply Hnd. constructor.
  - intros Hin. specialize (Hlast name).
    destruct (last_named name records) as [d |] eqn:Ed.
    + exists d. now apply last_named_In.
    + exfalso. cbn in Hlast. apply dict_get_None in Hlast. contradiction.
  - intros (d & Hd & Hname). specialize (Hlast name).
    destruct (last_named name records) as [d' |] eqn:Ed.
    + destruct Hlast as (t & _ & Hget). exact (dict_get_Some_keys _ _ _ Hget).
    + exfalso. exact (proj1 (last_named_None _ _) Ed d Hd Hname).
  - apply Hall. constructor.
Qed.

Lemma from_remote_definitions_shape_witness :
  NoDup (keys (SonarrQualitySettingsConfig.definitions example_remote)).
Proof.
  exact (proj1 (proj2 (from_remote_definitions_shape example_server example_remote
                         eq_refl))).
Defined.

(** X12.  When several records of the response carry the same quality name,
    the last of them decides the tier read for that name; a record without
    [maxSize], or with a null one, reads as a tier without upper bound. *)
Theorem from_remote_last_wins (before after : list json) (d : json)
    (remote : SonarrQualitySettingsConfig.t) (name : string) :
  SonarrQualitySettingsConfig.from_remote (before ++ d :: after) = Ok remote ->
  SonarrQualitySettingsConfig.quality_name d = Ok name ->
  (forall d', In d' after ->
              SonarrQualitySettingsConfig.quality_name d' <> Ok name) ->
  exists t,
    SonarrQualitySettingsConfig.definition_of_json d = Ok (name, t)
    /\ dict_get name (SonarrQualitySettingsConfig.definitions remote) = Some t
    /\ (SonarrQualitySettingsConfig.max_of_json d = VNone ->
        QualityDefinition.max t = None).
Proof.
  intros Hremote Hd Hafter. destruct (from_remote_Ok _ _ Hremote) as [_ Hdefs].
  destruct (from_remote_definitions_spec _ _ _ Hdefs) as [_ Hlast].
  specialize (Hlast name). rewrite (last_named_app _ _ _ _ Hd Hafter) in Hlast.
  destruct Hlast as (t & Ht & Hget). exists t. repeat split; auto.
  intros Hmax. apply definition_of_json_Ok_iff in Ht.
  destruct Ht as (_ & tv & mv & pv & _ & _ & _ & Hnew).
  apply new_Ok_iff in Hnew. destruct Hnew as (_ & _ & _ & Hx).
  rewrite Hmax in Hx. unfold QualityDefinition.check_max in Hx.
  destruct (QualityDefinition.validate_max None _) as [v |] eqn:Ev.
  - injection Hx as <-. revert Ev. unfold QualityDefinition.validate_max, getitem.
    cbn. destruct (Qltb _ 1); [discriminate | now intros [= <-]].
  - destruct e; discriminate.
Qed.

Lemma from_remote_last_wins_witness :
  exists t,
    dict_get "Y" (SonarrQualitySettingsConfig.definitions example_remote) = Some t
    /\ QualityDefinition.max t = None.
Proof.
  destruct (from_remote_last_wins [example_X] [] example_Y example_remote "Y"
              eq_refl eq_refl ltac:(intros d' []))
    as (t & _ & Hget & Hmax).
  exists t. split; [exact Hget | exact (Hmax eq_refl)].
Defined.

Lemma from_remote_definitions_stops (before after : list json) (d : json) (e : exn) :
  Forall (fun d' => exists n t,
              SonarrQualitySettingsConfig.definition_of_json d' = Ok (n, t)) before ->
  SonarrQualitySettingsConfig.definition_of_json d = Err e ->
  forall acc,
    SonarrQualitySettingsConfig.from_remote_definitions (before ++ d :: after) acc
    = Err e.
Proof.
  intros Hbefore Hd. induction Hbefore as [| d0 rest (n & t & Hd0) _ IH];
    intros acc; cbn.
  - now rewrite Hd.
  - rewrite Hd0. cbn. apply IH.
Qed.

(** X13.  Reading stops at the first record that cannot be read, with the
    exception of that record, and the keys of a record are looked up in the
    order quality, name, title, minSize, preferredSize: the first of them
    that is missing is the one the [KeyError] reports.  A missing [maxSize]
    is no error. *)
Theorem from_remote_missing_key (before after : list json) (d : json) :
  Forall (fun d' => exists n t,
              SonarrQualitySettingsConfig.definition_of_json d' = Ok (n, t)) before ->
  (dict_get "quality" d = None ->
   SonarrQualitySettingsConfig.from_remote (before ++ d :: after)
   = Err (KeyError (VStr "quality")))
  /\ (forall name,
         SonarrQualitySettingsConfig.quality_name d = Ok name ->
         (dict_get "title" d = None ->
          SonarrQualitySettingsConfig.from_remote (before ++ d :: after)
          = Err (KeyError (VStr "title")))
         /\ (dict_get "title" d <> None -> dict_get "minSize" d = None ->
             SonarrQualitySettingsConfig.from_remote (before ++ d :: after)
             = Err (KeyError (VStr "minSize")))
         /\ (dict_get "title" d <> None -> dict_get "minSize" d <> None ->
             dict_get "preferredSize" d = None ->
             SonarrQualitySettingsConfig.from_remote (before ++ d :: after)
             = Err (KeyError (VStr "preferredSize")))).
Proof.
  intros Hbefore.
  assert (forall e, SonarrQualitySettingsConfig.definition_of_json d = Err e ->
                    SonarrQualitySettingsConfig.from_remote (before ++ d :: after)
                    = Err e) as Hstop.
  { intros e He. unfold SonarrQualitySettingsConfig.from_remote.
    now rewrite (from_remote_definitions_stops _ _ _ _ Hbefore He). }
  split.
  - intros Hq. apply Hstop.
    unfold SonarrQualitySettingsConfig.definition_of_json,
      SonarrQualitySettingsConfig.quality_name, getitem.
    now rewrite Hq.
  - intros name Hname. repeat split.
    + intros Ht. apply Hstop.
      unfold SonarrQualitySettingsConfig.definition_of_json, getitem.
      now rewrite Hname, Ht.
    + intros Ht Hm. apply Hstop.
      unfold SonarrQualitySettingsConfig.definition_of_json, getitem.
      rewrite Hname. destruct (dict_get "title" d); [| congruence].
      now rewrite Hm.
    + intros Ht Hm Hp. apply Hstop.
      unfold SonarrQualitySettingsConfig.definition_of_json, getitem.
      rewrite Hname. destruct (dict_get "title" d); [| congruence].
      destruct (dict_get "minSize" d); [| congruence].
      now rewrite Hp.
Qed.

Lemma from_remote_missing_key_witness :
  SonarrQualitySettingsConfig.from_remote
    ([example_X]
       ++ [("id", VInt 9); ("quality", VDict [("name", VStr "W")]);
           ("title", VStr "W")]
       :: [example_Y])
  = Err (KeyError (VStr "minSize")).
Proof.
  destruct (from_remote_missing_key [example_X] [example_Y]
              [("id", VInt 9); ("quality", VDict [("name", VStr "W")]);
               ("title", VStr "W")]) as [_ Hkeys].
  - repeat constructor. do 2 eexists. reflexivity.
  - destruct (Hkeys "W" eq_refl) as (_ & Hmin & _).
    apply Hmin; [discriminate | reflexivity].
Defined.

(** ** Reconciling, for any [get_update_remote_attrs] *)

Section UpdateRemoteMore.
Variable get_update_remote_attrs :
  string -> QualityDefinition.t -> QualityDefinition.t ->
  list remote_map_entry -> result (bool * json).

Let update_definitions :=
  SonarrQualitySettingsConfig.update_definitions get_update_remote_attrs.

(** The loop over a list is the loop over a prefix followed by the loop over
    the rest, started with the flag the prefix reached; the calls made for
    the prefix stay made when a later entry raises. *)
Lemma update_definitions_app (tree : string) (remote : SonarrQualitySettingsConfig.t)
    (rdj : dict Z json) (ids : dict string Z)
    (items1 items2 : list (string * QualityDefinition.t)) :
  forall changed,
    update_definitions tree remote rdj ids (items1 ++ items2) changed
    = match update_definitions tree remote rdj ids items1 changed with
      | (puts1, Ok changed1) =>
          let '(puts2, r) := update_definitions tree remote rdj ids items2 changed1 in
          (puts1 ++ puts2, r)
      | (puts1, Err e) => (puts1, Err e)
      end.
Proof.
  subst update_definitions.
  induction items1 as [| [name l] rest IH]; intros changed; cbn.
  - now destruct (SonarrQualitySettingsConfig.update_definitions _ tree remote rdj
                    ids items2 changed).
  - destruct (getitem name (SonarrQualitySettingsConfig.definitions remote))
      as [rd |]; [| reflexivity].
    destruct (get_update_remote_attrs _ l rd _) as [[updated attrs] |];
      [| reflexivity].
    destruct updated; [| apply IH].
    destruct (getitem name ids) as [id |]; [| reflexivity].
    destruct (getitem id rdj) as [record |]; [| reflexivity].
    rewrite IH.
    destruct (SonarrQualitySettingsConfig.update_definitions _ tree remote rdj ids
                rest true) as [puts1 [c1 | e]]; [| reflexivity].
    now destruct (SonarrQualitySettingsConfig.update_definitions _ tree remote rdj
                    ids items2 c1).
Qed.

Lemma update_definitions_flag (tree : string) (remote : SonarrQualitySettingsConfig.t)
    (rdj : dict Z json) (ids : dict string Z)
    (items : list (string * QualityDefinition.t)) :
  forall changed puts r,
    update_definitions tree remote rdj ids items changed = (puts, r) ->
    (List.length puts <= List.length items)%nat
    /\ forall b, r = Ok b -> b = changed || negb (Nat.eqb (List.length puts) 0).
Proof.
  subst update_definitions.
  induction items as [| [name l] rest IH]; intros changed puts r; cbn.
  - intros [= <- <-]. split; [auto |]. intros b [= <-]. now rewrite orb_false_r.
  - destruct (getitem name (SonarrQualitySettingsConfig.definitions remote))
      as [rd |]; [| intros [= <- <-]; cbn; split; [apply Nat.le_0_l | discriminate]].
    destruct (get_update_remote_attrs _ l rd _) as [[updated attrs] |];
      [| intros [= <- <-]; cbn; split; [apply Nat.le_0_l | discriminate]].
    destruct updated.
    + destruct (getitem name ids) as [id |];
        [| intros [= <- <-]; cbn; split; [apply Nat.le_0_l | discriminate]].
      destruct (getitem id rdj) as [record |];
        [| intros [= <- <-]; cbn; split; [apply Nat.le_0_l | discriminate]].
      destruct (SonarrQualitySettingsConfig.update_definitions _ tree remote rdj ids
                  rest true) as [puts' r'] eqn:Erest.
      intros [= <- <-]. destruct (IH _ _ _ Erest) as [Hlen Hflag]. split.
      * cbn. now apply le_n_S.
      * intros b Hb. rewrite (Hflag b Hb). cbn. now rewrite orb_true_r.
    + intros Hrun. destruct (IH _ _ _ Hrun) as [Hlen Hflag]. split; [| exact Hflag].
      now apply Nat.le_le_succ_r.
Qed.
End UpdateRemoteMore.

Lemma update_definitions_from_false
    (get_update_remote_attrs :
       string -> QualityDefinition.t -> QualityDefinition.t ->
       list remote_map_entry -> result (bool * json))
    (tree : string) (remote : SonarrQualitySettingsConfig.t)
    (rdj : dict Z json) (ids : dict string Z)
    (items : list (string * QualityDefinition.t)) (changed : bool) :
  SonarrQualitySettingsConfig.update_definitions get_update_remote_attrs tree remote
    rdj ids items changed
  = let '(puts, r) :=
      SonarrQualitySettingsConfig.update_definitions get_update_remote_attrs tree
        remote rdj ids items false in
    (puts, match r with Ok b => Ok (changed || b) | Err e => Err e end).
Proof.
  revert changed. induction items as [| [name l] rest IH]; intros changed; cbn.
  - now rewrite orb_false_r.
  - destruct (getitem name (SonarrQualitySettingsConfig.definitions remote))
      as [rd |]; [| reflexivity].
    destruct (get_update_remote_attrs _ l rd _) as [[updated attrs] |];
      [| reflexivity].
    destruct updated; [| apply IH].
    destruct (getitem name ids) as [id |]; [| reflexivity].
    destruct (getitem id rdj) as [record |]; [| reflexivity].
    destruct (SonarrQualitySettingsConfig.update_definitions _ tree remote rdj ids
                rest true) as [puts [b | e]] eqn:Erest; [| reflexivity].
    pose proof (update_definitions_flag get_update_remote_attrs tree remote rdj ids
                  rest true puts (Ok b) Erest) as [_ Hflag].
    rewrite (Hflag b eq_refl). cbn. now rewrite orb_true_r.
Qed.

Lemma update_definitions_calls
    (get_update_remote_attrs :
       string -> QualityDefinition.t -> QualityDefinition.t ->
       list remote_map_entry -> result (bool * json))
    (tree : string) (remote : SonarrQualitySettingsConfig.t)
    (rdj : dict Z json) (ids : dict string Z)
    (items : list (string * QualityDefinition.t)) :
  forall changed puts r,
    SonarrQualitySettingsConfig.update_definitions get_update_remote_attrs tree remote
      rdj ids items changed = (puts, r) ->
    exists done rest,
      items = done ++ rest
      /\ Forall2
           (fun p item =>
              exists rd attrs record,
                dict_get (fst item) (SonarrQualitySettingsConfig.definitions remote)
                = Some rd
                /\ get_update_remote_attrs
                     (tree ++ "[" ++ repr (fst item) ++ "]")%string (snd item) rd
                     (SonarrQualitySettingsConfig.remote_map (fst item))
                   = Ok (true, attrs)
                /\ dict_get (fst item) ids = Some (put_id p)
                /\ dict_get (put_id p) rdj = Some record
                /\ put_body p = dict_merge record attrs)
           puts (filter (updated_entry get_update_remote_attrs tree remote) done)
      /\ (forall b, r = Ok b -> rest = []).
Proof.
  induction items as [| [name l] rest0 IH]; intros changed puts r;
    cbn [SonarrQualitySettingsConfig.update_definitions].
  - intros [= <- <-]. exists [], [].
    split; [reflexivity | split; [constructor | auto]].
  - assert (forall e : exn,
               exists done rest : list (string * QualityDefinition.t),
                 (name, l) :: rest0 = done ++ rest
                 /\ Forall2
                      (fun p item =>
                         exists rd attrs record,
                           dict_get (fst item)
                             (SonarrQualitySettingsConfig.definitions remote) = Some rd
                           /\ get_update_remote_attrs
                                (tree ++ "[" ++ repr (fst item) ++ "]")%string
                                (snd item) rd
                                (SonarrQualitySettingsConfig.remote_map (fst item))
                              = Ok (true, attrs)
                           /\ dict_get (fst item) ids = Some (put_id p)
                           /\ dict_get (put_id p) rdj = Some record
                           /\ put_body p = dict_merge record attrs)
                      [] (filter (updated_entry get_update_remote_attrs tree remote)
                            done)
                 /\ (forall b, @Err bool e = Ok b -> rest = [])) as Hstop.
    { intros e. exists [], ((name, l) :: rest0).
      split; [reflexivity | split; [constructor | discriminate]]. }
    unfold getitem.
    destruct (dict_get name (SonarrQualitySettingsConfig.definitions remote))
      as [rd |] eqn:Erd; [| intros [= <- <-]; apply Hstop].
    destruct (get_update_remote_attrs (tree ++ "[" ++ repr name ++ "]")%string l rd
                (SonarrQualitySettingsConfig.remote_map name))
      as [[updated attrs] | e] eqn:Eattrs; [| intros [= <- <-]; apply Hstop].
    assert (updated_entry get_update_remote_attrs tree remote (name, l) = updated)
      as Hupd.
    { unfold updated_entry. cbn [fst snd]. rewrite Erd, Eattrs. now destruct updated. }
    destruct updated.
    + destruct (dict_get name ids) as [id |] eqn:Eid;
        [| intros [= <- <-]; apply Hstop].
      destruct (dict_get id rdj) as [record |] eqn:Erec;
        [| intros [= <- <-]; apply Hstop].
      destruct (SonarrQualitySettingsConfig.update_definitions _ tree remote rdj ids
                  rest0 true) as [puts' r'] eqn:Erest.
      intros [= <- <-].
      destruct (IH _ _ _ Erest) as (done & rest & -> & Hputs & Hall).
      exists ((name, l) :: done), rest.
      split; [reflexivity | split; [| exact Hall]].
      cbn [filter]. rewrite Hupd. constructor; [| exact Hputs].
      exists rd, attrs, record. cbn [fst snd put_id put_body]. auto.
    + intros Hrun.
      destruct (IH _ _ _ Hrun) as (done & rest & -> & Hputs & Hall).
      exists ((name, l) :: done), rest.
      split; [reflexivity | split; [| exact Hall]].
      cbn [filter]. now rewrite Hupd.
Qed.

(** X14.  The calls [update_remote] makes are, in order, exactly one for
    each local entry it got to that [get_update_remote_attrs] reported as
    updated, each to the record of that entry's quality name, and none for
    the other entries.  When it returns it got to every entry, and it
    returns [True] exactly when it made a call. *)
Theorem update_remote_flag
    (get_update_remote_attrs :
       string -> QualityDefinition.t -> QualityDefinition.t ->
       list remote_map_entry -> result (bool * json))
    (self : SonarrQualitySettingsConfig.t) (tree : string) (api_get : list json)
    (remote : SonarrQualitySettingsConfig.t) (puts : list api_put)
    (r : result bool) :
  SonarrQualitySettingsConfig.update_remote get_update_remote_attrs self tree
    api_get remote = (puts, r) ->
  (exists done rest,
      SonarrQualitySettingsConfig.definitions self = done ++ rest
      /\ Forall2 (put_of get_update_remote_attrs tree remote api_get) puts
           (filter (updated_entry get_update_remote_attrs tree remote) done)
      /\ (forall b, r = Ok b -> rest = []))
  /\ forall b, r = Ok b -> (b = true <-> puts <> []).
Proof.
  unfold SonarrQualitySettingsConfig.update_remote.
  destruct (SonarrQualitySettingsConfig.remote_definitions_json_of api_get [])
    as [rdj | e] eqn:Erdj.
  2:{ intros [= <- <-]. split; [| discriminate].
      exists [], (SonarrQualitySettingsConfig.definitions self).
      split; [reflexivity | split; [constructor | discriminate]]. }
  destruct (SonarrQualitySettingsConfig.definition_ids_of rdj []) as [ids | e] eqn:Eids.
  2:{ intros [= <- <-]. split; [| discriminate].
      exists [], (SonarrQualitySettingsConfig.definitions self).
      split; [reflexivity | split; [constructor | discriminate]]. }
  intros Hrun. split.
  - destruct (update_definitions_calls _ _ _ _ _ _ _ _ _ Hrun)
      as (done & rest & Heq & Hputs & Hall).
    exists done, rest. split; [exact Heq | split; [| exact Hall]].
    eapply Forall2_impl; [| exact Hputs].
    intros p item (rd & attrs & record & Hrd & Hattrs & Hid & Hrec & Hbody).
    destruct (indexes_spec _ _ _ Erdj Eids _ _ Hid)
      as (record' & Hrec' & Hin & Hrid & Hname).
    assert (record' = record) as -> by congruence.
    exists rd, attrs, record. auto 10.
  - destruct (update_definitions_flag _ _ _ _ _ _ _ _ _ Hrun) as [_ Hflag].
    intros b Hb. rewrite (Hflag b Hb). cbn.
    destruct puts; cbn; split; congruence.
Qed.

Lemma update_remote_flag_witness :
  true = true <-> [example_put] <> [].
Proof.
  exact (proj2 (update_remote_flag ConfigBase.get_update_remote_attrs example_local
                  "quality" example_server example_remote [example_put] (Ok true)
                  eq_refl) true eq_refl).
Defined.

(** X15.  The body of every call to [api_put] is the record the response
    holds under the id the call goes to, with the attributes returned by
    [get_update_remote_attrs] merged over it: every key those attributes do
    not have is sent back as it was read. *)
Theorem update_remote_frame
    (get_update_remote_attrs :
       string -> QualityDefinition.t -> QualityDefinition.t ->
       list remote_map_entry -> result (bool * json))
    (self : SonarrQualitySettingsConfig.t) (tree : string) (api_get : list json)
    (remote : SonarrQualitySettingsConfig.t) (puts : list api_put)
    (r : result bool) :
  SonarrQualitySettingsConfig.update_remote get_update_remote_attrs self tree
    api_get remote = (puts, r) ->
  forall p, In p puts ->
    exists name l rd attrs record,
      In (name, l) (SonarrQualitySettingsConfig.definitions self)
      /\ dict_get name (SonarrQualitySettingsConfig.definitions remote) = Some rd
      /\ get_update_remote_attrs (tree ++ "[" ++ repr name ++ "]")%string l rd
           (SonarrQualitySettingsConfig.remote_map name) = Ok (true, attrs)
      /\ In record api_get
      /\ SonarrQualitySettingsConfig.definition_id_of record = Ok (put_id p)
      /\ SonarrQualitySettingsConfig.quality_name record = Ok name
      /\ put_body p = dict_merge record attrs
      /\ forall k, dict_get k attrs = None ->
                   dict_get k (put_body p) = dict_get k record.
Proof.
  unfold SonarrQualitySettingsConfig.update_remote.
  destruct (SonarrQualitySettingsConfig.remote_definitions_json_of api_get [])
    as [rdj | e] eqn:Erdj; [| intros [= <- <-] p []].
  destruct (SonarrQualitySettingsConfig.definition_ids_of rdj [])
    as [ids | e] eqn:Eids; [| intros [= <- <-] p []].
  intros Hrun p Hp.
  destruct (update_definitions_puts _ _ _ _ _ _ _ _ _ Hrun p Hp)
    as (name & l & rd & attrs & record & Hin & Hrd & Hattrs & Hid & Hrec & Hbody).
  destruct (indexes_spec _ _ _ Erdj Eids _ _ Hid)
    as (record' & Hrec' & Hrin & Hrid & Hname).
  assert (record' = record) as -> by congruence.
  exists name, l, rd, attrs, record. repeat split; auto.
  intros k Hk. rewrite Hbody. now apply dict_merge_get_None.
Qed.

Lemma update_remote_frame_witness :
  dict_get "weight" (put_body example_put) = Some (VInt 2).
Proof.
  destruct (update_remote_frame ConfigBase.get_update_remote_attrs example_local
              "quality" example_server example_remote [example_put] (Ok true)
              eq_refl example_put (or_introl eq_refl))
    as (name & l & rd & attrs & record & Hin & Hrd & Hattrs & Hrin & Hrid & _ & _
        & Hframe).
  destruct Hin as [[= <- <-] | []]. injection Hrd as <-.
  rewrite get_update_remote_attrs_spec in Hattrs.
  assert (attrs = changed_attrs "X" (QualityDefinition.Build None 2 5 (Some 100))
                    (QualityDefinition.Build None 1 5 (Some 100))) as ->
      by congruence.
  destruct Hrin as [<- | [<- | []]]; [| discriminate Hrid].
  rewrite Hframe; reflexivity.
Defined.

(** X16.  Reconciling a profile whose entries are one list followed by
    another is reconciling the first list and then the second against the
    same response: the calls follow each other, the flags are joined by
    [or], and when the first part raises the second is never started. *)
Theorem update_remote_app
    (get_update_remote_attrs :
       string -> QualityDefinition.t -> QualityDefinition.t ->
       list remote_map_entry -> result (bool * json))
    (trash : option string) (items1 items2 : list (string * QualityDefinition.t))
    (tree : string) (api_get : list json) (remote : SonarrQualitySettingsConfig.t) :
  SonarrQualitySettingsConfig.update_remote get_update_remote_attrs
    (SonarrQualitySettingsConfig.Build trash (items1 ++ items2)) tree api_get remote
  = match SonarrQualitySettingsConfig.update_remote get_update_remote_attrs
            (SonarrQualitySettingsConfig.Build trash items1) tree api_get remote with
    | (puts1, Ok changed1) =>
        let '(puts2, r) :=
          SonarrQualitySettingsConfig.update_remote get_update_remote_attrs
            (SonarrQualitySettingsConfig.Build trash items2) tree api_get remote in
        (puts1 ++ puts2,
         match r with Ok changed2 => Ok (changed1 || changed2) | Err e => Err e end)
    | (puts1, Err e) => (puts1, Err e)
    end.
Proof.
  unfold SonarrQualitySettingsConfig.update_remote. cbn.
  destruct (SonarrQualitySettingsConfig.remote_definitions_json_of api_get [])
    as [rdj | e]; [| reflexivity].
  destruct (SonarrQualitySettingsConfig.definition_ids_of rdj []) as [ids | e];
    [| reflexivity].
  rewrite update_definitions_app.
  destruct (SonarrQualitySettingsConfig.update_definitions _ tree remote rdj ids
              items1 false) as [puts1 [c1 | e]]; [| reflexivity].
  rewrite (update_definitions_from_false _ tree remote rdj ids items2 c1).
  now destruct (SonarrQualitySettingsConfig.update_definitions _ tree remote rdj ids
                  items2 false).
Qed.

Lemma remote_definitions_json_of_stops (before after : list json) (d : json) (e : exn) :
  Forall (fun d' => exists z,
              SonarrQualitySettingsConfig.definition_id_of d' = Ok z) before ->
  SonarrQualitySettingsConfig.definition_id_of d = Err e ->
  forall acc,
    SonarrQualitySettingsConfig.remote_definitions_json_of (before ++ d :: after) acc
    = Err e.
Proof.
  intros Hbefore Hd. induction Hbefore as [| d0 rest (z & Hz) _ IH]; intros acc; cbn.
  - now rewrite Hd.
  - rewrite Hz. cbn. apply IH.
Qed.

(** X17.  [update_remote] reads the whole response before it looks at the
    local entries: a record without [id] makes it raise [KeyError] for [id]
    before any call to [api_put], whatever the local and the remote profile
    are. *)
Theorem update_remote_missing_id
    (get_update_remote_attrs :
       string -> QualityDefinition.t -> QualityDefinition.t ->
       list remote_map_entry -> result (bool * json))
    (self : SonarrQualitySettingsConfig.t) (tree : string)
    (before after : list json) (d : json) (remote : SonarrQualitySettingsConfig.t) :
  Forall (fun d' => exists z,
              SonarrQualitySettingsConfig.definition_id_of d' = Ok z) before ->
  dict_get "id" d = None ->
  SonarrQualitySettingsConfig.update_remote get_update_remote_attrs self tree
    (before ++ d :: after) remote
  = ([], Err (KeyError (VStr "id"))).
Proof.
  intros Hbefore Hd. unfold SonarrQualitySettingsConfig.update_remote.
  rewrite (remote_definitions_json_of_stops before after d (KeyError (VStr "id")));
    [reflexivity | exact Hbefore |].
  unfold SonarrQualitySettingsConfig.definition_id_of, getitem. now rewrite Hd.
Qed.

Lemma update_remote_missing_id_witness :
  SonarrQualitySettingsConfig.update_remote ConfigBase.get_update_remote_attrs
    example_local "quality"
    ([example_X] ++ [("quality", VDict [("name", VStr "W")])] :: [example_Y])
    example_remote
  = ([], Err (KeyError (VStr "id"))).
Proof.
  apply (update_remote_missing_id ConfigBase.get_update_remote_attrs example_local
           "quality" [example_X] [example_Y]
           [("quality", VDict [("name", VStr "W")])] example_remote).
  - repeat constructor. eexists. reflexivity.
  - reflexivity.
Defined.

(** X18.  With no local entry and a well-formed response, [update_remote]
    makes no call and returns [False], whatever the remote profile is. *)
Theorem update_remote_empty
    (get_update_remote_attrs :
       string -> QualityDefinition.t -> QualityDefinition.t ->
       list remote_map_entry -> result (bool * json))
    (self : SonarrQualitySettingsConfig.t) (tree : string) (api_get : list json)
    (remote : SonarrQualitySettingsConfig.t) :
  SonarrQualitySettingsConfig.definitions self = [] ->
  Forall well_formed api_get ->
  SonarrQualitySettingsConfig.update_remote get_update_remote_attrs self tree
    api_get remote = ([], Ok false).
Proof.
  intros Hempty Hwf. unfold SonarrQualitySettingsConfig.update_remote.
  destruct (remote_definitions_json_of_total _ Hwf [] (Forall_nil _))
    as (rdj & -> & Hrdj).
  destruct (definition_ids_of_total _ Hrdj []) as [ids ->].
  now rewrite Hempty.
Qed.

Lemma update_remote_empty_witness :
  SonarrQualitySettingsConfig.update_remote ConfigBase.get_update_remote_attrs
    (SonarrQualitySettingsConfig.Build (Some "abc") []) "quality" example_server
    example_remote
  = ([], Ok false).
Proof.
  apply update_remote_empty.
  - reflexivity.
  - repeat constructor; eexists; reflexivity.
Defined.

Lemma update_definitions_total
    (get_update_remote_attrs :
       string -> QualityDefinition.t -> QualityDefinition.t ->
       list remote_map_entry -> result (bool * json))
    (tree : string) (remote : SonarrQualitySettingsConfig.t)
    (rdj : dict Z json) (ids : dict string Z)
    (items : list (string * QualityDefinition.t)) :
  (forall t l r n, exists res,
        get_update_remote_attrs t l r (SonarrQualitySettingsConfig.remote_map n)
        = Ok res) ->
  Forall (fun item =>
            (exists rd, dict_get (fst item)
                          (SonarrQualitySettingsConfig.definitions remote) = Some rd)
            /\ exists id record, dict_get (fst item) ids = Some id
                                 /\ dict_get id rdj = Some record) items ->
  forall changed, exists puts b,
    SonarrQualitySettingsConfig.update_definitions get_update_remote_attrs tree remote
      rdj ids items changed = (puts, Ok b).
Proof.
  intros Htotal.
  induction 1 as [| [name l] rest ((rd & Hrd) & id & record & Hid & Hrec) _ IH];
    intros changed; cbn [SonarrQualitySettingsConfig.update_definitions].
  - eauto.
  - cbn in Hrd, Hid. unfold getitem. rewrite Hrd.
    destruct (Htotal (tree ++ "[" ++ repr name ++ "]")%string l rd name)
      as [[updated attrs] ->].
    destruct updated; [| apply IH].
    rewrite Hid, Hrec. destruct (IH true) as (puts & b & ->). eauto.
Qed.

(** X19.  The precondition of [update_remote] is also sufficient.  When the
    remote profile was read from the same response, the response is well
    formed with distinct ids, every local quality name is the name of one of
    its records and [get_update_remote_attrs] does not raise, [update_remote]
    returns. *)
Theorem update_remote_returns
    (get_update_remote_attrs :
       string -> QualityDefinition.t -> QualityDefinition.t ->
       list remote_map_entry -> result (bool * json))
    (self : SonarrQualitySettingsConfig.t) (tree : string) (records : list json)
    (remote : SonarrQualitySettingsConfig.t) :
  (forall t l r n, exists res,
        get_update_remote_attrs t l r (SonarrQualitySettingsConfig.remote_map n)
        = Ok res) ->
  Forall well_formed records ->
  NoDup (map SonarrQualitySettingsConfig.definition_id_of records) ->
  SonarrQualitySettingsConfig.from_remote records = Ok remote ->
  (forall name, In name (keys (SonarrQualitySettingsConfig.definitions self)) ->
     exists d, In d records /\ SonarrQualitySettingsConfig.quality_name d = Ok name) ->
  exists puts b,
    SonarrQualitySettingsConfig.update_remote get_update_remote_attrs self tree
      records remote = (puts, Ok b).
Proof.
  intros Htotal Hwf Hnd Hremote Hnames.
  destruct (from_remote_Ok _ _ Hremote) as [_ Hdefs].
  destruct (from_remote_definitions_spec _ _ _ Hdefs) as [_ Hlast].
  unfold SonarrQualitySettingsConfig.update_remote.
  destruct (remote_definitions_json_of_total _ Hwf [] (Forall_nil _))
    as (rdj & Erdj & Hrdj).
  destruct (definition_ids_of_total _ Hrdj []) as [ids Eids].
  rewrite Erdj, Eids.
  apply update_definitions_total; [exact Htotal |].
  apply Forall_forall. intros item Hitem.
  destruct (Hnames (fst item) (in_map fst _ _ Hitem)) as (d & Hd & Hname).
  specialize (Hlast (fst item)).
  destruct (last_named (fst item) records) as [d' |] eqn:Elast.
  2:{ exfalso. exact (proj1 (last_named_None _ _) Elast d Hd Hname). }
  destruct Hlast as (t & _ & Hget). split; [eauto |].
  destruct (remote_definitions_json_of_order _ _ _ Erdj Hnd) as (zs & Hzs & Heq);
    [intros d0 _ z _ [] |].
  cbn in Heq. subst rdj.
  assert (List.length zs = List.length records) as Hlen.
  { apply (f_equal (@List.length _)) in Hzs. now rewrite !length_map in Hzs. }
  pose proof (definition_ids_of_last zs records Hlen _ _ Eids (fst item)) as Hids.
  rewrite Elast in Hids. destruct Hids as (z & _ & Hz).
  destruct (indexes_spec _ _ _ Erdj Eids _ _ Hz) as (record & Hrec & _).
  eauto.
Qed.

Lemma update_remote_returns_witness :
  exists puts b,
    SonarrQualitySettingsConfig.update_remote ConfigBase.get_update_remote_attrs
      example_local "quality" example_server example_remote = (puts, Ok b).
Proof.
  apply update_remote_returns.
  - intros t l r n. eexists. apply get_update_remote_attrs_spec.
  - repeat constructor; eexists; reflexivity.
  - repeat constructor; cbn; intuition discriminate.
  - reflexivity.
  - intros name [<- | []]. exists example_X. split; [left |]; reflexivity.
Defined.

Lemma tier_equal_refl (name : string) (t : QualityDefinition.t) : tier_equal name t t.
Proof.
  repeat split; try reflexivity.
  destruct (QualityDefinition.max t); cbn; [reflexivity | exact I].
Qed.

(** X20.  A profile read from the server is in sync with it: reconciling the
    profile [from_remote] returned against the same well-formed response
    makes no call and returns [False] (with [get_update_remote_attrs] as
    modelled in [ConfigBase]). *)
Theorem from_remote_in_sync (records : list json)
    (remote : SonarrQualitySettingsConfig.t) (tree : string) :
  SonarrQualitySettingsConfig.from_remote records = Ok remote ->
  Forall well_formed records ->
  SonarrQualitySettingsConfig.update_remote ConfigBase.get_update_remote_attrs
    remote tree records remote = ([], Ok false).
Proof.
  intros Hremote Hwf.
  destruct (from_remote_Ok _ _ Hremote) as [_ Hdefs].
  destruct (from_remote_definitions_keeps _ _ _ Hdefs) as [Hnd _].
  unfold SonarrQualitySettingsConfig.update_remote.
  destruct (remote_definitions_json_of_total _ Hwf [] (Forall_nil _))
    as (rdj & -> & Hrdj).
  destruct (definition_ids_of_total _ Hrdj []) as [ids ->].
  apply update_definitions_in_sync.
  apply Forall_forall. intros [name t] Hitem. cbn.
  exists t. split; [| apply tier_equal_refl].
  apply In_dict_get; [apply Hnd; constructor | exact Hitem].
Qed.

Lemma from_remote_in_sync_witness :
  SonarrQualitySettingsConfig.update_remote ConfigBase.get_update_remote_attrs
    example_remote "quality" example_server example_remote = ([], Ok false).
Proof.
  apply from_remote_in_sync.
  - reflexivity.
  - repeat constructor; eexists; reflexivity.
Defined.

(** X21.  The constructor stores what it is given: the title, [min] and
    [preferred] of the tier are the arguments, and [max] is the argument
    too, unless the argument equals the ceiling 2000, which is stored as
    [None].  No value is clamped or rounded. *)
Theorem init_stores (title_a : option string) (min_a preferred_a : Q)
    (max_a : option Q) (t : QualityDefinition.t) :
  QualityDefinition.init title_a min_a preferred_a max_a = Ok t ->
  QualityDefinition.title t = title_a
  /\ QualityDefinition.min t = min_a
  /\ QualityDefinition.preferred t = preferred_a
  /\ (QualityDefinition.max t = max_a
      \/ (QualityDefinition.max t = None /\ exists m, max_a = Some m /\ m == 2000)).
Proof.
  unfold QualityDefinition.init. intros Hnew. apply new_Ok_iff in Hnew.
  destruct Hnew as (Ht & Hmin & Hpref & Hmax).
  unfold QualityDefinition.check_float in Hmin, Hpref.
  cbn [QualityDefinition.to_float] in Hmin, Hpref.
  apply check_range_inr in Hmin, Hpref.
  repeat split; auto.
  - destruct title_a; cbn in Ht; congruence.
  - destruct max_a as [m |]; cbn [QualityDefinition.of_float] in Hmax.
    + revert Hmax. unfold QualityDefinition.check_max.
      destruct (QualityDefinition.check_float "max" (Some 1)
                  (Some QUALITYDEFINITION_MAX) (VFloat m)) as [e | q] eqn:Ec;
        [discriminate |].
      destruct (check_float_bounds _ _ _ _ _ Ec) as [_ Hhi].
      specialize (Hhi _ eq_refl). unfold QUALITYDEFINITION_MAX in Hhi.
      unfold QualityDefinition.check_float in Ec.
      cbn [QualityDefinition.to_float] in Ec. apply check_range_inr in Ec. subst q.
      unfold QualityDefinition.validate_max, getitem.
      cbn [dict_get key_eqb string_Key String.eqb Ascii.eqb Bool.eqb bind].
      unfold QUALITYDEFINITION_MAX. rewrite py_min_ceiling.
      destruct (Qle_bool 2000 (effective_ceiling (Some m))) eqn:E;
        destruct (Qltb (effective_ceiling (Some m) - QualityDefinition.min t) 1);
        try discriminate; intros [= <-]; [right | left; reflexivity].
      split; [reflexivity |]. exists m. split; [reflexivity |].
      cbn in E. destruct (Qle_bool m 2000) eqn:E'; qbool; lra.
    + left. revert Hmax. unfold QualityDefinition.check_max,
        QualityDefinition.validate_max, getitem. cbn.
      destruct (Qltb _ 1); [discriminate | now intros [= <-]].
Qed.

Lemma init_stores_witness :
  QualityDefinition.max (QualityDefinition.Build None 2 5 None) = Some 2000
  \/ (QualityDefinition.max (QualityDefinition.Build None 2 5 None) = None
      /\ exists m, Some 2000 = Some m /\ m == 2000).
Proof.
  exact (proj2 (proj2 (proj2
           (init_stores None 2 5 (Some 2000) (QualityDefinition.Build None 2 5 None)
              eq_refl)))).
Defined.

(** ** Loading defaults, then reconciling *)

(** X22.  Defaults make demands on the server.  After [_render] has loaded
    a document, [update_remote] raises for every remote profile that lacks
    one of the quality names of that document: a name of the document is a
    local name from then on, whether the user listed it or not. *)
Theorem render_then_update_remote
    (get_update_remote_attrs :
       string -> QualityDefinition.t -> QualityDefinition.t ->
       list remote_map_entry -> result (bool * json))
    (self self' : SonarrQualitySettingsConfig.t) (files : list Trash.quality_json)
    (tid : string) (doc : Trash.quality_json) (e : Trash.definition_json)
    (tree : string) (api_get : list json) (remote : SonarrQualitySettingsConfig.t) :
  SonarrQualitySettingsConfig.trash_id self = Some tid -> tid <> "" ->
  find (matches tid) files = Some doc ->
  In e (Trash.qualities doc) ->
  SonarrQualitySettingsConfig._render self files = (self', Ok tt) ->
  dict_get (Trash.quality e) (SonarrQualitySettingsConfig.definitions remote) = None ->
  exists puts err,
    SonarrQualitySettingsConfig.update_remote get_update_remote_attrs self' tree
      api_get remote = (puts, Err err).
Proof.
  destruct self as [trash defs]. cbn. intros -> Hne Hfind He.
  unfold SonarrQualitySettingsConfig._render. cbn.
  destruct (String.eqb_spec tid "") as [-> | _]; [now contradiction Hne |].
  rewrite (render_files_found _ _ _ _ Hfind).
  destruct (SonarrQualitySettingsConfig.render_qualities (Trash.qualities doc) defs)
    as [defs' r] eqn:Erun.
  intros [= <- ->] Hremote.
  assert (In (Trash.quality e) (keys defs')) as Hkey.
  { destruct (render_qualities_spec _ _ _ Erun) as [Hkeep Hnew].
    destruct (dict_get (Trash.quality e) defs) as [q |] eqn:Eq.
    - exact (dict_get_Some_keys _ _ _ (Hkeep _ _ Eq)).
    - specialize (Hnew _ Eq).
      destruct (find (named (Trash.quality e)) (Trash.qualities doc)) as [e' |] eqn:Ef.
      + destruct Hnew as (q & _ & Hget). exact (dict_get_Some_keys _ _ _ Hget).
      + exfalso. apply (find_none _ _ Ef) in He. unfold named in He.
        now rewrite String.eqb_refl in He. }
  unfold SonarrQualitySettingsConfig.update_remote. cbn.
  destruct (SonarrQualitySettingsConfig.remote_definitions_json_of api_get [])
    as [rdj | err]; [| eauto].
  destruct (SonarrQualitySettingsConfig.definition_ids_of rdj []) as [ids | err];
    [| eauto].
  destruct (update_definitions_missing get_update_remote_attrs tree remote rdj ids
              defs' (Trash.quality e) Hkey Hremote false) as (puts & err & Hrun & _).
  eauto.
Qed.

Lemma render_then_update_remote_witness :
  exists puts err,
    SonarrQualitySettingsConfig.update_remote ConfigBase.get_update_remote_attrs
      example_rendered "quality" example_server example_remote = (puts, Err err).
Proof.
  apply (render_then_update_remote ConfigBase.get_update_remote_attrs
           example_profile example_rendered [example_document] "abc"
           example_document
           {| Trash.quality := "B"; Trash.min := VInt 1; Trash.preferred := VInt 2;
              Trash.max := VFloat (7 # 2) |}).
  - reflexivity.
  - discriminate.
  - reflexivity.
  - right. left. reflexivity.
  - reflexivity.
  - reflexivity.
Defined.
